(** * pyfisheye: the [FishEye] wrapper of [fisheye/core.py]

    A shallow embedding of the module [fisheye/core.py] and the proofs of
    the properties its specification states.

    The module is a thin layer over two libraries, numpy and OpenCV.  The
    numpy operations the module uses ([zeros], [eye], [mgrid], [.T],
    [reshape], slice assignment, [copy]) are modelled concretely on arrays in
    row-major order.  The OpenCV and pickle entry points are taken as an
    interface ([OpenCV], [Pickle]): every statement below holds for whatever
    functions implement it.  Python objects that the module shares or
    mutates (the arrays [K], [D] and the pose buffers) live in a store of
    references. *)

From Stdlib Require Import ZArith List String Ascii Lia.
From stdpp Require Import base option list gmap strings.

#[local] Open Scope Z_scope.
#[local] Open Scope nat_scope.

(** ** Exceptions and results *)

Inductive exn : Type :=
| UnboundLocalError (name : string)
| ValueError (msg : string)
| TypeError (msg : string)
| IOError (msg : string)
| SystemError (msg : string)
| AssertionError (msg : string)
| IndexError (msg : string)
| EOFError (msg : string)
| cv2_error (msg : string)
| PickleError (msg : string).

Inductive result (A : Type) : Type :=
| Ret (a : A)
| Raise (e : exn).
Arguments Ret {A} a.
Arguments Raise {A} e.

Definition is_Ret {A} (r : result A) : bool :=
  match r with Ret _ => true | Raise _ => false end.

Definition result_map {A B} (f : A -> B) (r : result A) : result B :=
  match r with Ret a => Ret (f a) | Raise e => Raise e end.

Definition result_bind {A B} (r : result A) (k : A -> result B) : result B :=
  match r with Ret a => k a | Raise e => Raise e end.

(** ** Floating-point scalars

    The module never computes on a float: it only writes the constants 0 and
    1, converts small integers, and passes literals through.  A float is
    therefore an element of an unspecified type, and [float_lit m e] is the
    float that the decimal numeral [m * 10^e] denotes. *)

Class Floating : Type := {
  float : Type;
  float_lit : Z -> Z -> float
}.

(** ** numpy arrays *)

Module np.

Inductive dtype : Type := uint8 | int16 | uint16 | int64 | float32 | float64.

(** An array is its element type tag, its shape and its elements in
    row-major (C) order. *)
Record ndarray (A : Type) : Type := mk {
  dt : dtype;
  shape : list nat;
  data : list A
}.
Arguments mk {A} dt shape data.
Arguments dt {A}.
Arguments shape {A}.
Arguments data {A}.

(** Number of elements of a shape. *)
Fixpoint prod (s : list nat) : nat :=
  match s with
  | [] => 1
  | d :: ds => d * prod ds
  end.

Definition size {A} (a : ndarray A) : nat := prod (shape a).

Definition ndim {A} (a : ndarray A) : nat := length (shape a).

(** Flat offset of a multi-index, and the multi-index of a flat offset. *)
Fixpoint ravel (s idx : list nat) : nat :=
  match s, idx with
  | _ :: ds, i :: js => i * prod ds + ravel ds js
  | _, _ => 0
  end.

Fixpoint unravel (s : list nat) (p : nat) : list nat :=
  match s with
  | [] => []
  | _ :: ds => (p / prod ds) :: unravel ds (p mod prod ds)
  end.

Definition in_bounds (s idx : list nat) : Prop :=
  Forall2 (fun i d => i < d) idx s.

(** [a[idx]] for a full multi-index. *)
Definition getitem {A} (a : ndarray A) (idx : list nat) : option A :=
  data a !! ravel (shape a) idx.

(** The array of shape [s] whose element at [idx] is [f idx]. *)
Definition tabulate {A} (t : dtype) (s : list nat) (f : list nat -> A)
  : ndarray A :=
  mk t s ((fun p => f (unravel s p)) <$> seq 0 (prod s)).

Definition well_formed {A} (a : ndarray A) : Prop :=
  length (data a) = prod (shape a).

(** [a.copy()] as a value: same tag, shape and elements. *)
Definition copy {A} (a : ndarray A) : ndarray A :=
  mk (dt a) (shape a) (data a).

(** [a.T]: all axes reversed. *)
Definition T {A} `{Inhabited A} (a : ndarray A) : ndarray A :=
  tabulate (dt a) (rev (shape a))
    (fun idx => nth (ravel (shape a) (rev idx)) (data a) inhabitant).

(** [np.mgrid[0:nx, 0:ny]]: the dense mesh of shape [(2, nx, ny)] with
    [g[0, i, j] = i] and [g[1, i, j] = j]. *)
Definition mgrid (nx ny : nat) : ndarray Z :=
  tabulate int64 [2; nx; ny]
    (fun idx =>
       match idx with
       | [c; i; j] => Z.of_nat (if Nat.eqb c 0 then i else j)
       | _ => 0%Z
       end).

(** [a.reshape(newshape)], where one entry of [newshape] may be [-1]. *)
Definition known_dims (newshape : list Z) : list nat :=
  omap (fun d => if Z.ltb d 0 then None else Some (Z.to_nat d)) newshape.

Definition count_unknown (newshape : list Z) : nat :=
  length (filter (fun d => d = (-1)%Z) newshape).

Definition count_invalid (newshape : list Z) : nat :=
  length (filter (fun d => (d < -1)%Z) newshape).

Definition resolve (unknown : nat) (newshape : list Z) : list nat :=
  map (fun d => if Z.eqb d (-1) then unknown else Z.to_nat d) newshape.

Definition reshape {A} (a : ndarray A) (newshape : list Z)
  : result (ndarray A) :=
  let known := prod (known_dims newshape) in
  if negb (Nat.eqb (count_invalid newshape) 0) then
    Raise (ValueError "negative dimensions not allowed")
  else
    match count_unknown newshape with
    | 0 =>
        if Nat.eqb known (size a)
        then Ret (mk (dt a) (resolve 0 newshape) (data a))
        else Raise (ValueError "cannot reshape array")
    | 1 =>
        if Nat.eqb known 0 then Raise (ValueError "cannot reshape array")
        else if Nat.eqb (size a mod known) 0
        then Ret (mk (dt a) (resolve (size a / known) newshape) (data a))
        else Raise (ValueError "cannot reshape array")
    | _ => Raise (ValueError "can only specify one unknown dimension")
    end.

(** [np.expand_dims(a, 0)] and [np.squeeze(a)]. *)
Definition expand_dims0 {A} (a : ndarray A) : ndarray A :=
  mk (dt a) (1 :: shape a) (data a).

Definition squeeze {A} (a : ndarray A) : ndarray A :=
  mk (dt a) (filter (fun d => d <> 1) (shape a)) (data a).

Section Float.
Context `{Floating}.

(** [np.zeros(s, t)] for a float type [t]. *)
Definition zeros (s : list nat) (t : dtype) : ndarray float :=
  mk t s (replicate (prod s) (float_lit 0 0)).

(** [np.eye(n)]. *)
Definition eye (n : nat) : ndarray float :=
  tabulate float64 [n; n]
    (fun idx =>
       match idx with
       | [i; j] => if Nat.eqb i j then float_lit 1 0 else float_lit 0 0
       | _ => float_lit 0 0
       end).

(** [a[0, :, :2] = g] for [a] of shape [(d0, n, m)] and an integer
    array [g] of shape [(n, min 2 m)]; the elements of [g] are converted
    to the element type of [a].  numpy raises on an index out of range
    and when [g] cannot be broadcast to the target; broadcasting from a
    smaller shape is not used by the module and is rejected here. *)
Definition setitem_0_all_upto2 (a : ndarray float) (g : ndarray Z)
  : result (ndarray float) :=
  match shape a with
  | [d0; n; m] =>
      if Nat.eqb d0 0 then Raise (ValueError "index 0 is out of bounds")
      else if negb (bool_decide (shape g = [n; Nat.min 2 m])) then
        Raise (ValueError "could not broadcast input array")
      else
        Ret (tabulate (dt a) (shape a)
               (fun idx =>
                  match idx with
                  | [b; k; c] =>
                      if Nat.eqb b 0 && Nat.ltb c 2
                      then float_lit (nth (ravel (shape g) [k; c]) (data g) 0%Z) 0
                      else nth (ravel (shape a) idx) (data a) (float_lit 0 0)
                  | _ => float_lit 0 0
                  end))
  | _ => Raise (ValueError "too many indices for array")
  end.
End Float.

End np.

(** ** OpenCV: constants, argument types, entry points *)

Module cv2.

(** Values of the named constants in OpenCV 3. *)
Definition TERM_CRITERIA_MAX_ITER : Z := 1.
Definition TERM_CRITERIA_EPS : Z := 2.
Definition WINDOW_NORMAL : Z := 0.
Definition COLOR_BGR2GRAY : Z := 6.
Definition CALIB_CB_ADAPTIVE_THRESH : Z := 1.
Definition CALIB_CB_NORMALIZE_IMAGE : Z := 2.
Definition CALIB_CB_FAST_CHECK : Z := 8.
Definition CV_16SC2 : Z := 11.
Definition INTER_LINEAR : Z := 1.
Definition BORDER_CONSTANT : Z := 0.

Module fisheye.
Definition CALIB_RECOMPUTE_EXTRINSIC : Z := 2.
Definition CALIB_CHECK_COND : Z := 4.
Definition CALIB_FIX_SKEW : Z := 8.
End fisheye.

(** [cv::Size]: a width (columns, x) and a height (rows, y). *)
Record Size : Type := mkSize { width : Z; height : Z }.

(** A Python tuple given where OpenCV takes a [Size] is read as
    [(width, height)]; anything but a pair is refused. *)
Definition Size_of_tuple (t : list Z) : result Size :=
  match t with
  | [w; h] => Ret (mkSize w h)
  | _ => Raise (TypeError "size must be a pair")
  end.

(** The size of an image from its numpy shape [(rows, cols, ...)]. *)
Definition image_size {A} (img : np.ndarray A) : Size :=
  mkSize (Z.of_nat (nth 1 (np.shape img) 0)) (Z.of_nat (nth 0 (np.shape img) 0)).

(** [cornerSubPix] takes HALF the side of its search window: with
    [winSize = (w, h)] it searches a window of [2w+1] by [2h+1] pixels
    (OpenCV reference, imgproc, [cornerSubPix], parameter [winSize]). *)
Definition search_window (winSize : Size) : Z * Z :=
  (2 * width winSize + 1, 2 * height winSize + 1)%Z.

(** Bit test on a flag word. *)
Definition has_flag (flags bit : Z) : bool :=
  negb (Z.eqb (Z.land flags bit) 0).

End cv2.

(** A Python tuple of naturals (a numpy shape) as a tuple of integers. *)
Definition tuple_of_shape (s : list nat) : list Z := map Z.of_nat s.

Section Interfaces.
Context `{Floating}.

(** Pixel arrays hold integers; everything else holds floats. *)
Definition image : Type := np.ndarray Z.
Definition farray : Type := np.ndarray float.

(** [cv::TermCriteria] as the Python triple [(type, maxCount, epsilon)]. *)
Record TermCriteria : Type := mkTermCriteria {
  tc_type : Z;
  tc_maxCount : Z;
  tc_epsilon : float
}.

(** What one run of [cv2.fisheye.calibrate] leaves behind: its return
    value (the RMS error) or the exception it raised, and the contents of
    the four in/out buffers it was handed. *)
Record calib_outcome : Type := mkOutcome {
  co_ret : result float;
  co_K : farray;
  co_D : farray;
  co_rvecs : list farray;
  co_tvecs : list farray
}.

(** The entry points of OpenCV that the module calls, and the version it
    reports.  [imread] returns [None] for a file it cannot decode; every
    other function may raise. *)
Class OpenCV : Type := {
  __version__ : string;
  imread : string -> option image;
  cvtColor : option image -> Z -> result image;
  findChessboardCorners :
    image -> cv2.Size -> Z -> result (bool * option farray);
  cornerSubPix :
    image -> option farray -> cv2.Size -> cv2.Size -> TermCriteria ->
    result farray;
  drawChessboardCorners :
    option image -> cv2.Size -> farray -> bool -> result image;
  fisheye_calibrate :
    list farray -> list farray -> cv2.Size -> farray -> farray ->
    list farray -> list farray -> Z -> TermCriteria -> calib_outcome;
  fisheye_initUndistortRectifyMap :
    farray -> farray -> farray -> farray -> cv2.Size -> Z ->
    result (np.ndarray Z * np.ndarray Z);
  remap :
    image -> np.ndarray Z -> np.ndarray Z -> Z -> Z -> result image;
  fisheye_projectPoints :
    farray -> farray -> farray -> farray -> farray -> float ->
    result (farray * farray)
}.

(** What [pickle] stores for a [FishEye] object: its attributes, with the
    arrays by content. *)
Record pickled : Type := mkPickled {
  p_nx : nat;
  p_ny : nat;
  p_verbose : bool;
  p_K : farray;
  p_D : farray
}.

(** [pickle] and the file system: the stored form of an object is an
    opaque [blob]. *)
Class Pickle : Type := {
  blob : Type;
  pickle_dump : pickled -> result blob;
  pickle_load : blob -> result pickled;
  writable : string -> bool
}.

(** Calls that leave the process, in the order they are made.  Printing
    and the display calls ([namedWindow], [imshow], [waitKey],
    [destroyAllWindows]) are recorded and taken not to raise; their results
    are not used by the module. *)
Inductive event : Type :=
| Ev_print (text : string)
| Ev_namedWindow (name : string) (flags : Z)
| Ev_imshow (name : string) (img : option image)
| Ev_waitKey (delay : Z)
| Ev_destroyAllWindows
| Ev_imread (fname : string)
| Ev_cvtColor (img : option image) (code : Z)
| Ev_findChessboardCorners (gray : image) (patternSize : cv2.Size) (flags : Z)
| Ev_cornerSubPix (gray : image) (corners : option farray)
    (winSize zeroZone : cv2.Size) (criteria : TermCriteria)
| Ev_drawChessboardCorners (img : option image) (patternSize : cv2.Size)
    (corners : farray) (found : bool)
| Ev_fisheye_calibrate (objectPoints imagePoints : list farray)
    (image_size : cv2.Size) (K D : farray) (rvecs tvecs : list farray)
    (flags : Z) (criteria : TermCriteria)
| Ev_initUndistortRectifyMap (K D R P : farray) (size : cv2.Size) (m1type : Z)
| Ev_remap (src : image) (map1 map2 : np.ndarray Z) (interpolation borderMode : Z)
| Ev_projectPoints (objectPoints rvec tvec K D : farray) (alpha : float)
| Ev_open (filename : string) (mode : string).

End Interfaces.

(** ** The store and the monad of the module's methods *)

Definition loc : Type := positive.

Section Model.
Context `{Floating} `{!OpenCV} `{!Pickle}.

(** The state of the process: the arrays that are shared by reference,
    the files, and the calls made so far.  A file that was opened for
    writing and not written holds [None]. *)
Record world : Type := mkWorld {
  heap : gmap loc farray;
  files : gmap string (option blob);
  trace : list event
}.

Definition set_heap (h : gmap loc farray) (w : world) : world :=
  mkWorld h (files w) (trace w).
Definition set_files (f : gmap string (option blob)) (w : world) : world :=
  mkWorld (heap w) f (trace w).
Definition add_event (e : event) (w : world) : world :=
  mkWorld (heap w) (files w) (trace w ++ [e]).

Definition M (A : Type) : Type := world -> result A * world.

Definition mret {A} (a : A) : M A := fun w => (Ret a, w).
Definition mraise {A} (e : exn) : M A := fun w => (Raise e, w).
Definition mbind {A B} (c : M A) (k : A -> M B) : M B :=
  fun w => match c w with
           | (Ret a, w') => k a w'
           | (Raise e, w') => (Raise e, w')
           end.
Definition lift {A} (r : result A) : M A := fun w => (r, w).
Definition log (e : event) : M unit := fun w => (Ret tt, add_event e w).
Definition when (b : bool) (c : M unit) : M unit :=
  if b then c else mret tt.

(** [quiet P c]: running [c] leaves the store and the files alone, and
    every call it makes satisfies [P]. *)
Definition quiet {A} (P : event -> Prop) (c : M A) : Prop :=
  forall w r w', c w = (r, w') ->
    heap w' = heap w /\ files w' = files w
    /\ exists evs, trace w' = trace w ++ evs /\ Forall P evs.

End Model.

Notation "'let*' p ':=' c 'in' k" := (mbind c (fun p => k))
  (at level 10, p pattern, c at level 100, k at level 200).
Notation "c ';;;' k" := (mbind c (fun _ => k))
  (at level 100, k at level 200, right associativity).

(** ** The module [fisheye/core.py] *)

(** [os.path.split(p)[1]]: what follows the last slash. *)
Fixpoint path_tail_from (acc p : string) : string :=
  match p with
  | EmptyString => acc
  | String c rest =>
      if Ascii.eqb c "/"%char then path_tail_from EmptyString rest
      else path_tail_from (acc +:+ String c EmptyString) rest
  end.

Definition path_tail (p : string) : string := path_tail_from EmptyString p.

Section Core.
Context `{Floating} `{!OpenCV} `{!Pickle}.

(** Line 5: the module refuses to load on anything but OpenCV 3. *)
Definition import_module : result unit :=
  match __version__ with
  | EmptyString => Raise (IndexError "string index out of range")
  | String c _ =>
      if Ascii.eqb c "3"%char then Ret tt
      else Raise (AssertionError
                    "The fisheye module requires opencv version >= 3.0.0")
  end.

(** *** References *)

Definition alloc (a : farray) : M loc :=
  fun w =>
    let l := fresh (dom (heap w)) in
    (Ret l, set_heap (<[l := a]> (heap w)) w).

Definition deref (l : loc) : M farray :=
  fun w =>
    match heap w !! l with
    | Some a => (Ret a, w)
    | None => (Raise (SystemError "dangling reference"), w)
    end.

Definition store (l : loc) (a : farray) : M unit :=
  fun w => (Ret tt, set_heap (<[l := a]> (heap w)) w).

Fixpoint alloc_list (n : nat) (a : farray) : M (list loc) :=
  match n with
  | O => mret []
  | S n' =>
      let* l := alloc a in
      let* ls := alloc_list n' a in
      mret (l :: ls)
  end.

Fixpoint deref_list (ls : list loc) : M (list farray) :=
  match ls with
  | [] => mret []
  | l :: ls' =>
      let* a := deref l in
      let* rest := deref_list ls' in
      mret (a :: rest)
  end.

(** Writes the arrays [vs] into the buffers [ls], pairwise; a buffer with
    no array to receive keeps its contents. *)
Fixpoint store_list (ls : list loc) (vs : list farray) : M unit :=
  match ls, vs with
  | l :: ls', v :: vs' => store l v ;;; store_list ls' vs'
  | _, _ => mret tt
  end.

Fixpoint for_each {A B} (body : A -> B -> M A) (xs : list B) (a : A) : M A :=
  match xs with
  | [] => mret a
  | x :: xs' => let* a' := body a x in for_each body xs' a'
  end.

(** *** class FishEye *)

(** The attributes of a [FishEye] object.  [_K] and [_D] are references:
    the arrays behind them are shared with whoever holds the reference. *)
Record FishEye : Type := mkFishEye {
  _nx : nat;
  _ny : nat;
  _verbose : bool;
  _K : loc;
  _D : loc
}.

Definition __init__ (nx ny : nat) (verbose : bool) : M FishEye :=
  let* K := alloc (np.zeros [3; 3] np.float64) in
  let* D := alloc (np.zeros [4; 1] np.float64) in
  mret (mkFishEye nx ny verbose K D).

(** Lines 43-44: the synthetic chessboard. *)
Definition chessboard_model (nx ny : nat) : result farray :=
  let chessboard_model := np.zeros [1; nx * ny; 3] np.float32 in
  result_bind (np.reshape (np.T (np.mgrid nx ny)) [-1; 2]%Z)
    (fun grid => np.setitem_0_all_upto2 chessboard_model grid).

(** The array that [chessboard_model] evaluates to, written out. *)
Definition chessboard_array (nx ny : nat) : farray :=
  np.tabulate np.float32 [1; nx * ny; 3]
    (fun idx =>
       match idx with
       | [b; k; c] =>
           if Nat.eqb b 0 && Nat.ltb c 2
           then float_lit
                  (nth (np.ravel [nx * ny; 2] [k; c]) (np.data (np.T (np.mgrid nx ny))) 0%Z) 0
           else nth (np.ravel [1; nx * ny; 3] idx)
                  (np.data (np.zeros [1; nx * ny; 3] np.float32)) (float_lit 0 0)
       | _ => float_lit 0 0
       end).

(** Line 51. *)
Definition subpix_criteria : TermCriteria :=
  mkTermCriteria (cv2.TERM_CRITERIA_EPS + cv2.TERM_CRITERIA_MAX_ITER)%Z
    30%Z (float_lit 1 (-1)).

Definition subpix_winSize : cv2.Size := cv2.mkSize 11 11.
Definition subpix_zeroZone : cv2.Size := cv2.mkSize (-1) (-1).

Definition chessboard_flags : Z :=
  (cv2.CALIB_CB_ADAPTIVE_THRESH + cv2.CALIB_CB_FAST_CHECK
   + cv2.CALIB_CB_NORMALIZE_IMAGE)%Z.

Definition calibrate_flags : Z :=
  (cv2.fisheye.CALIB_RECOMPUTE_EXTRINSIC + cv2.fisheye.CALIB_CHECK_COND
   + cv2.fisheye.CALIB_FIX_SKEW)%Z.

(** The local variables that the loop over [img_paths] assigns and that
    are read after it.  [gray = None] means that the name is unbound. *)
Record locals : Type := mkLocals {
  chess_2Dpts_list : list farray;
  gray : option image
}.

(** Lines 57-118: one pass of the loop. *)
Definition calibrate_body (self : FishEye) (show_imgs : bool)
    (vars : locals) (fname : string) : M locals :=
  when (_verbose self)
    (log (Ev_print ("Processing img: " +:+ path_tail fname +:+ "..."))) ;;;
  log (Ev_imread fname) ;;;
  let img := imread fname in
  log (Ev_cvtColor img cv2.COLOR_BGR2GRAY) ;;;
  let* gray := lift (cvtColor img cv2.COLOR_BGR2GRAY) in
  let patternSize := cv2.mkSize (Z.of_nat (_nx self)) (Z.of_nat (_ny self)) in
  log (Ev_findChessboardCorners gray patternSize chessboard_flags) ;;;
  let* (ret, cb_2D_pts) :=
    lift (findChessboardCorners gray patternSize chessboard_flags) in
  if ret : bool then
    when (_verbose self) (log (Ev_print ("OK" +:+ String "010" EmptyString))) ;;;
    log (Ev_cornerSubPix gray cb_2D_pts subpix_winSize subpix_zeroZone
           subpix_criteria) ;;;
    let* cb_2d_pts_subpix :=
      lift (cornerSubPix gray cb_2D_pts subpix_winSize subpix_zeroZone
              subpix_criteria) in
    let* reshaped := lift (np.reshape cb_2d_pts_subpix [1; -1; 2]%Z) in
    let chess_2Dpts_list := chess_2Dpts_list vars ++ [reshaped] in
    (if show_imgs then
       log (Ev_drawChessboardCorners img patternSize cb_2d_pts_subpix ret) ;;;
       let* img :=
         lift (drawChessboardCorners img patternSize cb_2d_pts_subpix ret) in
       log (Ev_imshow "success img" (Some img)) ;;;
       log (Ev_waitKey 500)
     else mret tt) ;;;
    mret (mkLocals chess_2Dpts_list (Some gray))
  else
    when (_verbose self) (log (Ev_print ("FAIL!" +:+ String "010" EmptyString))) ;;;
    when show_imgs
      (log (Ev_imshow "fail img" img) ;;; log (Ev_waitKey 500)) ;;;
    mret (mkLocals (chess_2Dpts_list vars) (Some gray)).

Definition calibrate_loop (self : FishEye) (show_imgs : bool)
    (img_paths : list string) (vars : locals) : M locals :=
  for_each (calibrate_body self show_imgs) img_paths vars.

(** Lines 140-151: the call of the optimizer.  [K], [D] and the pose
    buffers are in/out arguments: the optimizer reads them and may
    overwrite them, whether it returns or raises. *)
Definition call_fisheye_calibrate (objectPoints imagePoints : list farray)
    (image_size : cv2.Size) (K D : loc) (rvecs tvecs : list loc)
    (flags : Z) (criteria : TermCriteria) : M float :=
  let* Kv := deref K in
  let* Dv := deref D in
  let* rv := deref_list rvecs in
  let* tv := deref_list tvecs in
  log (Ev_fisheye_calibrate objectPoints imagePoints image_size Kv Dv rv tv
         flags criteria) ;;;
  let out :=
    fisheye_calibrate objectPoints imagePoints image_size Kv Dv rv tv
      flags criteria in
  store K (co_K out) ;;;
  store D (co_D out) ;;;
  store_list rvecs (co_rvecs out) ;;;
  store_list tvecs (co_tvecs out) ;;;
  lift (co_ret out).

(** Lines 133-138: the buffers handed to the optimizer as [K] and [D]. *)
Definition select_buffers (self : FishEye) (update_model : bool)
  : M (loc * loc) :=
  if update_model then mret (_K self, _D self)
  else
    let* Kv := deref (_K self) in
    let* K := alloc (np.copy Kv) in
    let* Dv := deref (_D self) in
    let* D := alloc (np.copy Dv) in
    mret (K, D).

(** Lines 140-153: the arguments are evaluated from left to right, the
    optimizer is called, and the buffers are returned with its RMS. *)
Definition calibrate_invoke (model : farray) (max_iter : Z) (eps : float)
    (vars : locals) (K D : loc) (rvecs tvecs : list loc)
  : M (float * loc * loc * list loc * list loc) :=
  let N_OK := length (chess_2Dpts_list vars) in
  let objectPoints := replicate N_OK model in
  let* shape :=
    match gray vars with
    | Some gray => mret (rev (np.shape gray))
    | None => mraise (UnboundLocalError "gray")
    end in
  let* image_size := lift (cv2.Size_of_tuple (tuple_of_shape shape)) in
  let* rms :=
    call_fisheye_calibrate objectPoints (chess_2Dpts_list vars) image_size
      K D rvecs tvecs calibrate_flags
      (mkTermCriteria
         (cv2.TERM_CRITERIA_EPS + cv2.TERM_CRITERIA_MAX_ITER)%Z max_iter eps)
  in
  mret (rms, K, D, rvecs, tvecs).

(** Lines 126-153: what follows the loop. *)
Definition calibrate_finish (self : FishEye) (model : farray)
    (update_model : bool) (max_iter : Z) (eps : float) (vars : locals)
  : M (float * loc * loc * list loc * list loc) :=
  let N_OK := length (chess_2Dpts_list vars) in
  let* rvecs := alloc_list N_OK (np.zeros [1; 1; 3] np.float64) in
  let* tvecs := alloc_list N_OK (np.zeros [1; 1; 3] np.float64) in
  let* (K, D) := select_buffers self update_model in
  calibrate_invoke model max_iter eps vars K D rvecs tvecs.

(** [FishEye.calibrate(self, img_paths, update_model, max_iter, eps,
    show_imgs)]. *)
Definition calibrate (self : FishEye) (img_paths : list string)
    (update_model : bool) (max_iter : Z) (eps : float) (show_imgs : bool)
  : M (float * loc * loc * list loc * list loc) :=
  let* model := lift (chessboard_model (_nx self) (_ny self)) in
  when show_imgs
    (log (Ev_namedWindow "success img" cv2.WINDOW_NORMAL) ;;;
     log (Ev_namedWindow "fail img" cv2.WINDOW_NORMAL)) ;;;
  let* vars :=
    calibrate_loop self show_imgs img_paths (mkLocals [] None) in
  when show_imgs (log Ev_destroyAllWindows) ;;;
  calibrate_finish self model update_model max_iter eps vars.

(** The defaults of the optional parameters of [calibrate]. *)
Definition calibrate_defaults (self : FishEye) (img_paths : list string)
  : M (float * loc * loc * list loc * list loc) :=
  calibrate self img_paths true 30%Z (float_lit 1 (-6)) false.

(** [FishEye.undistort(self, distorted_img, undistorted_size, R, K)].
    An omitted optional argument is [None] here; the default of [R] is the
    array [np.eye(3)] made when the method is defined, which nothing in
    the module writes to. *)
Definition undistort (self : FishEye) (distorted_img : image)
    (undistorted_size : option (list Z)) (R : option farray)
    (K : option farray) : M image :=
  let R := default (np.eye 3) R in
  let* K :=
    match K with
    | None => deref (_K self)
    | Some K => mret K
    end in
  let undistorted_size :=
    match undistorted_size with
    | None => tuple_of_shape (firstn 2 (np.shape distorted_img))
    | Some s => s
    end in
  let* self_K := deref (_K self) in
  let* self_D := deref (_D self) in
  let* size := lift (cv2.Size_of_tuple undistorted_size) in
  log (Ev_initUndistortRectifyMap self_K self_D R K size cv2.CV_16SC2) ;;;
  let* (map1, map2) :=
    lift (fisheye_initUndistortRectifyMap self_K self_D R K size
            cv2.CV_16SC2) in
  log (Ev_remap distorted_img map1 map2 cv2.INTER_LINEAR
         cv2.BORDER_CONSTANT) ;;;
  let* undistorted_img :=
    lift (remap distorted_img map1 map2 cv2.INTER_LINEAR
            cv2.BORDER_CONSTANT) in
  mret undistorted_img.

(** [FishEye.projectPoints(self, object_points, skew)]. *)
Definition projectPoints (self : FishEye) (object_points : farray)
    (skew : float) : M farray :=
  let object_points :=
    if Nat.eqb (np.ndim object_points) 2
    then np.expand_dims0 object_points
    else object_points in
  let* rvec := lift (np.reshape (np.zeros [3] np.float64) [1; 1; 3]%Z) in
  let* tvec := lift (np.reshape (np.zeros [3] np.float64) [1; 1; 3]%Z) in
  let* self_K := deref (_K self) in
  let* self_D := deref (_D self) in
  log (Ev_projectPoints object_points rvec tvec self_K self_D skew) ;;;
  let* (image_points, jacobian) :=
    lift (fisheye_projectPoints object_points rvec tvec self_K self_D skew) in
  mret (np.squeeze image_points).

(** *** Persistence *)

Definition write_file (filename : string) (contents : option blob) : M unit :=
  fun w => (Ret tt, set_files (<[filename := contents]> (files w)) w).

Definition read_file (filename : string) : M blob :=
  fun w =>
    match files w !! filename with
    | Some (Some b) => (Ret b, w)
    | Some None => (Raise (EOFError "Ran out of input"), w)
    | None => (Raise (IOError "no such file"), w)
    end.

(** What [pickle] sees of an object: its attributes and the contents of
    its arrays. *)
Definition snapshot (self : FishEye) : M pickled :=
  let* K := deref (_K self) in
  let* D := deref (_D self) in
  mret (mkPickled (_nx self) (_ny self) (_verbose self) K D).

(** [FishEye.save(self, filename)]: opening the file for writing empties
    it, then the pickled object is written. *)
Definition save (self : FishEye) (filename : string) : M unit :=
  log (Ev_open filename "wb") ;;;
  if writable filename then
    write_file filename None ;;;
    let* obj := snapshot self in
    let* b := lift (pickle_dump obj) in
    write_file filename (Some b)
  else mraise (IOError "cannot open file for writing").

(** [FishEye.load(filename)]: the unpickled object is a new object with
    arrays of its own. *)
Definition load (filename : string) : M FishEye :=
  log (Ev_open filename "rb") ;;;
  let* b := read_file filename in
  let* obj := lift (pickle_load b) in
  let* K := alloc (p_K obj) in
  let* D := alloc (p_D obj) in
  mret (mkFishEye (p_nx obj) (p_ny obj) (p_verbose obj) K D).

Definition load_model (filename : string) : M FishEye := load filename.

(** *** Predicates used in the statements *)

(** A [FishEye] object as the module builds it: two live, distinct
    arrays. *)
Definition model_ok (w : world) (self : FishEye) : Prop :=
  is_Some (heap w !! _K self) /\ is_Some (heap w !! _D self)
  /\ _K self <> _D self.

(** The outcome of detection on one file: [Some true] when the chessboard
    is found, [Some false] when it is not, [None] when the image cannot
    be brought to the detector or the detector raises. *)
Definition detection (self : FishEye) (fname : string) : option bool :=
  match cvtColor (imread fname) cv2.COLOR_BGR2GRAY with
  | Ret gray =>
      match findChessboardCorners gray
              (cv2.mkSize (Z.of_nat (_nx self)) (Z.of_nat (_ny self)))
              chessboard_flags with
      | Ret (ret, _) => Some ret
      | Raise _ => None
      end
  | Raise _ => None
  end.

(** The grayscale image that the loop binds to [gray] for one file. *)
Definition gray_of (fname : string) : result image :=
  cvtColor (imread fname) cv2.COLOR_BGR2GRAY.

Definition is_optimizer_call (e : event) : bool :=
  match e with
  | Ev_fisheye_calibrate _ _ _ _ _ _ _ _ _ => true
  | _ => false
  end.

Definition is_refiner_call (e : event) : bool :=
  match e with
  | Ev_cornerSubPix _ _ _ _ _ => true
  | _ => false
  end.

(** The calls that [calibrate] may make before it reaches the optimizer,
    with the arguments that the module fixes. *)
Definition setup_event (self : FishEye) (e : event) : Prop :=
  match e with
  | Ev_print _ | Ev_imshow _ _ | Ev_waitKey _ | Ev_imread _
  | Ev_namedWindow _ _ | Ev_destroyAllWindows => True
  | Ev_drawChessboardCorners _ p _ _ =>
      p = cv2.mkSize (Z.of_nat (_nx self)) (Z.of_nat (_ny self))
  | Ev_cvtColor _ code => code = cv2.COLOR_BGR2GRAY
  | Ev_findChessboardCorners _ p flags =>
      p = cv2.mkSize (Z.of_nat (_nx self)) (Z.of_nat (_ny self))
      /\ flags = chessboard_flags
  | Ev_cornerSubPix _ _ winSize zeroZone criteria =>
      winSize = subpix_winSize /\ zeroZone = subpix_zeroZone
      /\ criteria = subpix_criteria
  | _ => False
  end.

(** Number of files of [img_paths] on which the chessboard is found. *)
Definition detected (self : FishEye) (img_paths : list string) : nat :=
  length (filter (fun f => detection self f = Some true) img_paths).

(** The two ways a run of [calibrate] can go.  Either it stops before
    the optimizer: an exception is raised, only set-up calls have been
    made, and no array that existed before has changed.  With no file to
    look at, the exception is the unbound name [gray] of line 144. *)
Definition stopped_early (self : FishEye) (img_paths : list string)
    (w : world) (r : result (float * loc * loc * list loc * list loc))
    (w' : world) : Prop :=
  exists e evs,
    r = Raise e
    /\ (img_paths = [] -> e = UnboundLocalError "gray")
    /\ trace w' = trace w ++ evs /\ Forall (setup_event self) evs
    /\ files w' = files w
    /\ (forall l, is_Some (heap w !! l) -> heap w' !! l = heap w !! l).

(** Or it reaches the optimizer: the loop has run over all of
    [img_paths], the optimizer is called once, last, and the run ends
    with the optimizer's outcome. *)
Definition reached_optimizer (self : FishEye) (img_paths : list string)
    (update_model : bool) (max_iter : Z) (eps : float) (w : world)
    (r : result (float * loc * loc * list loc * list loc)) (w' : world)
  : Prop :=
  exists (vars : locals) (evs : list event) (g : image) (size : cv2.Size)
         (Kv Dv : farray) (K D : loc) (rvecs tvecs : list loc),
    let n := length (chess_2Dpts_list vars) in
    let z := np.zeros [1; 1; 3] np.float64 in
    let model := chessboard_array (_nx self) (_ny self) in
    let crit :=
      mkTermCriteria (cv2.TERM_CRITERIA_EPS + cv2.TERM_CRITERIA_MAX_ITER)%Z
        max_iter eps in
    let out :=
      fisheye_calibrate (replicate n model) (chess_2Dpts_list vars) size
        Kv Dv (replicate n z) (replicate n z) calibrate_flags crit in
    n = detected self img_paths
    /\ img_paths <> []
    /\ (forall pre fname, img_paths = pre ++ [fname] -> gray_of fname = Ret g)
    /\ cv2.Size_of_tuple (tuple_of_shape (rev (np.shape g))) = Ret size
    /\ heap w !! _K self = Some Kv /\ heap w !! _D self = Some Dv
    /\ Forall (setup_event self) evs
    /\ trace w' = trace w ++ evs
                  ++ [Ev_fisheye_calibrate (replicate n model)
                        (chess_2Dpts_list vars) size Kv Dv (replicate n z)
                        (replicate n z) calibrate_flags crit]
    /\ files w' = files w
    /\ r = result_map (fun rms => (rms, K, D, rvecs, tvecs)) (co_ret out)
    /\ length rvecs = n /\ length tvecs = n
    /\ NoDup (K :: D :: rvecs ++ tvecs)
    /\ (forall l, l ∈ rvecs ++ tvecs -> heap w !! l = None)
    /\ (if update_model then K = _K self /\ D = _D self
        else heap w !! K = None /\ heap w !! D = None)
    /\ heap w' !! K = Some (co_K out) /\ heap w' !! D = Some (co_D out)
    /\ (forall i l v, rvecs !! i = Some l -> co_rvecs out !! i = Some v ->
          heap w' !! l = Some v)
    /\ (forall i l v, tvecs !! i = Some l -> co_tvecs out !! i = Some v ->
          heap w' !! l = Some v)
    /\ (forall l, l ∉ K :: D :: rvecs ++ tvecs ->
          heap w' !! l = heap w !! l).


(** The [k]-th corner of an array of 2-D points, of shape [(n, 1, 2)] as
    the detector and the refiner give it or of shape [(1, n, 2)] as the
    optimizer takes it: the [k]-th pair of its elements in row-major
    order.  The number of corners is half the number of elements. *)
Definition corner (a : farray) (k : nat) : option (float * float) :=
  match np.data a !! (2 * k), np.data a !! (2 * k + 1) with
  | Some x, Some y => Some (x, y)
  | _, _ => None
  end.

Definition corner_count (a : farray) : nat := np.size a / 2.

(** What OpenCV documents of [cornerSubPix]: [corners] holds the initial
    coordinates of the corners and receives the refined ones; each corner
    is iterated on its own, from its initial position.  So the output has
    the shape of the input, and its [k]-th corner is the refinement
    [refine_point] of the [k]-th input corner.  Called without an array of
    corners, [cornerSubPix] raises. *)
Definition refiner_keeps_corners
    (refine_point :
       image -> cv2.Size -> cv2.Size -> TermCriteria ->
       float * float -> float * float) : Prop :=
  (forall g winSize zeroZone criteria,
      is_Ret (cornerSubPix g None winSize zeroZone criteria) = false)
  /\ forall g c winSize zeroZone criteria refined,
      cornerSubPix g (Some c) winSize zeroZone criteria = Ret refined ->
      np.shape refined = np.shape c
      /\ forall k p, corner c k = Some p ->
           corner refined k
           = Some (refine_point g winSize zeroZone criteria p).

End Core.

(** ** What the further properties speak of *)

Section Coverage.
Context `{Floating} `{!OpenCV} `{!Pickle}.

(** The object [self] with its verbosity flag set to [b]. *)
Definition set_verbose (b : bool) (self : FishEye) : FishEye :=
  mkFishEye (_nx self) (_ny self) b (_K self) (_D self).

Definition is_print (e : event) : bool :=
  match e with
  | Ev_print _ => true
  | _ => false
  end.

(** A trace without its progress messages. *)
Definition silent (t : list event) : list event :=
  filter (fun e => is_print e = false) t.

(** Two states that differ at most in the progress messages printed. *)
Definition agree (w1 w2 : world) : Prop :=
  heap w1 = heap w2 /\ files w1 = files w2
  /\ silent (trace w1) = silent (trace w2).

(** [sim c1 c2]: started in states that agree, [c1] and [c2] end with the
    same result, in states that agree. *)
Definition sim {A} (c1 c2 : M A) : Prop :=
  forall w1 w2, agree w1 w2 ->
    fst (c1 w1) = fst (c2 w2) /\ agree (snd (c1 w1)) (snd (c2 w2)).

(** The corner set that the loop appends for one file: the refined corners
    reshaped to [(1, -1, 2)], when the chessboard is found and every call
    returns. *)
Definition corner_set (self : FishEye) (fname : string) : option farray :=
  match gray_of fname with
  | Ret g =>
      match findChessboardCorners g
              (cv2.mkSize (Z.of_nat (_nx self)) (Z.of_nat (_ny self)))
              chessboard_flags with
      | Ret (true, coarse) =>
          match cornerSubPix g coarse subpix_winSize subpix_zeroZone
                  subpix_criteria with
          | Ret refined =>
              match np.reshape refined [1; -1; 2]%Z with
              | Ret r => Some r
              | Raise _ => None
              end
          | Raise _ => None
          end
      | _ => None
      end
  | Raise _ => None
  end.

(** The files that a trace shows to have been read, in order. *)
Definition imread_calls (t : list event) : list string :=
  omap (fun e => match e with Ev_imread f => Some f | _ => None end) t.

(** The pose that [projectPoints] uses: [np.zeros(3).reshape(1, 1, 3)]. *)
Definition zero_pose : farray := np.zeros [1; 1; 3] np.float64.

(** A call of a method on an object, and the state it leaves. *)
Inductive op : Type :=
| Op_calibrate (img_paths : list string) (update_model : bool)
    (max_iter : Z) (eps : float) (show_imgs : bool)
| Op_undistort (distorted_img : image) (undistorted_size : option (list Z))
    (R K : option farray)
| Op_projectPoints (object_points : farray) (skew : float)
| Op_save (filename : string).

Definition run_op (self : FishEye) (o : op) (w : world) : world :=
  match o with
  | Op_calibrate img_paths update_model max_iter eps show_imgs =>
      snd (calibrate self img_paths update_model max_iter eps show_imgs w)
  | Op_undistort img size R K => snd (undistort self img size R K w)
  | Op_projectPoints pts skew => snd (projectPoints self pts skew w)
  | Op_save filename => snd (save self filename w)
  end.

Fixpoint run_ops (self : FishEye) (os : list op) (w : world) : world :=
  match os with
  | [] => w
  | o :: os' => run_ops self os' (run_op self o w)
  end.

(** The calls that [show_imgs] turns on: the windows, and the drawing of
    the corners into the image that is shown. *)
Definition is_display (e : event) : bool :=
  match e with
  | Ev_namedWindow _ _ | Ev_imshow _ _ | Ev_waitKey _ | Ev_destroyAllWindows
  | Ev_drawChessboardCorners _ _ _ _ => true
  | _ => false
  end.

(** A trace without its display calls. *)
Definition undisplayed (t : list event) : list event :=
  filter (fun e => is_display e = false) t.

(** Two states that differ at most in the display calls made. *)
Definition agree_shown (w1 w2 : world) : Prop :=
  heap w1 = heap w2 /\ files w1 = files w2
  /\ undisplayed (trace w1) = undisplayed (trace w2).

(** [follows c1 c2]: started in states that agree, whenever [c1] returns,
    [c2] returns the same value, in a state that agrees. *)
Definition follows {A} (c1 c2 : M A) : Prop :=
  forall w1 w2, agree_shown w1 w2 ->
    forall a w1', c1 w1 = (Ret a, w1') ->
      exists w2', c2 w2 = (Ret a, w2') /\ agree_shown w1' w2'.

End Coverage.

(** ** A small concrete environment

    One implementation of the interfaces, on which the definitions above
    can be run: floats are the decimal numerals themselves, images are a
    few pixels wide, and the optimizer refuses an empty data set the way
    OpenCV's does. *)

Module Fixture.

Definition decimal : Floating :=
  {| float := Z * Z; float_lit := fun m e => (m, e) |}.

Definition img (rows cols : nat) (v : Z) : np.ndarray Z :=
  np.mk np.uint8 [rows; cols; 3] (replicate (rows * cols * 3) v).

Definition toy_imread (fname : string) : option (np.ndarray Z) :=
  if String.eqb fname "board.png" then Some (img 2 3 255)
  else if String.eqb fname "tall.png" then Some (img 4 2 255)
  else if String.eqb fname "black.png" then Some (img 2 3 0)
  else None.

Definition toy_cvtColor (i : option (np.ndarray Z)) (code : Z)
  : result (np.ndarray Z) :=
  match i with
  | Some a =>
      let s := firstn 2 (np.shape a) in
      Ret (np.mk np.uint8 s (replicate (np.prod s) (nth 0 (np.data a) 0%Z)))
  | None => Raise (cv2_error "(-215) scn == 3 || scn == 4")
  end.

Definition toy_corners (n : nat) : np.ndarray (Z * Z) :=
  np.mk np.float32 [n; 1; 2] (replicate (n * 2) (0%Z, 0%Z)).

Definition toy_findChessboardCorners (g : np.ndarray Z) (pattern : cv2.Size)
    (flags : Z) : result (bool * option (np.ndarray (Z * Z))) :=
  if Z.eqb (nth 0 (np.data g) 0%Z) 0 then Ret (false, None)
  else Ret (true,
            Some (toy_corners
                    (Z.to_nat (cv2.width pattern * cv2.height pattern)))).

Definition toy_cornerSubPix (g : np.ndarray Z)
    (corners : option (np.ndarray (Z * Z))) (win zero : cv2.Size)
    (crit : @TermCriteria decimal) : result (np.ndarray (Z * Z)) :=
  match corners with
  | Some c => Ret c
  | None => Raise (cv2_error "corners is not a numpy array")
  end.

Definition toy_drawChessboardCorners (i : option (np.ndarray Z))
    (pattern : cv2.Size) (corners : np.ndarray (Z * Z)) (found : bool)
  : result (np.ndarray Z) :=
  match i with
  | Some a => Ret a
  | None => Raise (cv2_error "image is not a numpy array")
  end.

Definition toy_K : np.ndarray (Z * Z) :=
  np.mk np.float64 [3; 3]
    [(3, 2); (0, 0); (15, -1); (0, 0); (3, 2); (1, 0); (0, 0); (0, 0); (1, 0)]%Z.

Definition toy_D : np.ndarray (Z * Z) :=
  np.mk np.float64 [4; 1] [(1, -2); (0, 0); (0, 0); (0, 0)]%Z.

Definition toy_pose (v : Z) : np.ndarray (Z * Z) :=
  np.mk np.float64 [1; 1; 3] [(v, 0); (v, 0); (v, 0)]%Z.

Definition toy_fisheye_calibrate (objp imgp : list (np.ndarray (Z * Z)))
    (size : cv2.Size) (K D : np.ndarray (Z * Z))
    (rvecs tvecs : list (np.ndarray (Z * Z))) (flags : Z)
    (crit : @TermCriteria decimal) : @calib_outcome decimal :=
  match objp with
  | [] =>
      @mkOutcome decimal (Raise (cv2_error "(-215) !objectPoints.empty()"))
        K D rvecs tvecs
  | _ :: _ =>
      @mkOutcome decimal (Ret (5, -1)%Z) toy_K toy_D
        (map (fun _ => toy_pose 1) rvecs) (map (fun _ => toy_pose 2) tvecs)
  end.

Definition toy_initUndistortRectifyMap (K D R P : np.ndarray (Z * Z))
    (size : cv2.Size) (m1type : Z) : result (np.ndarray Z * np.ndarray Z) :=
  let h := Z.to_nat (cv2.height size) in
  let w := Z.to_nat (cv2.width size) in
  Ret (np.mk np.int16 [h; w; 2] (replicate (h * w * 2) 0%Z),
       np.mk np.uint16 [h; w] (replicate (h * w) 0%Z)).

Definition toy_remap (src map1 map2 : np.ndarray Z) (interp border : Z)
  : result (np.ndarray Z) :=
  let s := np.shape map2 ++ skipn 2 (np.shape src) in
  Ret (np.mk (np.dt src) s (replicate (np.prod s) (nth 0 (np.data src) 0%Z))).

Definition toy_projectPoints (objp rvec tvec K D : np.ndarray (Z * Z))
    (alpha : Z * Z) : result (np.ndarray (Z * Z) * np.ndarray (Z * Z)) :=
  Ret (objp, objp).

Definition toy_cv : @OpenCV decimal :=
  @Build_OpenCV decimal "3.4.2" toy_imread toy_cvtColor
    toy_findChessboardCorners
    toy_cornerSubPix toy_drawChessboardCorners toy_fisheye_calibrate
    toy_initUndistortRectifyMap toy_remap toy_projectPoints.

(** The same library with an optimizer that accepts any data set, the
    empty one included. *)
Definition lenient_fisheye_calibrate (objp imgp : list (np.ndarray (Z * Z)))
    (size : cv2.Size) (K D : np.ndarray (Z * Z))
    (rvecs tvecs : list (np.ndarray (Z * Z))) (flags : Z)
    (crit : @TermCriteria decimal) : @calib_outcome decimal :=
  @mkOutcome decimal (Ret (0, 0)%Z) K D rvecs tvecs.

Definition lenient_cv : @OpenCV decimal :=
  @Build_OpenCV decimal "3.4.2" toy_imread toy_cvtColor
    toy_findChessboardCorners toy_cornerSubPix toy_drawChessboardCorners
    lenient_fisheye_calibrate toy_initUndistortRectifyMap toy_remap
    toy_projectPoints.

(** A pickle whose stored form is the object itself. *)
Definition toy_pickle : @Pickle decimal :=
  @Build_Pickle decimal (@pickled decimal) (fun obj => Ret obj)
    (fun b => Ret b) (fun _ => true).

Definition world0 : @world decimal toy_pickle := mkWorld ∅ ∅ [].

(** [FishEye(3, 2)] in the empty process. *)
Definition init0 := @__init__ decimal toy_pickle 3 2 false world0.

Definition self0 : FishEye := mkFishEye 3 2 false 1%positive 2%positive.

Definition world1 : @world decimal toy_pickle :=
  mkWorld
    (<[2%positive := @np.zeros decimal [4; 1] np.float64]>
       (<[1%positive := @np.zeros decimal [3; 3] np.float64]> ∅))
    ∅ [].

Definition run_calibrate (paths : list string) (update_model : bool) :=
  @calibrate decimal toy_cv toy_pickle self0 paths update_model 30%Z
    (1, -6)%Z false world1.

(** The grayscale image and the corner set of the images with a
    chessboard, and the call of the optimizer in the run over a 2 by 3
    image followed by a 4 by 2 image. *)
Definition gray_img (rows cols : nat) : np.ndarray Z :=
  np.mk np.uint8 [rows; cols] (replicate (rows * cols) 255%Z).

Definition corners : @farray decimal :=
  np.mk np.float32 [1; 6; 2] (replicate 12 (0, 0)%Z).

Definition mixed_call : @event decimal :=
  @Ev_fisheye_calibrate decimal
    (replicate 2 (@chessboard_array decimal 3 2))
    (replicate 2 corners) (cv2.mkSize 2 4)
    (@np.zeros decimal [3; 3] np.float64)
    (@np.zeros decimal [4; 1] np.float64)
    (replicate 2 (@np.zeros decimal [1; 1; 3] np.float64))
    (replicate 2 (@np.zeros decimal [1; 1; 3] np.float64))
    calibrate_flags
    (@mkTermCriteria decimal 3 30 (1, -6)%Z).

(** A pickle that refuses every object, and the state [world1] for it. *)
Definition failing_pickle : @Pickle decimal :=
  @Build_Pickle decimal (@pickled decimal)
    (fun obj => Raise (PickleError "cannot pickle object"))
    (fun b => Ret b) (fun _ => true).

Definition world1_failing : @world decimal failing_pickle :=
  mkWorld
    (<[2%positive := @np.zeros decimal [4; 1] np.float64]>
       (<[1%positive := @np.zeros decimal [3; 3] np.float64]> ∅))
    ∅ [].

(** Two points in space, as an array of shape [(2, 3)]. *)
Definition points : @farray decimal :=
  np.mk np.float64 [2; 3] [(1, 0); (2, 0); (5, 0); (0, 0); (1, 0); (4, 0)]%Z.

(** A session on [self0]: calibrate, undistort, project, save. *)
Definition session : list (@op decimal) :=
  [@Op_calibrate decimal ["board.png"%string] true 30%Z (1, -6)%Z false;
   @Op_undistort decimal (img 2 3 7) None None None;
   @Op_projectPoints decimal points (0, 0)%Z;
   @Op_save decimal "model.pkl"].

End Fixture.

(** * Proofs *)

(** ** Arrays: offsets and multi-indices *)

Module np_facts.
Import np.

Lemma prod_app (s1 s2 : list nat) : prod (s1 ++ s2) = prod s1 * prod s2.
Proof.
  induction s1 as [|d s1 IH]; cbn [app prod]; [lia|].
  rewrite IH. lia.
Qed.

Lemma ravel_lt (s idx : list nat) :
  in_bounds s idx -> ravel s idx < prod s.
Proof.
  unfold in_bounds. intros Hb. induction Hb as [|i d js ds Hi _ IH].
  - cbn. lia.
  - cbn [ravel prod]. nia.
Qed.

Lemma unravel_ravel (s idx : list nat) :
  in_bounds s idx -> unravel s (ravel s idx) = idx.
Proof.
  unfold in_bounds. intros Hb. induction Hb as [|i d js ds Hi Hjs IH].
  - reflexivity.
  - cbn [ravel unravel].
    pose proof (ravel_lt ds js Hjs) as Hlt.
    assert (Hq : (i * prod ds + ravel ds js) / prod ds = i).
    { symmetry. apply (Nat.div_unique _ _ _ (ravel ds js)); lia. }
    assert (Hr : (i * prod ds + ravel ds js) mod prod ds = ravel ds js).
    { symmetry. apply (Nat.mod_unique _ _ i); lia. }
    rewrite Hq, Hr, IH. reflexivity.
Qed.

Lemma data_tabulate_lookup {A} t s (f : list nat -> A) (p : nat) :
  p < prod s -> data (tabulate t s f) !! p = Some (f (unravel s p)).
Proof.
  intros Hp. unfold tabulate. cbn [data].
  rewrite list_lookup_fmap, lookup_seq_lt by exact Hp. reflexivity.
Qed.

Lemma getitem_tabulate {A} t s (f : list nat -> A) (idx : list nat) :
  in_bounds s idx -> getitem (tabulate t s f) idx = Some (f idx).
Proof.
  intros Hb. unfold getitem. cbn [shape tabulate].
  rewrite data_tabulate_lookup by (apply ravel_lt; exact Hb).
  rewrite unravel_ravel by exact Hb. reflexivity.
Qed.


Lemma tabulate_well_formed {A} t s (f : list nat -> A) :
  well_formed (tabulate t s f).
Proof.
  unfold well_formed, tabulate. cbn [data shape].
  rewrite length_fmap, length_seq. reflexivity.
Qed.

Lemma in_bounds3 (d0 d1 d2 i0 i1 i2 : nat) :
  i0 < d0 -> i1 < d1 -> i2 < d2 -> in_bounds [d0; d1; d2] [i0; i1; i2].
Proof.
  intros. unfold in_bounds. repeat constructor; assumption.
Qed.

Lemma in_bounds2 (d0 d1 i0 i1 : nat) :
  i0 < d0 -> i1 < d1 -> in_bounds [d0; d1] [i0; i1].
Proof.
  intros. unfold in_bounds. repeat constructor; assumption.
Qed.

(** The mesh, read back. *)
Lemma mgrid_getitem (nx ny c i j : nat) :
  c < 2 -> i < nx -> j < ny ->
  getitem (mgrid nx ny) [c; i; j]
  = Some (Z.of_nat (if Nat.eqb c 0 then i else j)).
Proof.
  intros Hc Hi Hj. unfold mgrid.
  rewrite getitem_tabulate by (apply in_bounds3; assumption).
  reflexivity.
Qed.



End np_facts.

(** ** Reshaping and the chessboard model *)

Section Chessboard.
Context `{Floating}.
Import np np_facts.

Lemma reshape_rows_of_2 {A} (a : ndarray A) :
  reshape a [-1; 2]%Z
  = if Nat.eqb (size a mod 2) 0
    then Ret (mk (dt a) [size a / 2; 2] (data a))
    else Raise (ValueError "cannot reshape array").
Proof. reflexivity. Qed.

Lemma reshape_1_rows_of_2 {A} (a : ndarray A) :
  reshape a [1; -1; 2]%Z
  = if Nat.eqb (size a mod 2) 0
    then Ret (mk (dt a) [1; size a / 2; 2] (data a))
    else Raise (ValueError "cannot reshape array").
Proof. reflexivity. Qed.

(** Reshaping never touches the elements or their order. *)
Lemma reshape_data {A} (a b : ndarray A) (newshape : list Z) :
  reshape a newshape = Ret b -> data b = data a /\ dt b = dt a.
Proof.
  unfold reshape. intros Hr.
  destruct (negb _); [discriminate|].
  destruct (count_unknown newshape) as [|[|n]].
  - destruct (Nat.eqb _ _); [|discriminate].
    injection Hr as <-. split; reflexivity.
  - destruct (Nat.eqb _ 0); [discriminate|].
    destruct (Nat.eqb _ 0); [|discriminate].
    injection Hr as <-. split; reflexivity.
  - discriminate.
Qed.

Lemma chessboard_model_eq (nx ny : nat) :
  chessboard_model nx ny = Ret (chessboard_array nx ny).
Proof.
  unfold chessboard_model. rewrite reshape_rows_of_2.
  assert (Hsize : size (T (mgrid nx ny)) = (nx * ny) * 2).
  { unfold size. change (shape (T (mgrid nx ny))) with [ny; nx; 2].
    cbn [prod]. lia. }
  rewrite Hsize, Nat.Div0.mod_mul, Nat.div_mul by lia.
  cbn [Nat.eqb result_bind]. unfold setitem_0_all_upto2.
  cbn [shape zeros dt data Nat.eqb Nat.min negb].
  rewrite bool_decide_eq_true_2 by reflexivity.
  reflexivity.
Qed.


End Chessboard.

(** ** The monad: inversion and frames *)

Section Monad_facts.
Context {fl : Floating} {cv : OpenCV} {pk : Pickle}.

Lemma mbind_inv {A B} (c : M A) (k : A -> M B) w r w' :
  mbind c k w = (r, w') ->
  (exists a w1, c w = (Ret a, w1) /\ k a w1 = (r, w'))
  \/ (exists e, c w = (Raise e, w') /\ r = Raise e).
Proof.
  unfold mbind. destruct (c w) as [[a|e] w1]; intros Hk.
  - left. eauto.
  - right. injection Hk as <- <-. eauto.
Qed.

Lemma mbind_Ret {A B} (c : M A) (k : A -> M B) w a w1 :
  c w = (Ret a, w1) -> mbind c k w = k a w1.
Proof. unfold mbind. intros ->. reflexivity. Qed.

Lemma mbind_Raise {A B} (c : M A) (k : A -> M B) w e w1 :
  c w = (Raise e, w1) -> mbind c k w = (Raise e, w1).
Proof. unfold mbind. intros ->. reflexivity. Qed.

Lemma quiet_mret {A} P (a : A) : quiet P (mret a).
Proof.
  intros w r w' Hc. injection Hc as <- <-.
  repeat split. exists []. rewrite app_nil_r. split; [reflexivity|constructor].
Qed.

Lemma quiet_lift {A} P (x : result A) : quiet P (lift x).
Proof.
  intros w r w' Hc. injection Hc as <- <-.
  repeat split. exists []. rewrite app_nil_r. split; [reflexivity|constructor].
Qed.

Lemma quiet_log (P : event -> Prop) e : P e -> quiet P (log e).
Proof.
  intros HP w r w' Hc. injection Hc as <- <-.
  repeat split. exists [e]. split; [reflexivity|]. repeat constructor. exact HP.
Qed.

Lemma quiet_mbind {A B} P (c : M A) (k : A -> M B) :
  quiet P c -> (forall a, quiet P (k a)) -> quiet P (mbind c k).
Proof.
  intros Hc Hk w r w' Hrun.
  apply mbind_inv in Hrun as [(a & w1 & H1 & H2)|(e & H1 & ->)].
  - apply Hc in H1 as (Hh1 & Hf1 & evs1 & Ht1 & HP1).
    apply Hk in H2 as (Hh2 & Hf2 & evs2 & Ht2 & HP2).
    split; [congruence|]. split; [congruence|].
    exists (evs1 ++ evs2). split.
    + rewrite Ht2, Ht1, app_assoc. reflexivity.
    + apply Forall_app. split; assumption.
  - apply Hc in H1. exact H1.
Qed.

Lemma quiet_when P (b : bool) (c : M unit) : quiet P c -> quiet P (when b c).
Proof. destruct b; cbn; [trivial|intros _; apply quiet_mret]. Qed.

Lemma quiet_for_each {A B} P (body : A -> B -> M A) (xs : list B) :
  (forall a x, quiet P (body a x)) -> forall a, quiet P (for_each body xs a).
Proof.
  intros Hbody. induction xs as [|x xs IH]; intros a; cbn [for_each].
  - apply quiet_mret.
  - apply quiet_mbind; [apply Hbody|exact IH].
Qed.

Lemma deref_world (l : loc) (w w' : world) (r : result farray) :
  deref l w = (r, w') -> w' = w.
Proof.
  unfold deref. destruct (heap w !! l); intros [= _ <-]; reflexivity.
Qed.

Lemma quiet_deref (P : event -> Prop) (l : loc) : quiet P (deref l).
Proof.
  intros w r w' Hrun. apply deref_world in Hrun as ->.
  repeat split. exists []. rewrite app_nil_r. split; [reflexivity|constructor].
Qed.

End Monad_facts.

(** Takes a computation apart along its binds and branches; what is left
    are the calls whose event does not satisfy the predicate. *)
Ltac quiet_steps :=
  repeat first
    [ apply quiet_mret | apply quiet_lift | apply quiet_deref
    | apply quiet_log; cbn; auto; fail
    | apply quiet_when
    | apply quiet_mbind; [|intros ?]
    | match goal with
      | |- quiet _ (let (_, _) := ?a in _) => destruct a
      | |- quiet _ (if ?b then _ else _) => destruct b
      | |- quiet _ (match ?k with Some _ => _ | None => _ end) => destruct k
      end ].

Section Loop_frame.
Context {fl : Floating} {cv : OpenCV} {pk : Pickle}.

(** The loop over the images never touches the store, and calls only the
    loader, the detector, the refiner and the display. *)
Lemma quiet_calibrate_body self show vars fname :
  quiet (setup_event self) (calibrate_body self show vars fname).
Proof.
  unfold calibrate_body. quiet_steps.
Qed.

Lemma quiet_calibrate_loop self show paths vars :
  quiet (setup_event self) (calibrate_loop self show paths vars).
Proof.
  unfold calibrate_loop. apply quiet_for_each.
  intros a x. apply quiet_calibrate_body.
Qed.

Lemma setup_event_not_optimizer self e :
  setup_event self e -> is_optimizer_call e = false.
Proof. destruct e; cbn; intros He; (reflexivity || contradiction). Qed.

End Loop_frame.

(** ** The store: allocation, reading and writing *)

Section Store_facts.
Context {fl : Floating} {cv : OpenCV} {pk : Pickle}.

Lemma world_eta (w : world) : mkWorld (heap w) (files w) (trace w) = w.
Proof. destruct w. reflexivity. Qed.

Lemma alloc_fresh (a : farray) (w : world) :
  heap w !! fresh (dom (heap w)) = None.
Proof. apply not_elem_of_dom, is_fresh. Qed.

Lemma alloc_list_run (n : nat) (a : farray) (w : world) :
  exists ls h',
    alloc_list n a w = (Ret ls, mkWorld h' (files w) (trace w))
    /\ length ls = n /\ NoDup ls
    /\ (forall l, l ∈ ls -> heap w !! l = None /\ h' !! l = Some a)
    /\ (forall l, l ∉ ls -> h' !! l = heap w !! l).
Proof.
  revert w. induction n as [|n IH]; intros w.
  - exists [], (heap w). cbn [alloc_list]. unfold mret. rewrite world_eta.
    repeat split; try constructor.
    + exfalso. eapply elem_of_nil. eassumption.
    + exfalso. eapply elem_of_nil. eassumption.
  - cbn [alloc_list].
    set (l := fresh (dom (heap w))).
    set (w1 := mkWorld (<[l := a]> (heap w)) (files w) (trace w)).
    destruct (IH w1) as (ls & h' & Hrun & Hlen & Hnd & Hin & Hout).
    assert (Hl : l ∉ ls).
    { intros Hmem. apply Hin in Hmem as [Hnone _].
      cbn in Hnone. rewrite lookup_insert_eq in Hnone. discriminate. }
    exists (l :: ls), h'. split.
    { unfold mbind at 1. unfold alloc at 1. fold l.
      change (set_heap (<[l := a]> (heap w)) w) with w1.
      unfold mbind. rewrite Hrun. reflexivity. }
    split; [cbn; lia|]. split; [apply NoDup_cons; auto|]. split.
    + intros l' [->|Hmem]%elem_of_cons.
      * split; [apply (alloc_fresh a w)|].
        rewrite Hout by exact Hl. cbn. apply lookup_insert_eq.
      * destruct (Hin l' Hmem) as [Hnone Hsome]. split; [|exact Hsome].
        cbn in Hnone. destruct (decide (l = l')) as [<-|Hne].
        -- rewrite lookup_insert_eq in Hnone. discriminate.
        -- rewrite lookup_insert_ne in Hnone by exact Hne. exact Hnone.
    + intros l' [Hne Hnot]%not_elem_of_cons.
      rewrite Hout by exact Hnot. cbn. apply lookup_insert_ne. congruence.
Qed.

Lemma deref_run (l : loc) (v : farray) (w : world) :
  heap w !! l = Some v -> deref l w = (Ret v, w).
Proof. unfold deref. intros ->. reflexivity. Qed.

Lemma deref_list_run (ls : list loc) (vs : list farray) (w : world) :
  Forall2 (fun l v => heap w !! l = Some v) ls vs ->
  deref_list ls w = (Ret vs, w).
Proof.
  intros Hall. induction Hall as [|l v ls vs Hl _ IH]; cbn [deref_list].
  - reflexivity.
  - rewrite (mbind_Ret _ _ _ _ _ (deref_run l v w Hl)).
    rewrite (mbind_Ret _ _ _ _ _ IH). reflexivity.
Qed.

Lemma store_list_run (ls : list loc) (vs : list farray) (w : world) :
  exists h',
    store_list ls vs w = (Ret tt, mkWorld h' (files w) (trace w))
    /\ (forall l, l ∉ ls -> h' !! l = heap w !! l)
    /\ (NoDup ls -> forall i l v,
          ls !! i = Some l -> vs !! i = Some v -> h' !! l = Some v).
Proof.
  revert vs w. induction ls as [|l ls IH]; intros vs w.
  - exists (heap w). cbn [store_list]. unfold mret. rewrite world_eta.
    split; [reflexivity|]. split; [reflexivity|].
    intros _ i l v Hl. rewrite lookup_nil in Hl. discriminate.
  - destruct vs as [|v vs].
    + exists (heap w). cbn [store_list]. unfold mret. rewrite world_eta.
      split; [reflexivity|]. split; [reflexivity|].
      intros _ i l' v' _ Hv. rewrite lookup_nil in Hv. discriminate.
    + cbn [store_list].
      set (w1 := mkWorld (<[l := v]> (heap w)) (files w) (trace w)).
      destruct (IH vs w1) as (h' & Hrun & Hout & Hin).
      exists h'. split.
      { unfold mbind, store at 1.
        change (set_heap (<[l := v]> (heap w)) w) with w1. exact Hrun. }
      split.
      * intros l' [Hne Hnot]%not_elem_of_cons.
        rewrite Hout by exact Hnot. cbn. apply lookup_insert_ne. congruence.
      * intros [Hl Hnd]%NoDup_cons i l' v' Hi Hv.
        destruct i as [|i]; cbn in Hi, Hv.
        -- injection Hi as <-. injection Hv as <-.
           rewrite Hout by exact Hl. cbn. apply lookup_insert_eq.
        -- eapply Hin; eassumption.
Qed.

(** The call of the optimizer, run on buffers that are live and pairwise
    distinct: every buffer ends up holding what the optimizer left in it,
    and nothing else in the store changes. *)
Lemma call_fisheye_calibrate_run objectPoints imagePoints image_size
    (K D : loc) (rvecs tvecs : list loc) flags criteria
    (Kv Dv : farray) (rv tv : list farray) (w : world) :
  heap w !! K = Some Kv -> heap w !! D = Some Dv ->
  Forall2 (fun l v => heap w !! l = Some v) rvecs rv ->
  Forall2 (fun l v => heap w !! l = Some v) tvecs tv ->
  NoDup (K :: D :: rvecs ++ tvecs) ->
  let out :=
    fisheye_calibrate objectPoints imagePoints image_size Kv Dv rv tv
      flags criteria in
  exists h',
    call_fisheye_calibrate objectPoints imagePoints image_size K D rvecs
      tvecs flags criteria w
    = (co_ret out,
       mkWorld h' (files w)
         (trace w ++ [Ev_fisheye_calibrate objectPoints imagePoints
                        image_size Kv Dv rv tv flags criteria]))
    /\ h' !! K = Some (co_K out) /\ h' !! D = Some (co_D out)
    /\ (forall i l v, rvecs !! i = Some l -> co_rvecs out !! i = Some v ->
          h' !! l = Some v)
    /\ (forall i l v, tvecs !! i = Some l -> co_tvecs out !! i = Some v ->
          h' !! l = Some v)
    /\ (forall l, l ∉ K :: D :: rvecs ++ tvecs -> h' !! l = heap w !! l).
Proof.
  intros HK HD Hrv Htv Hnd out.
  apply NoDup_cons in Hnd as [HKnot Hnd].
  apply NoDup_cons in Hnd as [HDnot Hnd].
  apply NoDup_app in Hnd as (Hndr & Hdisj & Hndt).
  apply not_elem_of_cons in HKnot as [HKD HKnot].
  apply not_elem_of_app in HKnot as [HKr HKt].
  apply not_elem_of_app in HDnot as [HDr HDt].
  unfold call_fisheye_calibrate.
  rewrite (mbind_Ret _ _ _ _ _ (deref_run K Kv w HK)).
  rewrite (mbind_Ret _ _ _ _ _ (deref_run D Dv w HD)).
  rewrite (mbind_Ret _ _ _ _ _ (deref_list_run rvecs rv w Hrv)).
  rewrite (mbind_Ret _ _ _ _ _ (deref_list_run tvecs tv w Htv)).
  fold out.
  set (ev := Ev_fisheye_calibrate _ _ _ _ _ _ _ _ _).
  set (w2 := mkWorld (<[D := co_D out]> (<[K := co_K out]> (heap w)))
               (files w) (trace w ++ [ev])).
  destruct (store_list_run rvecs (co_rvecs out) w2) as (h3 & Hrun3 & Hout3 & Hin3).
  set (w3 := mkWorld h3 (files w2) (trace w2)) in Hrun3.
  destruct (store_list_run tvecs (co_tvecs out) w3) as (h4 & Hrun4 & Hout4 & Hin4).
  exists h4. split.
  { unfold mbind at 1, log at 1. unfold mbind at 1, store at 1.
    unfold mbind at 1, store at 1.
    change (set_heap _ (set_heap _ (add_event ev w))) with w2.
    unfold mbind at 1. rewrite Hrun3. fold w3.
    unfold mbind at 1. rewrite Hrun4. reflexivity. }
  split.
  { rewrite Hout4, Hout3 by assumption. cbn.
    rewrite lookup_insert_ne by congruence. apply lookup_insert_eq. }
  split.
  { rewrite Hout4, Hout3 by assumption. cbn. apply lookup_insert_eq. }
  split.
  { intros i l v Hl Hv.
    rewrite Hout4 by (apply Hdisj; eapply list_elem_of_lookup_2; eassumption).
    eapply Hin3; eassumption. }
  split.
  { intros i l v Hl Hv. eapply Hin4; eassumption. }
  intros l Hl.
  apply not_elem_of_cons in Hl as [HlK Hl].
  apply not_elem_of_cons in Hl as [HlD Hl].
  apply not_elem_of_app in Hl as [Hlr Hlt].
  rewrite Hout4, Hout3 by assumption. cbn.
  rewrite !lookup_insert_ne by congruence. reflexivity.
Qed.

End Store_facts.

(** ** [calibrate] after the loop *)

Section Finish_facts.
Context {fl : Floating} {cv : OpenCV} {pk : Pickle}.

Lemma copy_eq {A} (a : np.ndarray A) : np.copy a = a.
Proof. destruct a. reflexivity. Qed.

(** Lines 127-128: two lists of [n] new pose buffers. *)
Lemma pose_buffers_run (n : nat) (z : farray) (w : world) :
  exists rvecs tvecs h1 h2,
    alloc_list n z w = (Ret rvecs, mkWorld h1 (files w) (trace w))
    /\ alloc_list n z (mkWorld h1 (files w) (trace w))
       = (Ret tvecs, mkWorld h2 (files w) (trace w))
    /\ length rvecs = n /\ length tvecs = n
    /\ NoDup (rvecs ++ tvecs)
    /\ (forall l, l ∈ rvecs ++ tvecs -> heap w !! l = None /\ h2 !! l = Some z)
    /\ (forall l, l ∉ rvecs ++ tvecs -> h2 !! l = heap w !! l).
Proof.
  destruct (alloc_list_run n z w) as (rvecs & h1 & Hr & Hlr & Hndr & Hinr & Houtr).
  destruct (alloc_list_run n z (mkWorld h1 (files w) (trace w)))
    as (tvecs & h2 & Ht & Hlt & Hndt & Hint & Houtt).
  cbn [heap files trace] in *.
  assert (Hdisj : forall l, l ∈ rvecs -> l ∉ tvecs).
  { intros l Hlr' Hlt'. destruct (Hinr l Hlr') as [_ Hs].
    destruct (Hint l Hlt') as [Hn _]. congruence. }
  exists rvecs, tvecs, h1, h2.
  split; [exact Hr|]. split; [exact Ht|]. split; [exact Hlr|].
  split; [exact Hlt|]. split; [apply NoDup_app; auto|]. split.
  - intros l [Hl|Hl]%elem_of_app.
    + destruct (Hinr l Hl) as [Hn Hs]. split; [exact Hn|].
      rewrite Houtt by (apply Hdisj; exact Hl). exact Hs.
    + destruct (Hint l Hl) as [Hn Hs]. split; [|exact Hs].
      destruct (decide (l ∈ rvecs)) as [Hlr'|Hlr'].
      * exfalso. eapply Hdisj; eassumption.
      * rewrite <- Houtr by exact Hlr'. exact Hn.
  - intros l [Hlr' Hlt']%not_elem_of_app.
    rewrite Houtt, Houtr by assumption. reflexivity.
Qed.

Lemma select_buffers_run (self : FishEye) (um : bool) (w : world)
    (Kv Dv : farray) :
  heap w !! _K self = Some Kv -> heap w !! _D self = Some Dv ->
  _K self <> _D self ->
  exists K D h',
    select_buffers self um w = (Ret (K, D), mkWorld h' (files w) (trace w))
    /\ K <> D /\ h' !! K = Some Kv /\ h' !! D = Some Dv
    /\ (forall l, l <> K -> l <> D -> h' !! l = heap w !! l)
    /\ (forall l, is_Some (heap w !! l) -> um = false -> l <> K /\ l <> D)
    /\ (if um then K = _K self /\ D = _D self
        else heap w !! K = None /\ heap w !! D = None).
Proof.
  intros HK HD Hne. unfold select_buffers. destruct um.
  - exists (_K self), (_D self), (heap w). unfold mret. rewrite world_eta.
    repeat split; auto; discriminate.
  - rewrite (mbind_Ret _ _ _ _ _ (deref_run _ _ w HK)).
    unfold mbind at 1, alloc at 1. rewrite copy_eq.
    set (K := fresh (dom (heap w))).
    pose proof (alloc_fresh Kv w) as HKfresh. fold K in HKfresh.
    set (w1 := set_heap (<[K := Kv]> (heap w)) w).
    assert (HD1 : heap w1 !! _D self = Some Dv).
    { cbn. rewrite lookup_insert_ne by congruence. exact HD. }
    rewrite (mbind_Ret _ _ _ _ _ (deref_run _ _ w1 HD1)).
    unfold mbind at 1, alloc at 1. rewrite copy_eq.
    set (D := fresh (dom (heap w1))).
    pose proof (alloc_fresh Dv w1) as HDfresh. fold D in HDfresh.
    assert (HKD : K <> D).
    { intros Heq. rewrite <- Heq in HDfresh. cbn in HDfresh.
      rewrite lookup_insert_eq in HDfresh. discriminate. }
    assert (HDw : heap w !! D = None).
    { cbn in HDfresh. rewrite lookup_insert_ne in HDfresh by exact HKD.
      exact HDfresh. }
    exists K, D, (<[D := Dv]> (<[K := Kv]> (heap w))).
    split; [reflexivity|]. split; [exact HKD|]. split.
    { rewrite lookup_insert_ne by congruence. apply lookup_insert_eq. }
    split; [apply lookup_insert_eq|]. split.
    { intros l HlK HlD. rewrite !lookup_insert_ne by congruence. reflexivity. }
    split; [|split; assumption].
    intros l [v Hv] _. split; intros ->; congruence.
Qed.

End Finish_facts.

Section Finish_run.
Context {fl : Floating} {cv : OpenCV} {pk : Pickle}.

Lemma mbind_mret {A B} (a : A) (k : A -> M B) w : mbind (mret a) k w = k a w.
Proof. reflexivity. Qed.

Lemma mbind_lift_Ret {A B} (a : A) (k : A -> M B) w :
  mbind (lift (Ret a)) k w = k a w.
Proof. reflexivity. Qed.

Lemma mbind_log {B} (e : event) (k : unit -> M B) w :
  mbind (log e) k w = k tt (add_event e w).
Proof. reflexivity. Qed.

(** Lines 126-138 on a well-built object: the buffers are live, pairwise
    distinct, and the pose buffers are new and zero. *)
Lemma calibrate_finish_buffers self model um mi eps vars w Kv Dv :
  heap w !! _K self = Some Kv -> heap w !! _D self = Some Dv ->
  _K self <> _D self ->
  let n := length (chess_2Dpts_list vars) in
  let z := np.zeros [1; 1; 3] np.float64 in
  exists K D rvecs tvecs h',
    calibrate_finish self model um mi eps vars w
    = calibrate_invoke model mi eps vars K D rvecs tvecs
        (mkWorld h' (files w) (trace w))
    /\ length rvecs = n /\ length tvecs = n
    /\ NoDup (K :: D :: rvecs ++ tvecs)
    /\ (forall l, l ∈ rvecs ++ tvecs -> heap w !! l = None /\ h' !! l = Some z)
    /\ h' !! K = Some Kv /\ h' !! D = Some Dv
    /\ (if um then K = _K self /\ D = _D self
        else heap w !! K = None /\ heap w !! D = None)
    /\ (forall l, l ∉ K :: D :: rvecs ++ tvecs -> h' !! l = heap w !! l)
    /\ (forall l, is_Some (heap w !! l) -> h' !! l = heap w !! l).
Proof.
  intros HK HD Hne n z.
  destruct (pose_buffers_run n z w)
    as (rvecs & tvecs & h1 & h2 & Hr & Ht & Hlr & Hlt & Hnd & Hin & Hout).
  set (w2 := mkWorld h2 (files w) (trace w)).
  assert (Hold : forall l, is_Some (heap w !! l) -> l ∉ rvecs ++ tvecs).
  { intros l [v Hv] Hmem. apply Hin in Hmem as [Hn _]. congruence. }
  assert (HK2 : heap w2 !! _K self = Some Kv).
  { cbn. rewrite Hout by (apply Hold; eauto). exact HK. }
  assert (HD2 : heap w2 !! _D self = Some Dv).
  { cbn. rewrite Hout by (apply Hold; eauto). exact HD. }
  destruct (select_buffers_run self um w2 Kv Dv HK2 HD2 Hne)
    as (K & D & h' & Hsel & HKD & HK' & HD' & Hother & Hlive & Hmode).
  cbn [heap files trace w2] in Hsel, Hother, Hlive, Hmode.
  assert (Hsep : forall l, l ∈ rvecs ++ tvecs -> l <> K /\ l <> D).
  { intros l Hmem. destruct (Hin l Hmem) as [Hn Hs]. destruct um.
    - destruct Hmode as [-> ->]. split; intros ->; congruence.
    - apply Hlive; [rewrite Hs; eauto|reflexivity]. }
  exists K, D, rvecs, tvecs, h'. split.
  { unfold calibrate_finish. fold n. fold z.
    rewrite (mbind_Ret _ _ _ _ _ Hr), (mbind_Ret _ _ _ _ _ Ht).
    fold w2. rewrite (mbind_Ret _ _ _ _ _ Hsel). reflexivity. }
  split; [exact Hlr|]. split; [exact Hlt|]. split.
  { apply NoDup_cons. split.
    - apply not_elem_of_cons. split; [exact HKD|].
      intros Hmem. apply Hsep in Hmem as [? _]. congruence.
    - apply NoDup_cons. split; [|exact Hnd].
      intros Hmem. apply Hsep in Hmem as [_ ?]. congruence. }
  split.
  { intros l Hmem. destruct (Hin l Hmem) as [Hn Hs].
    destruct (Hsep l Hmem) as [HlK HlD]. split; [exact Hn|].
    rewrite Hother by assumption. exact Hs. }
  split; [exact HK'|]. split; [exact HD'|]. split.
  { destruct um; [exact Hmode|]. destruct Hmode as [HKn HDn].
    assert (HKo : K ∉ rvecs ++ tvecs).
    { intros Hmem. apply Hin in Hmem as [_ Hs]. congruence. }
    assert (HDo : D ∉ rvecs ++ tvecs).
    { intros Hmem. apply Hin in Hmem as [_ Hs]. congruence. }
    split; [rewrite <- Hout by exact HKo|rewrite <- Hout by exact HDo];
      assumption. }
  split.
  { intros l Hl. apply not_elem_of_cons in Hl as [HlK Hl].
    apply not_elem_of_cons in Hl as [HlD Hl].
    rewrite Hother by assumption. apply Hout. exact Hl. }
  intros l Hl. pose proof (Hold l Hl) as Hnot.
  destruct um.
  - destruct Hmode as [-> ->].
    destruct (decide (l = _K self)) as [->|HlK]; [congruence|].
    destruct (decide (l = _D self)) as [->|HlD]; [congruence|].
    rewrite Hother by assumption. apply Hout. exact Hnot.
  - destruct (Hlive l) as [HlK HlD];
      [rewrite Hout by exact Hnot; exact Hl|reflexivity|].
    rewrite Hother by assumption. apply Hout. exact Hnot.
Qed.

End Finish_run.

(** ** The call of the optimizer from [calibrate] *)

Section Invoke_facts.
Context {fl : Floating} {cv : OpenCV} {pk : Pickle}.

Lemma calibrate_invoke_unbound model mi eps vars K D rvecs tvecs w :
  gray vars = None ->
  calibrate_invoke model mi eps vars K D rvecs tvecs w
  = (Raise (UnboundLocalError "gray"), w).
Proof. unfold calibrate_invoke. intros ->. reflexivity. Qed.

Lemma calibrate_invoke_bad_size model mi eps vars K D rvecs tvecs w g e :
  gray vars = Some g ->
  cv2.Size_of_tuple (tuple_of_shape (rev (np.shape g))) = Raise e ->
  calibrate_invoke model mi eps vars K D rvecs tvecs w = (Raise e, w).
Proof.
  unfold calibrate_invoke. intros -> Hs. rewrite mbind_mret.
  unfold mbind at 1, lift at 1. rewrite Hs. reflexivity.
Qed.

Lemma calibrate_invoke_run model mi eps vars K D rvecs tvecs w g size
    Kv Dv rv tv :
  gray vars = Some g ->
  cv2.Size_of_tuple (tuple_of_shape (rev (np.shape g))) = Ret size ->
  heap w !! K = Some Kv -> heap w !! D = Some Dv ->
  Forall2 (fun l v => heap w !! l = Some v) rvecs rv ->
  Forall2 (fun l v => heap w !! l = Some v) tvecs tv ->
  NoDup (K :: D :: rvecs ++ tvecs) ->
  let n := length (chess_2Dpts_list vars) in
  let crit :=
    mkTermCriteria (cv2.TERM_CRITERIA_EPS + cv2.TERM_CRITERIA_MAX_ITER)%Z
      mi eps in
  let out :=
    fisheye_calibrate (replicate n model) (chess_2Dpts_list vars) size Kv Dv
      rv tv calibrate_flags crit in
  exists h',
    calibrate_invoke model mi eps vars K D rvecs tvecs w
    = (result_map (fun rms => (rms, K, D, rvecs, tvecs)) (co_ret out),
       mkWorld h' (files w)
         (trace w ++ [Ev_fisheye_calibrate (replicate n model)
                        (chess_2Dpts_list vars) size Kv Dv rv tv
                        calibrate_flags crit]))
    /\ h' !! K = Some (co_K out) /\ h' !! D = Some (co_D out)
    /\ (forall i l v, rvecs !! i = Some l -> co_rvecs out !! i = Some v ->
          h' !! l = Some v)
    /\ (forall i l v, tvecs !! i = Some l -> co_tvecs out !! i = Some v ->
          h' !! l = Some v)
    /\ (forall l, l ∉ K :: D :: rvecs ++ tvecs -> h' !! l = heap w !! l).
Proof.
  intros Hg Hs HK HD Hrv Htv Hnd n crit out.
  destruct (call_fisheye_calibrate_run (replicate n model)
              (chess_2Dpts_list vars) size K D rvecs tvecs calibrate_flags
              crit Kv Dv rv tv w HK HD Hrv Htv Hnd)
    as (h' & Hrun & Hrest).
  exists h'. split; [|exact Hrest].
  unfold calibrate_invoke. rewrite Hg, mbind_mret.
  unfold mbind at 1, lift at 1. rewrite Hs.
  fold n. fold crit. unfold mbind. rewrite Hrun. fold out.
  destruct (co_ret out); reflexivity.
Qed.

End Invoke_facts.

(** ** One pass of the loop *)

Section Loop_facts.
Context {fl : Floating} {cv : OpenCV} {pk : Pickle}.

Lemma detection_false_inv self fname :
  detection self fname = Some false ->
  exists g c,
    gray_of fname = Ret g
    /\ findChessboardCorners g
         (cv2.mkSize (Z.of_nat (_nx self)) (Z.of_nat (_ny self)))
         chessboard_flags = Ret (false, c).
Proof.
  unfold detection, gray_of.
  destruct (cvtColor _ _) as [g|] eqn:Hg; [|discriminate].
  destruct (findChessboardCorners _ _ _) as [[b c]|] eqn:Hf; [|discriminate].
  intros [= ->]. exists g, c. split; [reflexivity|exact Hf].
Qed.

Lemma detection_true_inv self fname :
  detection self fname = Some true ->
  exists g c,
    gray_of fname = Ret g
    /\ findChessboardCorners g
         (cv2.mkSize (Z.of_nat (_nx self)) (Z.of_nat (_ny self)))
         chessboard_flags = Ret (true, c).
Proof.
  unfold detection, gray_of.
  destruct (cvtColor _ _) as [g|] eqn:Hg; [|discriminate].
  destruct (findChessboardCorners _ _ _) as [[b c]|] eqn:Hf; [|discriminate].
  intros [= ->]. exists g, c. split; [reflexivity|exact Hf].
Qed.

(** A pass on a file where detection fails: nothing is appended, nothing
    is raised, [gray] is bound to the image of that file. *)
Lemma calibrate_body_not_found self show vars fname g w :
  gray_of fname = Ret g ->
  detection self fname = Some false ->
  exists evs,
    calibrate_body self show vars fname w
    = (Ret (mkLocals (chess_2Dpts_list vars) (Some g)),
       mkWorld (heap w) (files w) (trace w ++ evs)).
Proof.
  intros Hg Hd. unfold detection in Hd. unfold gray_of in Hg.
  rewrite Hg in Hd.
  destruct (findChessboardCorners _ _ _) as [[b c]|] eqn:Hf; [|discriminate].
  injection Hd as ->.
  unfold calibrate_body.
  destruct (_verbose self), show;
    cbn [when]; rewrite ?mbind_mret, ?mbind_log;
    unfold mbind at 1, lift at 1; cbn [trace heap files add_event];
    rewrite Hg; rewrite ?mbind_log;
    unfold mbind at 1, lift at 1; cbn [trace heap files add_event];
    rewrite Hf; cbn [when];
    unfold mbind, log, mret, add_event; cbn [trace heap files];
    rewrite <- ?app_assoc; eexists; reflexivity.
Qed.

End Loop_facts.

Section Loop_inversion.
Context {fl : Floating} {cv : OpenCV} {pk : Pickle}.

(** What a pass that returns has done. *)
Lemma calibrate_body_inv self show vars fname w vars' w' :
  calibrate_body self show vars fname w = (Ret vars', w') ->
  exists g b c,
    gray_of fname = Ret g
    /\ findChessboardCorners g
         (cv2.mkSize (Z.of_nat (_nx self)) (Z.of_nat (_ny self)))
         chessboard_flags = Ret (b, c)
    /\ gray vars' = Some g
    /\ if b then
         exists refined r evs,
           cornerSubPix g c subpix_winSize subpix_zeroZone subpix_criteria
           = Ret refined
           /\ np.reshape refined [1; -1; 2]%Z = Ret r
           /\ chess_2Dpts_list vars' = chess_2Dpts_list vars ++ [r]
           /\ trace w' = trace w ++ evs
           /\ Ev_cornerSubPix g c subpix_winSize subpix_zeroZone
                subpix_criteria ∈ evs
       else chess_2Dpts_list vars' = chess_2Dpts_list vars.
Proof.
  unfold calibrate_body, gray_of.
  destruct (_verbose self), show;
    unfold mbind, lift, log, when, mret;
    (destruct (cvtColor (imread fname) cv2.COLOR_BGR2GRAY) as [g|] eqn:Hg;
     [|discriminate]);
    (destruct (findChessboardCorners g _ chessboard_flags) as [[b c]|] eqn:Hf;
     [|discriminate]);
    destruct b;
    try (destruct (cornerSubPix g c _ _ _) as [refined|] eqn:Hc;
         [|discriminate];
         destruct (np.reshape refined _) as [r|] eqn:Hr; [|discriminate]);
    try (destruct (drawChessboardCorners _ _ _ _) as [drawn|] eqn:Hdraw;
         [|discriminate]);
    intros [= <- <-]; exists g; eexists; exists c;
    (split; [reflexivity|]); (split; [eassumption|]);
    (split; [reflexivity|]); try reflexivity;
    exists refined, r; unfold add_event; cbn [trace heap files];
    rewrite <- ?app_assoc; eexists; (split; [exact Hc|]);
    (split; [exact Hr|]); (split; [reflexivity|]);
    (split; [reflexivity|]); apply list_elem_of_In; cbn; auto 10.
Qed.

End Loop_inversion.

(** ** The whole loop *)

Section Loop_result.
Context {fl : Floating} {cv : OpenCV} {pk : Pickle}.

Lemma calibrate_loop_cons self show fname rest vars w :
  calibrate_loop self show (fname :: rest) vars w
  = mbind (calibrate_body self show vars fname)
      (fun vars' => calibrate_loop self show rest vars') w.
Proof. reflexivity. Qed.

Lemma detection_of_results self fname g b c :
  gray_of fname = Ret g ->
  findChessboardCorners g
    (cv2.mkSize (Z.of_nat (_nx self)) (Z.of_nat (_ny self)))
    chessboard_flags = Ret (b, c) ->
  detection self fname = Some b.
Proof.
  unfold detection, gray_of. intros -> ->. reflexivity.
Qed.

Lemma detected_cons self fname rest :
  detected self (fname :: rest)
  = (if decide (detection self fname = Some true) then 1 else 0)
    + detected self rest.
Proof.
  unfold detected. rewrite filter_cons.
  destruct (decide _); reflexivity.
Qed.

(** A loop that runs to its end has looked at every file: the list of
    corner sets has grown by one entry per file with a chessboard, and
    [gray] is the image of the last file. *)
Lemma calibrate_loop_inv self show paths vars w vars' w' :
  calibrate_loop self show paths vars w = (Ret vars', w') ->
  length (chess_2Dpts_list vars')
  = length (chess_2Dpts_list vars) + detected self paths
  /\ (paths = [] -> vars' = vars)
  /\ (forall pre fname, paths = pre ++ [fname] ->
        exists g, gray_of fname = Ret g /\ gray vars' = Some g).
Proof.
  revert vars w. induction paths as [|f rest IH]; intros vars w Hrun.
  - injection Hrun as <- <-. split; [cbn; lia|]. split; [reflexivity|].
    intros [|? ?] ? Hnil; discriminate.
  - rewrite calibrate_loop_cons in Hrun.
    apply mbind_inv in Hrun as [(v1 & w1 & Hbody & Hrest)|(e & _ & He)];
      [|discriminate].
    apply calibrate_body_inv in Hbody as (g & b & c & Hg & Hf & Hgray & Hb).
    destruct (IH v1 w1 Hrest) as (Hlen & Hnil & Hlast).
    pose proof (detection_of_results self f g b c Hg Hf) as Hdet.
    split; [|split].
    + rewrite Hlen, detected_cons, Hdet. destruct b.
      * destruct Hb as (refined & r & evs & _ & _ & -> & _).
        rewrite length_app. cbn.
        destruct (decide _) as [_|Hne]; [lia|congruence].
      * rewrite Hb. destruct (decide _) as [Heq|_]; [discriminate|lia].
    + discriminate.
    + intros pre fname Hpaths. destruct rest as [|f' rest'].
      * destruct pre as [|? [|? ?]]; try discriminate.
        injection Hpaths as <-. rewrite (Hnil eq_refl). eauto.
      * destruct pre as [|p pre']; [discriminate|].
        injection Hpaths as _ Hrest'. eapply Hlast. exact Hrest'.
Qed.

(** [calibrate] is the loop followed by the call of the optimizer. *)
Lemma calibrate_split self paths um mi eps show w :
  exists w0 evs0,
    heap w0 = heap w /\ files w0 = files w
    /\ trace w0 = trace w ++ evs0 /\ Forall (setup_event self) evs0
    /\ calibrate self paths um mi eps show w
       = match calibrate_loop self show paths (mkLocals [] None) w0 with
         | (Ret vars, w1) =>
             calibrate_finish self (chessboard_array (_nx self) (_ny self))
               um mi eps vars
               (if show then add_event Ev_destroyAllWindows w1 else w1)
         | (Raise e, w1) => (Raise e, w1)
         end.
Proof.
  unfold calibrate. rewrite chessboard_model_eq. destruct show.
  - exists (add_event (Ev_namedWindow "fail img" cv2.WINDOW_NORMAL)
             (add_event (Ev_namedWindow "success img" cv2.WINDOW_NORMAL) w)).
    eexists. split; [reflexivity|]. split; [reflexivity|]. split.
    { cbn. rewrite <- app_assoc. reflexivity. }
    split; [repeat constructor; exact I|].
    rewrite mbind_lift_Ret. cbn [when].
    unfold mbind at 1. unfold mbind at 1, log at 1. unfold mbind at 1, log at 1.
    unfold mbind at 1.
    destruct (calibrate_loop _ _ _ _ _) as [[vars|e] w1]; reflexivity.
  - exists w, []. split; [reflexivity|]. split; [reflexivity|].
    split; [rewrite app_nil_r; reflexivity|]. split; [constructor|].
    rewrite mbind_lift_Ret. cbn [when]. rewrite mbind_mret.
    unfold mbind at 1.
    destruct (calibrate_loop _ _ _ _ _) as [[vars|e] w1]; reflexivity.
Qed.

End Loop_result.

(** ** The two outcomes of [calibrate] *)

Section Calibrate_cases.
Context {fl : Floating} {cv : OpenCV} {pk : Pickle}.

Lemma calibrate_cases self paths um mi eps show w r w' :
  model_ok w self ->
  calibrate self paths um mi eps show w = (r, w') ->
  stopped_early self paths w r w'
  \/ reached_optimizer self paths um mi eps w r w'.
Proof.
  intros ([Kv HK] & [Dv HD] & Hne) Hrun.
  destruct (calibrate_split self paths um mi eps show w)
    as (w0 & evs0 & Hh0 & Hf0 & Ht0 & Hev0 & Heq).
  rewrite Heq in Hrun. clear Heq.
  destruct (calibrate_loop self show paths (mkLocals [] None) w0)
    as [[vars|e] w1] eqn:Hloop.
  2:{ injection Hrun as <- <-.
      assert (Hpaths : paths <> []) by (intros ->; discriminate Hloop).
      apply quiet_calibrate_loop in Hloop as (Hh1 & Hf1 & evs1 & Ht1 & Hev1).
      left. exists e, (evs0 ++ evs1). split; [reflexivity|].
      split; [intros ->; congruence|]. split.
      { rewrite Ht1, Ht0, app_assoc. reflexivity. }
      split; [apply Forall_app; auto|]. split; [congruence|].
      intros l _. congruence. }
  pose proof (calibrate_loop_inv _ _ _ _ _ _ _ Hloop) as (Hlen & Hnil & Hlast).
  apply quiet_calibrate_loop in Hloop as (Hh1 & Hf1 & evs1 & Ht1 & Hev1).
  cbn [chess_2Dpts_list length Nat.add] in Hlen.
  set (w2 := if show then add_event Ev_destroyAllWindows w1 else w1) in Hrun.
  assert (exists evs, heap w2 = heap w /\ files w2 = files w
                      /\ trace w2 = trace w ++ evs
                      /\ Forall (setup_event self) evs)
    as (evs & Hh2 & Hf2 & Ht2 & Hev2).
  { subst w2. destruct show.
    - exists (evs0 ++ evs1 ++ [Ev_destroyAllWindows]).
      split; [cbn; congruence|]. split; [cbn; congruence|]. split.
      + cbn. rewrite Ht1, Ht0, <- !app_assoc. reflexivity.
      + rewrite !Forall_app. repeat split; auto. repeat constructor.
    - exists (evs0 ++ evs1). split; [congruence|]. split; [congruence|].
      split; [rewrite Ht1, Ht0, app_assoc; reflexivity|].
      apply Forall_app; auto. }
  clearbody w2.
  assert (HK2 : heap w2 !! _K self = Some Kv) by (rewrite Hh2; exact HK).
  assert (HD2 : heap w2 !! _D self = Some Dv) by (rewrite Hh2; exact HD).
  destruct (calibrate_finish_buffers self
              (chessboard_array (_nx self) (_ny self)) um mi eps vars w2
              Kv Dv HK2 HD2 Hne)
    as (K & D & rvecs & tvecs & h' & Hfin & Hlr & Hlt & Hnd & Hnew & HK'
        & HD' & Hmode & Hframe & Hlive).
  rewrite Hfin in Hrun. clear Hfin.
  rewrite Hh2 in Hnew, Hmode, Hframe, Hlive. rewrite Hf2, Ht2 in Hrun.
  destruct (gray vars) as [g|] eqn:Hg.
  2:{ rewrite calibrate_invoke_unbound in Hrun by exact Hg.
      injection Hrun as <- <-. left. exists (UnboundLocalError "gray"), evs.
      repeat split; auto. }
  destruct (cv2.Size_of_tuple (tuple_of_shape (rev (np.shape g))))
    as [size|e] eqn:Hsize.
  2:{ rewrite (calibrate_invoke_bad_size _ _ _ _ _ _ _ _ _ g e Hg Hsize)
        in Hrun.
      injection Hrun as <- <-. left. exists e, evs.
      split; [reflexivity|]. split.
      { intros ->. rewrite (Hnil eq_refl) in Hg. discriminate. }
      repeat split; auto. }
  set (n := length (chess_2Dpts_list vars)) in *.
  set (z := np.zeros [1; 1; 3] np.float64) in *.
  assert (Hrv : Forall2 (fun l v => h' !! l = Some v) rvecs (replicate n z)).
  { apply Forall2_replicate_r; [exact Hlr|]. apply Forall_forall.
    intros l Hl. apply Hnew, elem_of_app. left. exact Hl. }
  assert (Htv : Forall2 (fun l v => h' !! l = Some v) tvecs (replicate n z)).
  { apply Forall2_replicate_r; [exact Hlt|]. apply Forall_forall.
    intros l Hl. apply Hnew, elem_of_app. right. exact Hl. }
  destruct (calibrate_invoke_run (chessboard_array (_nx self) (_ny self))
              mi eps vars K D rvecs tvecs
              (mkWorld h' (files w) (trace w ++ evs)) g size Kv Dv
              (replicate n z) (replicate n z) Hg Hsize HK' HD' Hrv Htv Hnd)
    as (h'' & Hinv & HKout & HDout & Hrout & Htout & Hframe').
  rewrite Hinv in Hrun. clear Hinv. injection Hrun as <- <-.
  right. exists vars, evs, g, size, Kv, Dv, K, D, rvecs, tvecs.
  cbn [heap files trace] in *. fold n. fold z.
  split; [exact Hlen|]. split.
  { intros ->. rewrite (Hnil eq_refl) in Hg. discriminate. }
  split.
  { intros pre fname Hp. destruct (Hlast pre fname Hp) as (g' & Hg' & Hgv).
    congruence. }
  split; [exact Hsize|]. split; [exact HK|]. split; [exact HD|].
  split; [exact Hev2|]. split; [rewrite app_assoc; reflexivity|].
  split; [reflexivity|]. split; [reflexivity|]. split; [exact Hlr|].
  split; [exact Hlt|]. split; [exact Hnd|]. split.
  { intros l Hl. apply Hnew. exact Hl. }
  split; [exact Hmode|]. split; [exact HKout|]. split; [exact HDout|].
  split; [exact Hrout|]. split; [exact Htout|].
  intros l Hl. rewrite Hframe' by exact Hl. apply Hframe. exact Hl.
Qed.

End Calibrate_cases.

(** * The properties of the specification *)

Section Calibrate_modes.
Context {fl : Floating} {cv : OpenCV} {pk : Pickle}.

Lemma result_map_Ret_inv {A B} (f : A -> B) (r : result A) (b : B) :
  result_map f r = Ret b -> exists a, r = Ret a /\ b = f a.
Proof.
  destruct r as [a|e]; cbn; [|discriminate].
  intros [= <-]. eauto.
Qed.

Lemma last_trace (t evs : list event) (e : event) :
  last (t ++ evs ++ [e]) = Some e.
Proof. rewrite app_assoc. apply last_snoc. Qed.

(** C1.  On a well-built object, a call of [calibrate] with
    [update_model=True] that returns hands back the object's own arrays
    [_K] and [_D], and they hold what the optimizer, started on their
    previous contents, left in them.  A call with [update_model=False]
    leaves the contents of [_K] and [_D] as they were, however it ends;
    when it returns, the arrays it hands back are new ones, and the
    optimizer ran on copies of the stored contents. *)
Theorem calibrate_update_model self img_paths max_iter eps show_imgs w :
  model_ok w self ->
  (forall rms K D rvecs tvecs w',
      calibrate self img_paths true max_iter eps show_imgs w
      = (Ret (rms, K, D, rvecs, tvecs), w') ->
      K = _K self /\ D = _D self
      /\ exists objp imgp size Kv Dv rv tv crit,
          heap w !! _K self = Some Kv /\ heap w !! _D self = Some Dv
          /\ last (trace w')
             = Some (Ev_fisheye_calibrate objp imgp size Kv Dv rv tv
                       calibrate_flags crit)
          /\ let out :=
               fisheye_calibrate objp imgp size Kv Dv rv tv calibrate_flags
                 crit in
             co_ret out = Ret rms
             /\ heap w' !! _K self = Some (co_K out)
             /\ heap w' !! _D self = Some (co_D out))
  /\ (forall r w',
        calibrate self img_paths false max_iter eps show_imgs w = (r, w') ->
        heap w' !! _K self = heap w !! _K self
        /\ heap w' !! _D self = heap w !! _D self
        /\ forall rms K D rvecs tvecs,
            r = Ret (rms, K, D, rvecs, tvecs) ->
            heap w !! K = None /\ heap w !! D = None
            /\ exists objp imgp size Kv Dv rv tv crit,
                heap w !! _K self = Some Kv /\ heap w !! _D self = Some Dv
                /\ last (trace w')
                   = Some (Ev_fisheye_calibrate objp imgp size Kv Dv rv tv
                             calibrate_flags crit)
                /\ let out :=
                     fisheye_calibrate objp imgp size Kv Dv rv tv
                       calibrate_flags crit in
                   co_ret out = Ret rms
                   /\ heap w' !! K = Some (co_K out)
                   /\ heap w' !! D = Some (co_D out)).
Proof.
  intros Hok. split.
  - intros rms K D rvecs tvecs w' Hrun.
    apply calibrate_cases in Hrun as [(e & evs & Hr & _)|Hopt];
      [discriminate| |exact Hok].
    destruct Hopt
      as (vars & evs & g & size & Kv & Dv & K0 & D0 & rvecs0 & tvecs0
          & _ & _ & _ & _ & HK & HD & _ & Ht & _ & Hr & _ & _ & _ & _
          & [-> ->] & HKout & HDout & _).
    symmetry in Hr. apply result_map_Ret_inv in Hr as (rms0 & Hret & Heq).
    injection Heq as -> -> -> -> ->.
    split; [reflexivity|]. split; [reflexivity|].
    do 8 eexists. split; [exact HK|]. split; [exact HD|].
    split; [rewrite Ht; apply last_trace|].
    cbv zeta. split; [exact Hret|]. split; assumption.
  - intros r w' Hrun.
    destruct Hok as (HKlive & HDlive & Hne).
    apply calibrate_cases in Hrun as [Hearly|Hopt];
      [| |repeat split; assumption].
    + destruct Hearly as (e & evs & -> & _ & _ & _ & _ & Hlive).
      split; [apply Hlive; exact HKlive|].
      split; [apply Hlive; exact HDlive|]. discriminate.
    + destruct Hopt
        as (vars & evs & g & size & Kv & Dv & K0 & D0 & rvecs0 & tvecs0
            & _ & _ & _ & _ & HK & HD & _ & Ht & _ & Hr & _ & _ & _ & Hnew
            & [HK0 HD0] & HKout & HDout & _ & _ & Hframe).
      assert (Hout : forall l, is_Some (heap w !! l) ->
                       l ∉ K0 :: D0 :: rvecs0 ++ tvecs0).
      { intros l [v Hv] Hmem.
        apply elem_of_cons in Hmem as [->|Hmem]; [congruence|].
        apply elem_of_cons in Hmem as [->|Hmem]; [congruence|].
        apply Hnew in Hmem. congruence. }
      split; [apply Hframe, Hout; exact HKlive|].
      split; [apply Hframe, Hout; exact HDlive|].
      intros rms K D rvecs tvecs ->.
      symmetry in Hr. apply result_map_Ret_inv in Hr as (rms0 & Hret & Heq).
      injection Heq as -> -> -> -> ->.
      split; [exact HK0|]. split; [exact HD0|].
      do 8 eexists. split; [exact HK|]. split; [exact HD|].
      split; [rewrite Ht; apply last_trace|].
      cbv zeta. split; [exact Hret|]. split; assumption.
Qed.

End Calibrate_modes.

Section Calibrate_results.
Context {fl : Floating} {cv : OpenCV} {pk : Pickle}.

(** C2.  A call of [calibrate] that returns has called the optimizer
    once, as its last step, and returns: the RMS error that the
    optimizer returned; the buffers [K] and [D], holding what the
    optimizer left in them; and one rotation and one translation buffer
    per image on which the chessboard was found, each holding the pose
    that the optimizer wrote for that image. *)
Theorem calibrate_returns self img_paths update_model max_iter eps
    show_imgs w rms K D rvecs tvecs w' :
  model_ok w self ->
  calibrate self img_paths update_model max_iter eps show_imgs w
  = (Ret (rms, K, D, rvecs, tvecs), w') ->
  exists objp imgp size Kv Dv rv tv crit,
    last (trace w')
    = Some (Ev_fisheye_calibrate objp imgp size Kv Dv rv tv calibrate_flags
              crit)
    /\ let out :=
         fisheye_calibrate objp imgp size Kv Dv rv tv calibrate_flags crit in
       co_ret out = Ret rms
       /\ heap w' !! K = Some (co_K out)
       /\ heap w' !! D = Some (co_D out)
       /\ length imgp = detected self img_paths
       /\ length rvecs = detected self img_paths
       /\ length tvecs = detected self img_paths
       /\ (forall i l v, rvecs !! i = Some l -> co_rvecs out !! i = Some v ->
             heap w' !! l = Some v)
       /\ (forall i l v, tvecs !! i = Some l -> co_tvecs out !! i = Some v ->
             heap w' !! l = Some v).
Proof.
  intros Hok Hrun.
  apply calibrate_cases in Hrun as [(e & evs & Hr & _)|Hopt];
    [discriminate| |exact Hok].
  destruct Hopt
    as (vars & evs & g & size & Kv & Dv & K0 & D0 & rvecs0 & tvecs0
        & Hn & _ & _ & _ & _ & _ & _ & Ht & _ & Hr & Hlr & Hlt & _ & _
        & _ & HKout & HDout & Hrout & Htout & _).
  symmetry in Hr. apply result_map_Ret_inv in Hr as (rms0 & Hret & Heq).
  injection Heq as -> -> -> -> ->.
  do 8 eexists. split; [rewrite Ht; apply last_trace|].
  cbv zeta. split; [exact Hret|]. split; [exact HKout|].
  split; [exact HDout|]. split; [exact Hn|].
  split; [congruence|]. split; [congruence|]. split; assumption.
Qed.

(** C3.  Let the optimizer refuse an empty data set, as that of OpenCV 3
    does ([fisheye::calibrate] starts by asserting that its point lists
    are not empty; line 5 admits no other version).
    Then a call of [calibrate] in which no image passes detection raises.
    With an empty [img_paths] it raises the unbound name [gray] before the
    optimizer is called; otherwise it raises either before the optimizer
    is called, or at that call, made on empty point lists, with the
    optimizer's exception. *)
Theorem calibrate_no_detection self img_paths update_model max_iter eps
    show_imgs w :
  model_ok w self ->
  (forall size Kv Dv flags crit,
      is_Ret (co_ret (fisheye_calibrate [] [] size Kv Dv [] [] flags crit))
      = false) ->
  Forall (fun fname => detection self fname <> Some true) img_paths ->
  exists e w',
    calibrate self img_paths update_model max_iter eps show_imgs w
    = (Raise e, w')
    /\ ((exists evs,
            trace w' = trace w ++ evs
            /\ Forall (fun ev => is_optimizer_call ev = false) evs
            /\ (img_paths = [] -> e = UnboundLocalError "gray"))
        \/ (exists evs size Kv Dv crit,
               img_paths <> []
               /\ trace w' = trace w ++ evs
                    ++ [Ev_fisheye_calibrate [] [] size Kv Dv [] []
                          calibrate_flags crit]
               /\ Forall (fun ev => is_optimizer_call ev = false) evs
               /\ co_ret (fisheye_calibrate [] [] size Kv Dv [] []
                            calibrate_flags crit) = Raise e)).
Proof.
  intros Hok Hopt Hnone.
  assert (Hzero : detected self img_paths = 0).
  { unfold detected. induction Hnone as [|f rest Hf _ IH]; [reflexivity|].
    rewrite filter_cons. destruct (decide _); [contradiction|exact IH]. }
  destruct (calibrate self img_paths update_model max_iter eps show_imgs w)
    as [r w'] eqn:Hrun.
  apply calibrate_cases in Hrun as [Hearly|Hreached]; [| |exact Hok].
  - destruct Hearly as (e & evs & -> & Hnil & Ht & Hev & _).
    exists e, w'. split; [reflexivity|]. left. exists evs.
    split; [exact Ht|]. split; [|exact Hnil].
    eapply Forall_impl; [exact Hev|]. apply setup_event_not_optimizer.
  - destruct Hreached
      as (vars & evs & g & size & Kv & Dv & K0 & D0 & rvecs0 & tvecs0
          & Hn & Hne & _ & _ & _ & _ & Hev & Ht & _ & Hr & _).
    rewrite Hzero in Hn.
    assert (Hchess : chess_2Dpts_list vars = []) by
      (apply nil_length_inv; exact Hn).
    rewrite Hchess in Ht, Hr. cbn [length replicate] in Ht, Hr.
    specialize (Hopt size Kv Dv calibrate_flags
                  (mkTermCriteria
                     (cv2.TERM_CRITERIA_EPS + cv2.TERM_CRITERIA_MAX_ITER)%Z
                     max_iter eps)).
    destruct (co_ret _) as [rms|e] eqn:Hret in Hr.
    { exfalso.
      pose proof (eq_trans (eq_sym (f_equal is_Ret Hret)) Hopt) as Habs.
      discriminate Habs. }
    cbn in Hr. subst r.
    exists e, w'. split; [reflexivity|]. right.
    exists evs, size, Kv, Dv. eexists.
    split; [exact Hne|]. split; [exact Ht|]. split; [|exact Hret].
    eapply Forall_impl; [exact Hev|]. apply setup_event_not_optimizer.
Qed.

End Calibrate_results.

Section Optimizer_arguments.
Context {fl : Floating} {cv : OpenCV} {pk : Pickle}.

(** Whatever call of the optimizer a run of [calibrate] makes, these are
    its arguments. *)
Lemma calibrate_optimizer_event self paths um mi eps show w r w' evs e :
  model_ok w self ->
  calibrate self paths um mi eps show w = (r, w') ->
  trace w' = trace w ++ evs -> e ∈ evs -> is_optimizer_call e = true ->
  exists vars g size Kv Dv,
    let n := length (chess_2Dpts_list vars) in
    let z := np.zeros [1; 1; 3] np.float64 in
    e = Ev_fisheye_calibrate
          (replicate n (chessboard_array (_nx self) (_ny self)))
          (chess_2Dpts_list vars) size Kv Dv (replicate n z) (replicate n z)
          calibrate_flags
          (mkTermCriteria
             (cv2.TERM_CRITERIA_EPS + cv2.TERM_CRITERIA_MAX_ITER)%Z mi eps)
    /\ n = detected self paths
    /\ paths <> []
    /\ (forall pre fname, paths = pre ++ [fname] -> gray_of fname = Ret g)
    /\ cv2.Size_of_tuple (tuple_of_shape (rev (np.shape g))) = Ret size
    /\ heap w !! _K self = Some Kv /\ heap w !! _D self = Some Dv.
Proof.
  intros Hok Hrun Ht He Hopt.
  apply calibrate_cases in Hrun as [Hearly|Hreached]; [| |exact Hok].
  - destruct Hearly as (e0 & evs0 & _ & _ & Ht0 & Hev & _).
    rewrite Ht in Ht0. apply app_inv_head in Ht0. subst evs0.
    rewrite Forall_forall in Hev. apply Hev in He.
    apply setup_event_not_optimizer in He. congruence.
  - destruct Hreached
      as (vars & evs0 & g & size & Kv & Dv & K0 & D0 & rvecs0 & tvecs0
          & Hn & Hne & Hlast & Hsize & HK & HD & Hev & Ht0 & _).
    rewrite Ht in Ht0. apply app_inv_head in Ht0. subst evs.
    exists vars, g, size, Kv, Dv. cbv zeta.
    apply elem_of_app in He as [He|He].
    + rewrite Forall_forall in Hev. apply Hev in He.
      apply setup_event_not_optimizer in He. congruence.
    + apply list_elem_of_singleton in He. subst e.
      repeat split; assumption.
Qed.


(** C10.  Whenever [calibrate] calls the optimizer, [img_paths] is not
    empty and the image size it passes is the reversed shape of the
    grayscale image of the LAST file of [img_paths], whatever detection
    said about that file and whatever the shapes of the other images. *)
Theorem calibrate_image_size self img_paths update_model max_iter eps
    show_imgs w r w' evs objp imgp size Kv Dv rv tv flags crit :
  model_ok w self ->
  calibrate self img_paths update_model max_iter eps show_imgs w = (r, w') ->
  trace w' = trace w ++ evs ->
  Ev_fisheye_calibrate objp imgp size Kv Dv rv tv flags crit ∈ evs ->
  exists pre fname g,
    img_paths = pre ++ [fname]
    /\ gray_of fname = Ret g
    /\ cv2.Size_of_tuple (tuple_of_shape (rev (np.shape g))) = Ret size.
Proof.
  intros Hok Hrun Ht He.
  destruct (calibrate_optimizer_event _ _ _ _ _ _ _ _ _ _ _ Hok Hrun Ht He
              eq_refl)
    as (vars & g & size0 & Kv0 & Dv0 & Heq & _ & Hne & Hlast & Hsize & _).
  cbv zeta in Heq. injection Heq as _ _ -> _ _ _ _ _ _.
  destruct (exists_last Hne) as (pre & fname & Hp).
  exists pre, fname, g. split; [exact Hp|].
  split; [eapply Hlast; exact Hp|exact Hsize].
Qed.

End Optimizer_arguments.

Section Detection_properties.
Context {fl : Floating} {cv : OpenCV} {pk : Pickle}.

(** C6.  On a file where detection reports failure, the pass of the loop
    returns normally, with the list of corner sets as it was and the
    store untouched, and the loop goes on with the remaining files. *)
Theorem calibrate_skips_failed_detection self show_imgs vars fname rest w :
  detection self fname = Some false ->
  exists g evs,
    let vars' := mkLocals (chess_2Dpts_list vars) (Some g) in
    let w' := mkWorld (heap w) (files w) (trace w ++ evs) in
    gray_of fname = Ret g
    /\ calibrate_body self show_imgs vars fname w = (Ret vars', w')
    /\ Forall (fun e => is_refiner_call e = false
                        /\ is_optimizer_call e = false) evs
    /\ calibrate_loop self show_imgs (fname :: rest) vars w
       = calibrate_loop self show_imgs rest vars' w'.
Proof.
  intros Hd.
  destruct (detection_false_inv self fname Hd) as (g & c & Hg & Hf).
  destruct (calibrate_body_not_found self show_imgs vars fname g w Hg Hd)
    as (evs & Hbody).
  exists g, evs. cbv zeta. split; [exact Hg|]. split; [exact Hbody|].
  split.
  - revert Hbody. unfold calibrate_body, gray_of in *.
    destruct (_verbose self), show_imgs;
      unfold mbind, lift, log, when, mret, add_event;
      rewrite Hg, Hf; cbn [trace heap files];
      rewrite <- ?app_assoc; intros [= Hevs%app_inv_head]; subst evs;
      repeat constructor.
  - rewrite calibrate_loop_cons. unfold mbind. rewrite Hbody. reflexivity.
Qed.

Lemma corner_of_points (a : farray) (n k : nat) :
  (np.shape a = [n; 1; 2] ->
   corner a k
   = match np.getitem a [k; 0; 0], np.getitem a [k; 0; 1] with
     | Some x, Some y => Some (x, y)
     | _, _ => None
     end)
  /\ (np.shape a = [1; n; 2] ->
      corner a k
      = match np.getitem a [0; k; 0], np.getitem a [0; k; 1] with
        | Some x, Some y => Some (x, y)
        | _, _ => None
        end).
Proof.
  unfold corner, np.getitem.
  split; intros ->; cbn [np.ravel np.prod];
    replace (k * (1 * (2 * 1)) + (0 * (2 * 1) + (0 * 1 + 0))) with (2 * k)
      by lia;
    replace (k * (1 * (2 * 1)) + (0 * (2 * 1) + (1 * 1 + 0)))
      with (2 * k + 1) by lia;
    replace (0 * (n * (2 * 1)) + (k * (2 * 1) + (0 * 1 + 0))) with (2 * k)
      by lia;
    replace (0 * (n * (2 * 1)) + (k * (2 * 1) + (1 * 1 + 0)))
      with (2 * k + 1) by lia;
    reflexivity.
Qed.

(** C8, as the code has it.  Let the refiner be as OpenCV documents it
    ([refiner_keeps_corners]: the corners are refined one by one, in
    place).  On a file where the chessboard is found and the pass of the
    loop returns, the refiner is called on the coarse corners of the
    detector with [winSize = (11, 11)], which is HALF the side of the
    window: the search window is 23 by 23 pixels.  The criteria stop it
    after 30 iterations or below a step of 0.1, whichever comes first.
    The refined output has the same count and ordering as the input
    corners: as many corners as the detector found, the [k]-th being the
    refinement of the [k]-th coarse corner.  What is appended to the list
    of corner sets is that output reshaped to [(1, -1, 2)]: the same
    corners in the same order. *)
Theorem subpix_refinement self show_imgs vars fname w vars' w' refine_point :
  refiner_keeps_corners refine_point ->
  calibrate_body self show_imgs vars fname w = (Ret vars', w') ->
  detection self fname = Some true ->
  exists g coarse refined appended evs,
    gray_of fname = Ret g
    /\ findChessboardCorners g
         (cv2.mkSize (Z.of_nat (_nx self)) (Z.of_nat (_ny self)))
         chessboard_flags = Ret (true, coarse)
    /\ trace w' = trace w ++ evs
    /\ Ev_cornerSubPix g coarse subpix_winSize subpix_zeroZone
         subpix_criteria ∈ evs
    /\ subpix_winSize = cv2.mkSize 11 11
    /\ cv2.search_window subpix_winSize = (23, 23)%Z
    /\ tc_maxCount subpix_criteria = 30%Z
    /\ tc_epsilon subpix_criteria = float_lit 1 (-1)
    /\ cv2.has_flag (tc_type subpix_criteria) cv2.TERM_CRITERIA_MAX_ITER
       = true
    /\ cv2.has_flag (tc_type subpix_criteria) cv2.TERM_CRITERIA_EPS = true
    /\ cornerSubPix g coarse subpix_winSize subpix_zeroZone subpix_criteria
       = Ret refined
    /\ chess_2Dpts_list vars' = chess_2Dpts_list vars ++ [appended]
    /\ np.data appended = np.data refined
    /\ np.shape appended = [1; np.size refined / 2; 2]
    /\ exists corners,
        coarse = Some corners
        /\ np.shape refined = np.shape corners
        /\ corner_count refined = corner_count corners
        /\ corner_count appended = corner_count corners
        /\ forall k p,
            corner corners k = Some p ->
            corner refined k
            = Some (refine_point g subpix_winSize subpix_zeroZone
                      subpix_criteria p)
            /\ corner appended k = corner refined k.
Proof.
  intros [Hnone Hkeep] Hbody Hd.
  apply calibrate_body_inv in Hbody as (g & b & c & Hg & Hf & _ & Hb).
  pose proof (detection_of_results self fname g b c Hg Hf) as Hd'.
  rewrite Hd in Hd'. injection Hd' as <-.
  destruct Hb as (refined & r & evs & Hc & Hr & Hchess & Ht & Hev).
  exists g, c, refined, r, evs.
  split; [exact Hg|]. split; [exact Hf|]. split; [exact Ht|].
  split; [exact Hev|]. do 6 (split; [reflexivity|]).
  split; [exact Hc|]. split; [exact Hchess|].
  pose proof (proj1 (reshape_data _ _ _ Hr)) as Hdata.
  split; [exact Hdata|].
  rewrite reshape_1_rows_of_2 in Hr.
  destruct (Nat.eqb _ 0); [|discriminate]. injection Hr as <-.
  split; [reflexivity|].
  destruct c as [corners|].
  2:{ exfalso.
      specialize (Hnone g subpix_winSize subpix_zeroZone subpix_criteria).
      rewrite Hc in Hnone. discriminate Hnone. }
  destruct (Hkeep _ _ _ _ _ _ Hc) as [Hshape Hpts].
  exists corners. split; [reflexivity|]. split; [exact Hshape|].
  assert (Hcount : corner_count refined = corner_count corners).
  { unfold corner_count, np.size. rewrite Hshape. reflexivity. }
  split; [exact Hcount|]. split.
  { rewrite <- Hcount. unfold corner_count at 1. unfold np.size at 1.
    cbn [np.shape np.prod]. fold (corner_count refined).
    rewrite Nat.mul_1_r, Nat.mul_1_l. apply Nat.div_mul. discriminate. }
  intros k p Hp. split; [apply Hpts; exact Hp|]. reflexivity.
Qed.

End Detection_properties.

Section Undistort_properties.
Context {fl : Floating} {cv : OpenCV} {pk : Pickle}.

Lemma quiet_undistort self img size R K :
  quiet (fun _ => True) (undistort self img size R K).
Proof.
  unfold undistort. quiet_steps.
Qed.

Lemma undistort_depends self img size R K w w2 :
  heap w2 !! _K self = heap w !! _K self ->
  heap w2 !! _D self = heap w !! _D self ->
  fst (undistort self img size R K w2) = fst (undistort self img size R K w).
Proof.
  intros HK HD. unfold undistort, mbind, deref, lift, log, mret.
  destruct (heap w !! _K self) as [Kv|] eqn:HKw;
    destruct (heap w !! _D self) as [Dv|] eqn:HDw;
    destruct K as [K|];
    repeat (rewrite ?HK, ?HD, ?HKw, ?HDw; cbn [heap add_event fst]);
    try reflexivity;
    destruct (cv2.Size_of_tuple _); try reflexivity;
    repeat (rewrite ?HK, ?HD, ?HKw, ?HDw; cbn [heap add_event fst]);
    destruct (fisheye_initUndistortRectifyMap _ _ _ _ _ _) as [[m1 m2]|];
    try reflexivity; destruct (remap _ _ _ _ _); reflexivity.
Qed.

(** C4.  The result of [undistort] is determined by the contents of the
    object's [_K] and [_D] and by its arguments: two states of the
    process that agree on [_K] and [_D] give the same result.  A call
    changes no array and no file, so a second call with the same
    arguments gives the same result again. *)
Theorem undistort_pure self distorted_img undistorted_size R K w w2 :
  heap w2 !! _K self = heap w !! _K self ->
  heap w2 !! _D self = heap w !! _D self ->
  let run := undistort self distorted_img undistorted_size R K in
  fst (run w2) = fst (run w)
  /\ heap (snd (run w)) = heap w
  /\ files (snd (run w)) = files w
  /\ fst (run (snd (run w))) = fst (run w).
Proof.
  intros HK HD run.
  assert (Hq : heap (snd (run w)) = heap w /\ files (snd (run w)) = files w).
  { destruct (run w) as [r w1] eqn:Hrun.
    apply quiet_undistort in Hrun as (Hh & Hf & _). split; assumption. }
  destruct Hq as [Hh Hf].
  split; [apply undistort_depends; assumption|].
  split; [exact Hh|]. split; [exact Hf|].
  apply undistort_depends; rewrite Hh; reflexivity.
Qed.

(** What [undistort] passes on when its optional arguments are omitted:
    the identity for [R], the stored [_K] as target matrix, and as size
    the pair [(rows, cols)] of the image's shape, read by OpenCV as
    [(width, height)]. *)
Lemma undistort_defaults self img w Kv Dv rows cols rest :
  heap w !! _K self = Some Kv -> heap w !! _D self = Some Dv ->
  np.shape img = rows :: cols :: rest ->
  exists evs,
    trace (snd (undistort self img None None None w))
    = trace w
      ++ Ev_initUndistortRectifyMap Kv Dv (np.eye 3) Kv
           (cv2.mkSize (Z.of_nat rows) (Z.of_nat cols)) cv2.CV_16SC2 :: evs.
Proof.
  intros HK HD Hs. unfold undistort.
  rewrite !(mbind_Ret _ _ _ _ _ (deref_run _ _ w HK)).
  rewrite (mbind_Ret _ _ _ _ _ (deref_run _ _ w HD)).
  rewrite Hs.
  change (firstn 2 (rows :: cols :: rest)) with [rows; cols].
  cbn [tuple_of_shape map cv2.Size_of_tuple default].
  rewrite mbind_lift_Ret, mbind_log.
  unfold mbind at 1, lift at 1.
  destruct (fisheye_initUndistortRectifyMap _ _ _ _ _ _) as [[m1 m2]|].
  - rewrite mbind_log. unfold mbind, lift, mret.
    destruct (remap _ _ _ _ _); cbn [snd trace add_event];
      rewrite <- app_assoc; eexists; reflexivity.
  - cbn [snd trace add_event]. exists []. reflexivity.
Qed.

Lemma eye3_identity :
  np.data (np.eye 3)
  = [float_lit 1 0; float_lit 0 0; float_lit 0 0;
     float_lit 0 0; float_lit 1 0; float_lit 0 0;
     float_lit 0 0; float_lit 0 0; float_lit 1 0]
  /\ np.shape (np.eye 3) = [3; 3].
Proof. split; reflexivity. Qed.

(** The size that [calibrate] passes for a two-dimensional image is the
    image's size as OpenCV counts it; the pair that [undistort] passes
    by default is that size only for a square image. *)
Lemma reversed_shape_is_image_size {A} (g : np.ndarray A) rows cols :
  np.shape g = [rows; cols] ->
  cv2.Size_of_tuple (tuple_of_shape (rev (np.shape g)))
  = Ret (cv2.image_size g).
Proof. unfold cv2.image_size. intros ->. reflexivity. Qed.

Lemma default_size_is_image_size_iff {A} (a : np.ndarray A) rows cols rest :
  np.shape a = rows :: cols :: rest ->
  cv2.Size_of_tuple (tuple_of_shape (firstn 2 (np.shape a)))
  = Ret (cv2.image_size a) <-> rows = cols.
Proof.
  unfold cv2.image_size. intros ->. cbn. split.
  - intros [= H1 H2]. lia.
  - intros ->. reflexivity.
Qed.

End Undistort_properties.

Section Persistence_properties.
Context {fl : Floating} {cv : OpenCV} {pk : Pickle}.

Lemma snapshot_run self w Kv Dv :
  heap w !! _K self = Some Kv -> heap w !! _D self = Some Dv ->
  snapshot self w
  = (Ret (mkPickled (_nx self) (_ny self) (_verbose self) Kv Dv), w).
Proof.
  intros HK HD. unfold snapshot.
  rewrite (mbind_Ret _ _ _ _ _ (deref_run _ _ w HK)).
  rewrite (mbind_Ret _ _ _ _ _ (deref_run _ _ w HD)). reflexivity.
Qed.

(** A [save] that returns has put the pickled object in the file and has
    changed no array. *)
Lemma save_inv self filename w w1 Kv Dv :
  heap w !! _K self = Some Kv -> heap w !! _D self = Some Dv ->
  save self filename w = (Ret tt, w1) ->
  exists b,
    pickle_dump (mkPickled (_nx self) (_ny self) (_verbose self) Kv Dv)
    = Ret b
    /\ files w1 !! filename = Some (Some b)
    /\ heap w1 = heap w.
Proof.
  intros HK HD. unfold save. rewrite mbind_log.
  destruct (writable filename); [|discriminate].
  unfold mbind at 1, write_file at 1.
  set (w0 := set_files _ _).
  rewrite (mbind_Ret _ _ _ _ _ (snapshot_run self w0 Kv Dv HK HD)).
  unfold mbind, lift, write_file.
  destruct (pickle_dump _) as [b|]; [|discriminate].
  intros [= <-]. exists b. split; [reflexivity|]. split; [|reflexivity].
  cbn. apply lookup_insert_eq.
Qed.

(** C9.  Let [pickle.load] give back what [pickle.dump] was given.  Then
    loading the file that a successful [save] wrote gives a new object
    with the same [nx], [ny] and verbosity, whose arrays [_K] and [_D]
    are new and hold the same contents as the saved object's; the saved
    object is unchanged.  [load_model] is [load]. *)
Theorem save_load_roundtrip self filename w w1 :
  model_ok w self ->
  (forall obj b, pickle_dump obj = Ret b -> pickle_load b = Ret obj) ->
  save self filename w = (Ret tt, w1) ->
  exists self' w2,
    load filename w1 = (Ret self', w2)
    /\ load_model filename w1 = (Ret self', w2)
    /\ _nx self' = _nx self /\ _ny self' = _ny self
    /\ _verbose self' = _verbose self
    /\ heap w2 !! _K self' = heap w !! _K self
    /\ heap w2 !! _D self' = heap w !! _D self
    /\ heap w !! _K self' = None /\ heap w !! _D self' = None
    /\ model_ok w2 self'
    /\ heap w2 !! _K self = heap w !! _K self
    /\ heap w2 !! _D self = heap w !! _D self.
Proof.
  intros ([Kv HK] & [Dv HD] & Hne) Hlaw Hsave.
  destruct (save_inv self filename w w1 Kv Dv HK HD Hsave)
    as (b & Hdump & Hfile & Hheap).
  apply Hlaw in Hdump.
  set (K' := fresh (dom (heap w1))).
  set (h1 := <[K' := Kv]> (heap w1)).
  set (D' := fresh (dom h1)).
  assert (HK' : heap w1 !! K' = None) by apply (alloc_fresh Kv w1).
  assert (HD' : h1 !! D' = None) by (apply not_elem_of_dom, is_fresh).
  assert (HKD : K' <> D').
  { intros Heq. rewrite <- Heq in HD'. unfold h1 in HD'.
    rewrite lookup_insert_eq in HD'. discriminate. }
  assert (HDw : heap w1 !! D' = None).
  { unfold h1 in HD'. rewrite lookup_insert_ne in HD' by exact HKD.
    exact HD'. }
  exists (mkFishEye (_nx self) (_ny self) (_verbose self) K' D').
  exists (mkWorld (<[D' := Dv]> h1) (files w1)
            (trace w1 ++ [Ev_open filename "rb"])).
  assert (Hload :
            load filename w1
            = (Ret (mkFishEye (_nx self) (_ny self) (_verbose self) K' D'),
               mkWorld (<[D' := Dv]> h1) (files w1)
                 (trace w1 ++ [Ev_open filename "rb"]))).
  { unfold load. rewrite mbind_log.
    unfold mbind at 1, read_file at 1. cbn [files add_event].
    rewrite Hfile. unfold mbind at 1, lift at 1. rewrite Hdump.
    reflexivity. }
  rewrite Hheap in *.
  split; [exact Hload|]. split; [exact Hload|].
  cbn [_nx _ny _verbose _K _D heap].
  do 3 (split; [reflexivity|]).
  assert (HKnew : <[D' := Dv]> h1 !! K' = Some Kv).
  { rewrite lookup_insert_ne by congruence. apply lookup_insert_eq. }
  assert (HDnew : <[D' := Dv]> h1 !! D' = Some Dv) by apply lookup_insert_eq.
  split; [congruence|]. split; [congruence|].
  split; [exact HK'|]. split; [exact HDw|]. split.
  { unfold model_ok. cbn [_K _D heap]. rewrite HKnew, HDnew. eauto. }
  split.
  - unfold h1. rewrite !lookup_insert_ne by congruence.
    rewrite Hheap. reflexivity.
  - unfold h1. rewrite !lookup_insert_ne by congruence.
    rewrite Hheap. reflexivity.
Qed.

End Persistence_properties.

(** ** Well-built objects

    [model_ok] is what the constructor establishes and what every method
    keeps. *)

Section Invariant.
Context {fl : Floating} {cv : OpenCV} {pk : Pickle}.

Lemma init_model_ok nx ny verbose w :
  exists self w',
    __init__ nx ny verbose w = (Ret self, w')
    /\ model_ok w' self
    /\ _nx self = nx /\ _ny self = ny /\ _verbose self = verbose
    /\ heap w' !! _K self = Some (np.zeros [3; 3] np.float64)
    /\ heap w' !! _D self = Some (np.zeros [4; 1] np.float64)
    /\ heap w !! _K self = None /\ heap w !! _D self = None.
Proof.
  set (K := fresh (dom (heap w))).
  set (h1 := <[K := np.zeros [3; 3] np.float64]> (heap w)).
  set (D := fresh (dom h1)).
  assert (HK : heap w !! K = None) by apply (alloc_fresh (np.zeros [] np.float64) w).
  assert (HD : h1 !! D = None) by (apply not_elem_of_dom, is_fresh).
  assert (HKD : K <> D).
  { intros Heq. rewrite <- Heq in HD. unfold h1 in HD.
    rewrite lookup_insert_eq in HD. discriminate. }
  exists (mkFishEye nx ny verbose K D).
  exists (mkWorld (<[D := np.zeros [4; 1] np.float64]> h1) (files w) (trace w)).
  split; [reflexivity|]. cbn [_nx _ny _verbose _K _D heap].
  assert (HKnew : <[D := np.zeros [4; 1] np.float64]> h1 !! K
                  = Some (np.zeros [3; 3] np.float64)).
  { rewrite lookup_insert_ne by congruence. apply lookup_insert_eq. }
  assert (HDnew : <[D := np.zeros [4; 1] np.float64]> h1 !! D
                  = Some (np.zeros [4; 1] np.float64))
    by apply lookup_insert_eq.
  split.
  { exact (conj (ex_intro _ _ HKnew) (conj (ex_intro _ _ HDnew) HKD)). }
  do 3 (split; [reflexivity|]).
  split; [exact HKnew|]. split; [exact HDnew|]. split; [exact HK|].
  unfold h1 in HD. rewrite lookup_insert_ne in HD by exact HKD. exact HD.
Qed.

Lemma calibrate_preserves_model_ok self paths um mi eps show w r w' :
  model_ok w self ->
  calibrate self paths um mi eps show w = (r, w') ->
  model_ok w' self.
Proof.
  intros Hok Hrun. pose proof Hok as (HK & HD & Hne).
  apply calibrate_cases in Hrun as [Hearly|Hreached]; [| |exact Hok].
  - destruct Hearly as (e & evs & _ & _ & _ & _ & _ & Hlive).
    unfold model_ok. rewrite !Hlive by assumption. exact Hok.
  - destruct Hreached
      as (vars & evs & g & size & Kv & Dv & K0 & D0 & rvecs0 & tvecs0
          & _ & _ & _ & _ & HKv & HDv & _ & _ & _ & _ & _ & _ & _ & Hnew
          & Hmode & HKout & HDout & _ & _ & Hframe).
    unfold model_ok. destruct um.
    + destruct Hmode as [-> ->]. rewrite HKout, HDout. eauto.
    + destruct Hmode as [HK0 HD0].
      assert (Hout : forall l, is_Some (heap w !! l) ->
                       l ∉ K0 :: D0 :: rvecs0 ++ tvecs0).
      { intros l [v Hv] Hmem.
        apply elem_of_cons in Hmem as [->|Hmem]; [congruence|].
        apply elem_of_cons in Hmem as [->|Hmem]; [congruence|].
        apply Hnew in Hmem. congruence. }
      rewrite !Hframe by (apply Hout; assumption). exact Hok.
Qed.

Lemma undistort_preserves_model_ok self img size R K w :
  model_ok w self ->
  model_ok (snd (undistort self img size R K w)) self.
Proof.
  intros Hok. destruct (undistort self img size R K w) as [r w'] eqn:Hrun.
  apply quiet_undistort in Hrun as (Hh & _). unfold model_ok in *.
  cbn [snd]. rewrite Hh. exact Hok.
Qed.

End Invariant.

(** * The properties on the concrete environment *)

(** [FishEye(3, 2)] builds the object [self0] in the state [world1], and
    the object is well built. *)
Lemma init_fixture :
  Fixture.init0 = (Ret Fixture.self0,
                   mkWorld (heap Fixture.world1) ∅ []).
Proof. vm_compute. reflexivity. Qed.

Lemma model_ok_fixture : model_ok Fixture.world1 Fixture.self0.
Proof.
  unfold model_ok. split; [|split].
  - eexists. vm_compute. reflexivity.
  - eexists. vm_compute. reflexivity.
  - discriminate.
Defined.

(** C1 on two runs over one good image: the trial run leaves the stored
    [_K] as it was; the updating run returns [_K] itself, which then holds
    the matrix that the optimizer produced. *)
Lemma calibrate_update_model_witness :
  model_ok Fixture.world1 Fixture.self0
  /\ heap (snd (Fixture.run_calibrate ["board.png"%string] false))
       !! _K Fixture.self0
     = heap Fixture.world1 !! _K Fixture.self0
  /\ Fixture.run_calibrate ["board.png"%string] true
     = (Ret ((5, -1)%Z, _K Fixture.self0, _D Fixture.self0,
             [3%positive], [4%positive]),
        snd (Fixture.run_calibrate ["board.png"%string] true))
  /\ heap (snd (Fixture.run_calibrate ["board.png"%string] true))
       !! _K Fixture.self0
     = Some Fixture.toy_K.
Proof.
  pose proof (@calibrate_update_model Fixture.decimal Fixture.toy_cv
                Fixture.toy_pickle Fixture.self0 ["board.png"%string] 30%Z
                (1, -6)%Z false Fixture.world1 model_ok_fixture)
    as [Hupdate Htrial].
  assert (Hrun :
            Fixture.run_calibrate ["board.png"%string] true
            = (Ret ((5, -1)%Z, _K Fixture.self0, _D Fixture.self0,
                    [3%positive], [4%positive]),
               snd (Fixture.run_calibrate ["board.png"%string] true)))
    by (vm_compute; reflexivity).
  split; [exact model_ok_fixture|].
  split; [exact (proj1 (Htrial _ _ (surjective_pairing _)))|].
  split; [exact Hrun|].
  destruct (Hupdate _ _ _ _ _ _ Hrun)
    as (_ & _ & objp & imgp & size & Kv & Dv & rv & tv & crit & _ & _ & _
        & Hret & HK & _).
  refine (eq_trans HK _). destruct objp; [discriminate Hret|reflexivity].
Defined.

(** C2 on a run over three images, two of which show the chessboard: two
    buffers of each kind come back. *)
Lemma calibrate_returns_witness :
  model_ok Fixture.world1 Fixture.self0
  /\ Fixture.run_calibrate ["board.png"; "black.png"; "tall.png"]%string true
     = (Ret ((5, -1)%Z, 1%positive, 2%positive,
             [3%positive; 4%positive], [5%positive; 6%positive]),
        snd (Fixture.run_calibrate
               ["board.png"; "black.png"; "tall.png"]%string true))
  /\ @detected Fixture.decimal Fixture.toy_cv Fixture.self0
       ["board.png"; "black.png"; "tall.png"]%string = 2.
Proof.
  assert (Hrun :
            Fixture.run_calibrate
              ["board.png"; "black.png"; "tall.png"]%string true
            = (Ret ((5, -1)%Z, 1%positive, 2%positive,
                    [3%positive; 4%positive], [5%positive; 6%positive]),
               snd (Fixture.run_calibrate
                      ["board.png"; "black.png"; "tall.png"]%string true)))
    by (vm_compute; reflexivity).
  split; [exact model_ok_fixture|]. split; [exact Hrun|].
  destruct (@calibrate_returns Fixture.decimal Fixture.toy_cv
              Fixture.toy_pickle Fixture.self0
              ["board.png"; "black.png"; "tall.png"]%string true 30%Z
              (1, -6)%Z false Fixture.world1 _ _ _ _ _ _ model_ok_fixture Hrun)
    as (objp & imgp & size & Kv & Dv & rv & tv & crit & _ & _ & _ & _ & _
        & Hlen & _).
  symmetry. exact Hlen.
Defined.

(** C3 on a run over one black image: the call raises. *)
Lemma calibrate_no_detection_witness :
  model_ok Fixture.world1 Fixture.self0
  /\ (forall size Kv Dv flags crit,
         is_Ret (co_ret (Fixture.toy_fisheye_calibrate [] [] size Kv Dv [] []
                           flags crit)) = false)
  /\ Forall (fun fname =>
               @detection Fixture.decimal Fixture.toy_cv Fixture.self0 fname
               <> Some true) ["black.png"%string]
  /\ is_Ret (fst (Fixture.run_calibrate ["black.png"%string] true)) = false.
Proof.
  assert (Hopt : forall size Kv Dv flags crit,
             is_Ret (co_ret (Fixture.toy_fisheye_calibrate [] [] size Kv Dv
                               [] [] flags crit)) = false)
    by (intros; reflexivity).
  assert (Hnone : Forall (fun fname =>
                            @detection Fixture.decimal Fixture.toy_cv
                              Fixture.self0 fname <> Some true)
                    ["black.png"%string])
    by (repeat constructor; vm_compute; discriminate).
  split; [exact model_ok_fixture|]. split; [exact Hopt|].
  split; [exact Hnone|].
  destruct (@calibrate_no_detection Fixture.decimal Fixture.toy_cv
              Fixture.toy_pickle Fixture.self0 ["black.png"%string] true 30%Z
              (1, -6)%Z false Fixture.world1 model_ok_fixture Hopt Hnone)
    as (e & w' & Hrun & _).
  unfold Fixture.run_calibrate. rewrite Hrun. reflexivity.
Defined.

(** The hypothesis of C3 on the optimizer cannot be dropped: the module
    has no check of its own for an empty data set.  With an optimizer that
    accepts one, the run over the black image returns. *)
Lemma calibrate_relies_on_optimizer :
  is_Ret
    (fst (@calibrate Fixture.decimal Fixture.lenient_cv Fixture.toy_pickle
            Fixture.self0 ["black.png"%string] true 30%Z (1, -6)%Z false
            Fixture.world1))
  = true.
Proof. vm_compute. reflexivity. Qed.

(** C4 on two states: before and after a trial calibration, [undistort]
    gives the same image. *)
Lemma undistort_pure_witness :
  let w := Fixture.world1 in
  let w2 := snd (Fixture.run_calibrate ["board.png"%string] false) in
  let run :=
    @undistort Fixture.decimal Fixture.toy_cv Fixture.toy_pickle
      Fixture.self0 (Fixture.img 2 3 7) None None None in
  heap w2 !! _K Fixture.self0 = heap w !! _K Fixture.self0
  /\ heap w2 !! _D Fixture.self0 = heap w !! _D Fixture.self0
  /\ fst (run w2) = fst (run w).
Proof.
  intros w w2 run.
  assert (HK : heap w2 !! _K Fixture.self0 = heap w !! _K Fixture.self0)
    by (vm_compute; reflexivity).
  assert (HD : heap w2 !! _D Fixture.self0 = heap w !! _D Fixture.self0)
    by (vm_compute; reflexivity).
  split; [exact HK|]. split; [exact HD|].
  exact (proj1
           (@undistort_pure Fixture.decimal Fixture.toy_cv Fixture.toy_pickle
              Fixture.self0 (Fixture.img 2 3 7) None None None w w2 HK HD)).
Defined.

(** C6 on the black image. *)
Lemma calibrate_skips_failed_detection_witness :
  @detection Fixture.decimal Fixture.toy_cv Fixture.self0 "black.png"
  = Some false
  /\ exists g evs,
      @calibrate_body Fixture.decimal Fixture.toy_cv Fixture.toy_pickle
        Fixture.self0 false (mkLocals [] None) "black.png" Fixture.world1
      = (Ret (mkLocals [] (Some g)),
         mkWorld (heap Fixture.world1) (files Fixture.world1)
           (trace Fixture.world1 ++ evs)).
Proof.
  assert (Hd : @detection Fixture.decimal Fixture.toy_cv Fixture.self0
                 "black.png" = Some false) by (vm_compute; reflexivity).
  split; [exact Hd|].
  destruct (@calibrate_skips_failed_detection Fixture.decimal Fixture.toy_cv
              Fixture.toy_pickle Fixture.self0 false (mkLocals [] None)
              "black.png" [] Fixture.world1 Hd)
    as (g & evs & _ & Hbody & _).
  exists g, evs. exact Hbody.
Defined.


(** C8, as the code has it, on the image with a chessboard, with the
    refiner of the concrete environment, which leaves every corner where
    it is: six corners go in, six come out, in the same order. *)
Lemma subpix_refinement_witness :
  let run :=
    @calibrate_body Fixture.decimal Fixture.toy_cv Fixture.toy_pickle
      Fixture.self0 false (mkLocals [] None) "board.png" Fixture.world1 in
  @refiner_keeps_corners Fixture.decimal Fixture.toy_cv
    (fun _ _ _ _ p => p)
  /\ run = (Ret (@mkLocals Fixture.decimal [Fixture.corners]
                   (Some (Fixture.gray_img 2 3))), snd run)
  /\ @detection Fixture.decimal Fixture.toy_cv Fixture.self0 "board.png"
     = Some true
  /\ exists g coarse refined appended evs,
      trace (snd run) = trace Fixture.world1 ++ evs
      /\ @Ev_cornerSubPix Fixture.decimal g coarse subpix_winSize
           subpix_zeroZone (@subpix_criteria Fixture.decimal) ∈ evs
      /\ exists corners,
          coarse = Some corners
          /\ @corner_count Fixture.decimal refined
             = @corner_count Fixture.decimal corners
          /\ @corner_count Fixture.decimal appended
             = @corner_count Fixture.decimal corners.
Proof.
  intros run.
  assert (Hrefiner : @refiner_keeps_corners Fixture.decimal Fixture.toy_cv
                       (fun _ _ _ _ p => p)).
  { split; [reflexivity|].
    intros g c winSize zeroZone criteria refined [= <-].
    split; [reflexivity|]. intros k p Hp. exact Hp. }
  assert (Hrun : run = (Ret (@mkLocals Fixture.decimal [Fixture.corners]
                               (Some (Fixture.gray_img 2 3))), snd run))
    by (vm_compute; reflexivity).
  assert (Hd : @detection Fixture.decimal Fixture.toy_cv Fixture.self0
                 "board.png" = Some true) by (vm_compute; reflexivity).
  split; [exact Hrefiner|]. split; [exact Hrun|]. split; [exact Hd|].
  destruct (@subpix_refinement Fixture.decimal Fixture.toy_cv
              Fixture.toy_pickle Fixture.self0 false (mkLocals [] None)
              "board.png" Fixture.world1 _ _ _ Hrefiner Hrun Hd)
    as (g & coarse & refined & appended & evs & _ & _ & Ht & Hev & _ & _ & _
        & _ & _ & _ & _ & _ & _ & _ & corners & Hsome & _ & Hc1 & Hc2 & _).
  exists g, coarse, refined, appended, evs.
  split; [exact Ht|]. split; [exact Hev|].
  exists corners. split; [exact Hsome|]. split; [exact Hc1|exact Hc2].
Defined.

(** C8 as the specification words it fails: the window in which the
    refiner searches is not 11 by 11 pixels.  In the run on the image with
    a chessboard the refiner is called with [winSize = (11, 11)], a window
    of 23 by 23 pixels. *)
Lemma subpix_window_counterexample :
  exists g coarse winSize zeroZone criteria,
    @Ev_cornerSubPix Fixture.decimal g coarse winSize zeroZone criteria
    ∈ trace (snd (Fixture.run_calibrate ["board.png"%string] true))
    /\ cv2.search_window winSize <> (11, 11)%Z.
Proof.
  exists (Fixture.gray_img 2 3), (Some (Fixture.toy_corners 6)), subpix_winSize,
    subpix_zeroZone, (@subpix_criteria Fixture.decimal).
  split.
  - apply list_elem_of_In. vm_compute.
    repeat (first [left; reflexivity | right]).
  - vm_compute. discriminate.
Qed.

(** C9 on the concrete pickle. *)
Lemma save_load_roundtrip_witness :
  let saved :=
    @save Fixture.decimal Fixture.toy_pickle Fixture.self0 "model.pkl"
      Fixture.world1 in
  model_ok Fixture.world1 Fixture.self0
  /\ (forall obj b,
         @pickle_dump Fixture.decimal Fixture.toy_pickle obj = Ret b ->
         @pickle_load Fixture.decimal Fixture.toy_pickle b = Ret obj)
  /\ saved = (Ret tt, snd saved)
  /\ exists self' w2,
      @load_model Fixture.decimal Fixture.toy_pickle "model.pkl" (snd saved)
      = (Ret self', w2)
      /\ heap w2 !! _K self' = heap Fixture.world1 !! _K Fixture.self0
      /\ heap w2 !! _D self' = heap Fixture.world1 !! _D Fixture.self0.
Proof.
  intros saved.
  assert (Hlaw : forall obj b,
             @pickle_dump Fixture.decimal Fixture.toy_pickle obj = Ret b ->
             @pickle_load Fixture.decimal Fixture.toy_pickle b = Ret obj)
    by (intros obj b [= <-]; reflexivity).
  assert (Hsave : saved = (Ret tt, snd saved)) by (vm_compute; reflexivity).
  split; [exact model_ok_fixture|]. split; [exact Hlaw|].
  split; [exact Hsave|].
  destruct (@save_load_roundtrip Fixture.decimal Fixture.toy_pickle
              Fixture.self0 "model.pkl" Fixture.world1 (snd saved)
              model_ok_fixture Hlaw Hsave)
    as (self' & w2 & _ & Hload & _ & _ & _ & HK & HD & _).
  exists self', w2. split; [exact Hload|]. split; [exact HK|exact HD].
Defined.

(** C10 on a run over two images of different sizes: the run goes through,
    and the size handed to the optimizer, 2 wide and 4 high, is that of the
    last image, of 4 rows and 2 columns. *)
Lemma calibrate_image_size_witness :
  let paths := ["board.png"; "tall.png"]%string in
  let run := Fixture.run_calibrate paths true in
  model_ok Fixture.world1 Fixture.self0
  /\ trace (snd run) = trace Fixture.world1 ++ trace (snd run)
  /\ Fixture.mixed_call ∈ trace (snd run)
  /\ is_Ret (fst run) = true
  /\ exists pre fname g,
      paths = pre ++ [fname]
      /\ @gray_of Fixture.decimal Fixture.toy_cv fname = Ret g
      /\ cv2.Size_of_tuple (tuple_of_shape (rev (np.shape g)))
         = Ret (cv2.mkSize 2 4).
Proof.
  intros paths run.
  assert (Ht : trace (snd run) = trace Fixture.world1 ++ trace (snd run))
    by reflexivity.
  assert (He : Fixture.mixed_call ∈ trace (snd run)).
  { apply last_Some_elem_of. vm_compute. reflexivity. }
  split; [exact model_ok_fixture|]. split; [exact Ht|]. split; [exact He|].
  split; [vm_compute; reflexivity|].
  exact (@calibrate_image_size Fixture.decimal Fixture.toy_cv
           Fixture.toy_pickle Fixture.self0 paths true 30%Z (1, -6)%Z false
           Fixture.world1 _ _ _ _ _ _ _ _ _ _ _ _ model_ok_fixture
           (surjective_pairing _) Ht He).
Defined.

(** C5 at a 2 by 3 image with the optional arguments omitted.  [undistort]
    passes the identity as [R] and the stored [_K] as target matrix; as
    size it passes [(2, 3)], which OpenCV reads as 2 wide and 3 high,
    whereas the image is 3 wide and 2 high.  [calibrate], on an image of
    the same shape, passes the size 3 wide and 2 high. *)
Theorem undistort_default_size_transposed :
  let image := Fixture.img 2 3 7 in
  let run :=
    @undistort Fixture.decimal Fixture.toy_cv Fixture.toy_pickle
      Fixture.self0 image None None None Fixture.world1 in
  np.shape image = [2; 3; 3]
  /\ cv2.image_size image = cv2.mkSize 3 2
  /\ (exists evs,
         trace (snd run)
         = @Ev_initUndistortRectifyMap Fixture.decimal
             (@np.zeros Fixture.decimal [3; 3] np.float64)
             (@np.zeros Fixture.decimal [4; 1] np.float64)
             (@np.eye Fixture.decimal 3)
             (@np.zeros Fixture.decimal [3; 3] np.float64)
             (cv2.mkSize 2 3) cv2.CV_16SC2 :: evs)
  /\ cv2.mkSize 2 3 <> cv2.image_size image
  /\ (exists out, fst run = Ret out /\ np.shape out = [3; 2; 3])
  /\ exists objp imgp Kv Dv rv tv flags crit,
      last (trace (snd (Fixture.run_calibrate ["board.png"%string] true)))
      = Some (@Ev_fisheye_calibrate Fixture.decimal objp imgp
                (cv2.mkSize 3 2) Kv Dv rv tv flags crit).
Proof.
  intros image run.
  split; [reflexivity|]. split; [reflexivity|]. split.
  { eexists. vm_compute. reflexivity. }
  split; [vm_compute; discriminate|]. split.
  { eexists. split; vm_compute; reflexivity. }
  do 8 eexists. vm_compute. reflexivity.
Qed.

(** * Further properties of the module *)

(** ** The verbosity flag *)

Section Verbosity.
Context {fl : Floating} {cv : OpenCV} {pk : Pickle}.

Lemma silent_app (t1 t2 : list event) :
  silent (t1 ++ t2) = silent t1 ++ silent t2.
Proof. unfold silent. apply filter_app. Qed.

Lemma agree_refl (w : world) : agree w w.
Proof. repeat split. Qed.

Lemma agree_event (e : event) (w1 w2 : world) :
  agree w1 w2 -> agree (add_event e w1) (add_event e w2).
Proof.
  intros (Hh & Hf & Ht). unfold agree, add_event. cbn [heap files trace].
  rewrite !silent_app, Ht. auto.
Qed.

Lemma agree_print_l (s : string) (w1 w2 : world) :
  agree w1 w2 -> agree (add_event (Ev_print s) w1) w2.
Proof.
  intros (Hh & Hf & Ht). unfold agree, add_event. cbn [heap files trace].
  rewrite silent_app, Ht. split; [exact Hh|]. split; [exact Hf|].
  apply app_nil_r.
Qed.

Lemma agree_print_r (s : string) (w1 w2 : world) :
  agree w1 w2 -> agree w1 (add_event (Ev_print s) w2).
Proof.
  intros (Hh & Hf & Ht). unfold agree, add_event. cbn [heap files trace].
  rewrite silent_app, Ht. split; [exact Hh|]. split; [exact Hf|].
  symmetry. apply app_nil_r.
Qed.

Lemma sim_mret {A} (a : A) : sim (mret a) (mret a).
Proof. intros w1 w2 Ha. split; [reflexivity|exact Ha]. Qed.

Lemma sim_mraise {A} (e : exn) : sim (@mraise _ _ A e) (mraise e).
Proof. intros w1 w2 Ha. split; [reflexivity|exact Ha]. Qed.

Lemma sim_lift {A} (r : result A) : sim (lift r) (lift r).
Proof. intros w1 w2 Ha. split; [reflexivity|exact Ha]. Qed.

Lemma sim_log (e : event) : sim (log e) (log e).
Proof.
  intros w1 w2 Ha. split; [reflexivity|]. apply agree_event. exact Ha.
Qed.

Lemma sim_when_print (b1 b2 : bool) (s : string) :
  sim (when b1 (log (Ev_print s))) (when b2 (log (Ev_print s))).
Proof.
  intros w1 w2 Ha. destruct b1, b2; cbn; (split; [reflexivity|]).
  - apply agree_event. exact Ha.
  - apply agree_print_l. exact Ha.
  - apply agree_print_r. exact Ha.
  - exact Ha.
Qed.

Lemma sim_when (b : bool) (c1 c2 : M unit) :
  sim c1 c2 -> sim (when b c1) (when b c2).
Proof. destruct b; cbn; [trivial|intros _; apply sim_mret]. Qed.

Lemma sim_mbind {A B} (c1 c2 : M A) (k1 k2 : A -> M B) :
  sim c1 c2 -> (forall a, sim (k1 a) (k2 a)) -> sim (mbind c1 k1) (mbind c2 k2).
Proof.
  intros Hc Hk w1 w2 Ha. unfold mbind.
  destruct (Hc w1 w2 Ha) as [Hr Ha'].
  destruct (c1 w1) as [r1 w1'], (c2 w2) as [r2 w2']. cbn [fst snd] in *.
  subst r2. destruct r1 as [a|e]; [apply Hk; exact Ha'|].
  split; [reflexivity|exact Ha'].
Qed.

Lemma sim_alloc (a : farray) : sim (alloc a) (alloc a).
Proof.
  intros w1 w2 (Hh & Hf & Ht). unfold alloc, agree, set_heap.
  cbn [fst snd heap files trace]. rewrite Hh. auto.
Qed.

Lemma sim_deref (l : loc) : sim (deref l) (deref l).
Proof.
  intros w1 w2 Ha. pose proof Ha as (Hh & _). unfold deref. rewrite Hh.
  destruct (heap w2 !! l); (split; [reflexivity|exact Ha]).
Qed.

Lemma sim_store (l : loc) (a : farray) : sim (store l a) (store l a).
Proof.
  intros w1 w2 (Hh & Hf & Ht). unfold store, agree, set_heap.
  cbn [fst snd heap files trace]. rewrite Hh. auto.
Qed.

Lemma sim_alloc_list (n : nat) (a : farray) :
  sim (alloc_list n a) (alloc_list n a).
Proof.
  induction n as [|n IH]; cbn [alloc_list]; [apply sim_mret|].
  apply sim_mbind; [apply sim_alloc|]. intros l.
  apply sim_mbind; [exact IH|]. intros ls. apply sim_mret.
Qed.

Lemma sim_deref_list (ls : list loc) : sim (deref_list ls) (deref_list ls).
Proof.
  induction ls as [|l ls IH]; cbn [deref_list]; [apply sim_mret|].
  apply sim_mbind; [apply sim_deref|]. intros a.
  apply sim_mbind; [exact IH|]. intros rest. apply sim_mret.
Qed.

Lemma sim_store_list (ls : list loc) (vs : list farray) :
  sim (store_list ls vs) (store_list ls vs).
Proof.
  revert vs. induction ls as [|l ls IH]; intros [|v vs]; cbn [store_list];
    try apply sim_mret.
  apply sim_mbind; [apply sim_store|]. intros _. apply IH.
Qed.

Lemma sim_for_each {A B} (b1 b2 : A -> B -> M A) (xs : list B) :
  (forall a x, sim (b1 a x) (b2 a x)) ->
  forall a, sim (for_each b1 xs a) (for_each b2 xs a).
Proof.
  intros Hb. induction xs as [|x xs IH]; intros a; cbn [for_each].
  - apply sim_mret.
  - apply sim_mbind; [apply Hb|exact IH].
Qed.

End Verbosity.

(** Relates two computations of the same shape step by step. *)
Ltac sim_steps :=
  repeat first
    [ apply sim_mret | apply sim_mraise | apply sim_lift | apply sim_log
    | apply sim_when_print | apply sim_alloc | apply sim_deref
    | apply sim_store | apply sim_alloc_list | apply sim_deref_list
    | apply sim_store_list
    | apply sim_when
    | apply sim_mbind; [|intros ?]
    | match goal with
      | |- sim (let (_, _) := ?a in _) _ => destruct a
      | |- sim (if ?b then _ else _) _ => destruct b
      | |- sim (match ?k with Some _ => _ | None => _ end) _ => destruct k
      end ].

Section Verbosity_theorem.
Context {fl : Floating} {cv : OpenCV} {pk : Pickle}.

Lemma sim_calibrate_body self b show vars fname :
  sim (calibrate_body self show vars fname)
      (calibrate_body (set_verbose b self) show vars fname).
Proof.
  unfold calibrate_body. cbn [set_verbose _nx _ny _verbose]. sim_steps.
Qed.

Lemma sim_calibrate self b paths um mi eps show :
  sim (calibrate self paths um mi eps show)
      (calibrate (set_verbose b self) paths um mi eps show).
Proof.
  unfold calibrate, calibrate_loop, calibrate_finish, select_buffers,
    calibrate_invoke, call_fisheye_calibrate.
  cbn [set_verbose _nx _ny _K _D].
  sim_steps.
  apply sim_for_each. intros vars fname. apply sim_calibrate_body.
Qed.

(** X1.  The verbosity flag only adds progress messages: from the same
    state, [calibrate] on an object and on the same object with any other
    verbosity gives the same result (return value or exception), the same
    arrays, the same files, and the same calls of the libraries in the
    same order once the [print] calls are left out. *)
Theorem verbose_only_prints self b img_paths update_model max_iter eps
    show_imgs w :
  let run1 := calibrate self img_paths update_model max_iter eps show_imgs w in
  let run2 :=
    calibrate (set_verbose b self) img_paths update_model max_iter eps
      show_imgs w in
  fst run1 = fst run2
  /\ heap (snd run1) = heap (snd run2)
  /\ files (snd run1) = files (snd run2)
  /\ silent (trace (snd run1)) = silent (trace (snd run2)).
Proof.
  exact (sim_calibrate self b img_paths update_model max_iter eps show_imgs
           w w (agree_refl w)).
Qed.

End Verbosity_theorem.

(** ** The loop, file by file *)

Section Loop_files.
Context {fl : Floating} {cv : OpenCV} {pk : Pickle}.

Lemma imread_calls_app (t1 t2 : list event) :
  imread_calls (t1 ++ t2) = imread_calls t1 ++ imread_calls t2.
Proof. unfold imread_calls. apply omap_app. Qed.

Lemma setup_event_imread_free self evs :
  Forall (fun e => setup_event self e /\ forall f, e <> Ev_imread f) evs ->
  imread_calls evs = [].
Proof.
  induction 1 as [|e evs [_ He] _ IH]; [reflexivity|].
  unfold imread_calls in *. cbn [omap list_omap]. rewrite IH.
  destruct e; try reflexivity. exfalso. eapply He. reflexivity.
Qed.

(** Whatever a pass does, it has read its file, once. *)
Lemma calibrate_body_reads self show vars fname w r w' :
  calibrate_body self show vars fname w = (r, w') ->
  exists evs, trace w' = trace w ++ evs /\ imread_calls evs = [fname].
Proof.
  unfold calibrate_body, mbind, lift, log, when, mret.
  destruct (_verbose self), show;
    repeat match goal with
      | |- context [match ?x with Ret _ => _ | Raise _ => _ end] =>
          destruct x
      | |- context [let (_, _) := ?x in _] => destruct x
      | |- context [if ?b then _ else _] => destruct b
      end;
    intros [= <- <-]; unfold add_event; cbn [trace];
    rewrite <- ?app_assoc; eexists; (split; [reflexivity|reflexivity]).
Qed.

(** The files are read in the order of [img_paths], each once, up to the
    file at which the loop stops. *)
Lemma calibrate_loop_reads self show paths vars w r w' :
  calibrate_loop self show paths vars w = (r, w') ->
  exists evs,
    trace w' = trace w ++ evs
    /\ imread_calls evs `prefix_of` paths
    /\ (is_Ret r = true -> imread_calls evs = paths).
Proof.
  revert vars w. induction paths as [|f rest IH]; intros vars w Hrun.
  - injection Hrun as <- <-. exists []. rewrite app_nil_r.
    split; [reflexivity|]. split; [reflexivity|]. reflexivity.
  - rewrite calibrate_loop_cons in Hrun.
    apply mbind_inv in Hrun as [(v1 & w1 & Hbody & Hrest)|(e & Hbody & ->)].
    + apply calibrate_body_reads in Hbody as (evs1 & Ht1 & Hc1).
      apply IH in Hrest as (evs2 & Ht2 & Hp2 & Hall2).
      exists (evs1 ++ evs2). rewrite imread_calls_app, Hc1.
      split; [rewrite Ht2, Ht1, app_assoc; reflexivity|].
      split; [apply prefix_cons; exact Hp2|].
      intros Hr. cbn [app]. f_equal. apply Hall2. exact Hr.
    + apply calibrate_body_reads in Hbody as (evs1 & Ht1 & Hc1).
      exists evs1. rewrite Hc1. split; [exact Ht1|].
      split; [exists rest; reflexivity|]. discriminate.
Qed.

Lemma corner_set_found self fname g c refined r :
  gray_of fname = Ret g ->
  findChessboardCorners g
    (cv2.mkSize (Z.of_nat (_nx self)) (Z.of_nat (_ny self)))
    chessboard_flags = Ret (true, c) ->
  cornerSubPix g c subpix_winSize subpix_zeroZone subpix_criteria
  = Ret refined ->
  np.reshape refined [1; -1; 2]%Z = Ret r ->
  corner_set self fname = Some r.
Proof.
  unfold corner_set. intros -> -> -> ->. reflexivity.
Qed.

Lemma corner_set_not_found self fname g c :
  gray_of fname = Ret g ->
  findChessboardCorners g
    (cv2.mkSize (Z.of_nat (_nx self)) (Z.of_nat (_ny self)))
    chessboard_flags = Ret (false, c) ->
  corner_set self fname = None.
Proof.
  unfold corner_set. intros -> ->. reflexivity.
Qed.

(** A loop that runs to its end has dealt with every file: each one was
    either found without a chessboard, or its corners were found and
    refined; the corner sets are appended in the order of the files. *)
Lemma calibrate_loop_corner_sets self show paths vars w vars' w' :
  calibrate_loop self show paths vars w = (Ret vars', w') ->
  chess_2Dpts_list vars'
  = chess_2Dpts_list vars ++ omap (corner_set self) paths
  /\ Forall (fun f => detection self f = Some false
                      \/ is_Some (corner_set self f)) paths.
Proof.
  revert vars w. induction paths as [|f rest IH]; intros vars w Hrun.
  - injection Hrun as <- <-. cbn. rewrite app_nil_r. split; constructor.
  - rewrite calibrate_loop_cons in Hrun.
    apply mbind_inv in Hrun as [(v1 & w1 & Hbody & Hrest)|(e & _ & He)];
      [|discriminate].
    apply calibrate_body_inv in Hbody as (g & b & c & Hg & Hf & _ & Hb).
    destruct (IH v1 w1 Hrest) as (Hlist & Hall).
    pose proof (detection_of_results self f g b c Hg Hf) as Hdet.
    destruct b.
    + destruct Hb as (refined & r & evs & Hc & Hr & Hchess & _).
      pose proof (corner_set_found self f g c refined r Hg Hf Hc Hr) as Hcs.
      split.
      * rewrite Hlist, Hchess. cbn [omap list_omap]. rewrite Hcs.
        rewrite <- app_assoc. reflexivity.
      * constructor; [right; rewrite Hcs; eauto|exact Hall].
    + pose proof (corner_set_not_found self f g c Hg Hf) as Hcs.
      split.
      * rewrite Hlist, Hb. cbn [omap list_omap]. rewrite Hcs. reflexivity.
      * constructor; [left; exact Hdet|exact Hall].
Qed.

End Loop_files.

(** ** A run of [calibrate], from the loop to the optimizer *)

Section Run_structure.
Context {fl : Floating} {cv : OpenCV} {pk : Pickle}.

(** [calibrate] with the display calls around the loop written out. *)
Lemma calibrate_split_windows self paths um mi eps (show : bool) w :
  let evs0 :=
    if show
    then [Ev_namedWindow "success img" cv2.WINDOW_NORMAL;
          Ev_namedWindow "fail img" cv2.WINDOW_NORMAL]
    else [] in
  calibrate self paths um mi eps show w
  = match calibrate_loop self show paths (mkLocals [] None)
            (mkWorld (heap w) (files w) (trace w ++ evs0)) with
    | (Ret vars, w1) =>
        calibrate_finish self (chessboard_array (_nx self) (_ny self))
          um mi eps vars
          (mkWorld (heap w1) (files w1)
             (trace w1 ++ if show then [Ev_destroyAllWindows] else []))
    | (Raise e, w1) => (Raise e, w1)
    end.
Proof.
  intros evs0. subst evs0. unfold calibrate. rewrite chessboard_model_eq.
  rewrite mbind_lift_Ret. destruct show; cbn [when].
  - unfold mbind at 1. unfold mbind at 1, log at 1. unfold mbind at 1, log at 1.
    unfold add_event at 1 2. cbn [heap files trace].
    rewrite <- app_assoc. cbn [app].
    unfold mbind at 1.
    destruct (calibrate_loop _ _ _ _ _) as [[vars|e] w1]; reflexivity.
  - rewrite mbind_mret, app_nil_r, world_eta. unfold mbind at 1.
    destruct (calibrate_loop _ _ _ _ _) as [[vars|e] w1];
      [|reflexivity].
    rewrite mbind_mret, app_nil_r, world_eta. reflexivity.
Qed.

(** A run of [calibrate] on a well-built object, taken apart: the windows
    are opened, the loop runs, and what follows the loop reads no file and
    calls the optimizer, if at all, on the corner sets that the loop has
    collected. *)
Lemma calibrate_run_inv self paths um mi eps show w r w' :
  model_ok w self ->
  calibrate self paths um mi eps show w = (r, w') ->
  exists w0 evs0 rl w1 evs1 tail,
    trace w0 = trace w ++ evs0
    /\ Forall (setup_event self) evs0 /\ imread_calls evs0 = []
    /\ calibrate_loop self show paths (mkLocals [] None) w0 = (rl, w1)
    /\ trace w1 = trace w0 ++ evs1 /\ Forall (setup_event self) evs1
    /\ trace w' = trace w1 ++ tail
    /\ imread_calls tail = []
    /\ (is_Ret rl = false -> tail = [] /\ is_Ret r = false)
    /\ (forall e, e ∈ tail -> is_optimizer_call e = true ->
          exists vars size Kv Dv rv tv,
            rl = Ret vars
            /\ e = Ev_fisheye_calibrate
                     (replicate (length (chess_2Dpts_list vars))
                        (chessboard_array (_nx self) (_ny self)))
                     (chess_2Dpts_list vars) size Kv Dv rv tv calibrate_flags
                     (mkTermCriteria
                        (cv2.TERM_CRITERIA_EPS + cv2.TERM_CRITERIA_MAX_ITER)%Z
                        mi eps)).
Proof.
  intros ([Kv HK] & [Dv HD] & Hne) Hrun.
  rewrite calibrate_split_windows in Hrun. cbv zeta in Hrun.
  set (evs0 := if show then [_; _] else []) in Hrun.
  set (w0 := mkWorld (heap w) (files w) (trace w ++ evs0)) in Hrun.
  assert (Hev0 : Forall (setup_event self) evs0).
  { subst evs0. destruct show; repeat constructor. }
  assert (Hrd0 : imread_calls evs0 = []).
  { subst evs0. destruct show; reflexivity. }
  destruct (calibrate_loop self show paths (mkLocals [] None) w0)
    as [rl w1] eqn:Hloop.
  pose proof (quiet_calibrate_loop _ _ _ _ _ _ _ Hloop)
    as (Hh1 & Hf1 & evs1 & Ht1 & Hev1).
  exists w0, evs0, rl, w1, evs1.
  destruct rl as [vars|e].
  2:{ injection Hrun as <- <-. exists [].
      split; [reflexivity|]. split; [exact Hev0|]. split; [exact Hrd0|].
      split; [exact Hloop|]. split; [exact Ht1|]. split; [exact Hev1|].
      split; [rewrite app_nil_r; reflexivity|]. split; [reflexivity|].
      split; [intros _; split; reflexivity|].
      intros e0 He0. exfalso. eapply elem_of_nil. exact He0. }
  set (pre := if show then [Ev_destroyAllWindows] else []) in Hrun.
  set (w2 := mkWorld (heap w1) (files w1) (trace w1 ++ pre)) in Hrun.
  assert (Hrdp : imread_calls pre = []).
  { subst pre. destruct show; reflexivity. }
  assert (Hprenot : forall e0, e0 ∈ pre -> is_optimizer_call e0 = true -> False).
  { subst pre. intros e0 He0 Hopt. destruct show.
    - apply list_elem_of_singleton in He0. subst e0. discriminate.
    - eapply elem_of_nil. exact He0. }
  assert (HK2 : heap w2 !! _K self = Some Kv).
  { cbn [w2 heap]. rewrite Hh1. exact HK. }
  assert (HD2 : heap w2 !! _D self = Some Dv).
  { cbn [w2 heap]. rewrite Hh1. exact HD. }
  destruct (calibrate_finish_buffers self
              (chessboard_array (_nx self) (_ny self)) um mi eps vars w2
              Kv Dv HK2 HD2 Hne)
    as (K & D & rvecs & tvecs & h' & Hfin & Hlr & Hlt & Hnd & Hnew & HK'
        & HD' & _).
  rewrite Hfin in Hrun. clear Hfin. cbn [w2 files trace] in Hrun.
  destruct (gray vars) as [g|] eqn:Hg.
  2:{ rewrite calibrate_invoke_unbound in Hrun by exact Hg.
      injection Hrun as <- <-. exists pre.
      split; [reflexivity|]. split; [exact Hev0|]. split; [exact Hrd0|].
      split; [exact Hloop|]. split; [exact Ht1|]. split; [exact Hev1|].
      split; [reflexivity|]. split; [exact Hrdp|].
      split; [discriminate|].
      intros e0 He0 Hopt. exfalso. eapply Hprenot; eassumption. }
  destruct (cv2.Size_of_tuple (tuple_of_shape (rev (np.shape g))))
    as [size|e] eqn:Hsize.
  2:{ rewrite (calibrate_invoke_bad_size _ _ _ _ _ _ _ _ _ g e Hg Hsize)
        in Hrun.
      injection Hrun as <- <-. exists pre.
      split; [reflexivity|]. split; [exact Hev0|]. split; [exact Hrd0|].
      split; [exact Hloop|]. split; [exact Ht1|]. split; [exact Hev1|].
      split; [reflexivity|]. split; [exact Hrdp|].
      split; [discriminate|].
      intros e0 He0 Hopt. exfalso. eapply Hprenot; eassumption. }
  set (n := length (chess_2Dpts_list vars)) in *.
  set (z := np.zeros [1; 1; 3] np.float64) in *.
  assert (Hrv : Forall2 (fun l v => h' !! l = Some v) rvecs (replicate n z)).
  { apply Forall2_replicate_r; [exact Hlr|]. apply Forall_forall.
    intros l Hl. apply Hnew, elem_of_app. left. exact Hl. }
  assert (Htv : Forall2 (fun l v => h' !! l = Some v) tvecs (replicate n z)).
  { apply Forall2_replicate_r; [exact Hlt|]. apply Forall_forall.
    intros l Hl. apply Hnew, elem_of_app. right. exact Hl. }
  destruct (calibrate_invoke_run (chessboard_array (_nx self) (_ny self))
              mi eps vars K D rvecs tvecs
              (mkWorld h' (files w1) (trace w1 ++ pre)) g size Kv Dv
              (replicate n z) (replicate n z) Hg Hsize HK' HD' Hrv Htv Hnd)
    as (h'' & Hinv & _).
  rewrite Hinv in Hrun. clear Hinv. injection Hrun as <- <-.
  cbn [heap files trace] in *. fold n. fold z.
  eexists (pre ++ [_]).
  split; [reflexivity|]. split; [exact Hev0|]. split; [exact Hrd0|].
  split; [exact Hloop|]. split; [exact Ht1|]. split; [exact Hev1|].
  split; [rewrite app_assoc; reflexivity|]. split.
  { rewrite imread_calls_app, Hrdp. reflexivity. }
  split; [discriminate|].
  intros e0 He0 Hopt. apply elem_of_app in He0 as [He0|He0].
  { exfalso. eapply Hprenot; eassumption. }
  apply list_elem_of_singleton in He0. subst e0.
  exists vars, size, Kv, Dv, (replicate n z), (replicate n z).
  split; reflexivity.
Qed.

(** The call of the optimizer in a run comes after a loop that has run to
    its end, and is made on the corner sets that this loop collected. *)
Lemma calibrate_optimizer_loop self paths um mi eps show w r w' evs
    objp imgp size Kv Dv rv tv flags crit :
  model_ok w self ->
  calibrate self paths um mi eps show w = (r, w') ->
  trace w' = trace w ++ evs ->
  Ev_fisheye_calibrate objp imgp size Kv Dv rv tv flags crit ∈ evs ->
  exists w0 vars w1,
    calibrate_loop self show paths (mkLocals [] None) w0 = (Ret vars, w1)
    /\ imgp = chess_2Dpts_list vars.
Proof.
  intros Hok Hrun Ht He.
  destruct (calibrate_run_inv _ _ _ _ _ _ _ _ _ Hok Hrun)
    as (w0 & evs0 & rl & w1 & evs1 & tail & Ht0 & Hev0 & _ & Hloop & Ht1
        & Hev1 & Ht2 & _ & _ & Htail).
  rewrite Ht2, Ht1, Ht0, <- !app_assoc in Ht. apply app_inv_head in Ht.
  subst evs. rewrite !elem_of_app in He. destruct He as [He|[He|He]].
  - rewrite Forall_forall in Hev0. apply Hev0 in He. contradiction.
  - rewrite Forall_forall in Hev1. apply Hev1 in He. contradiction.
  - destruct (Htail _ He eq_refl)
      as (vars & size0 & Kv0 & Dv0 & rv0 & tv0 & -> & Heq).
    injection Heq as _ -> _ _ _ _ _ _ _.
    exists w0, vars, w1. split; [exact Hloop|reflexivity].
Qed.

End Run_structure.

(** ** [calibrate] and the files it is given *)

Section Calibrate_files.
Context {fl : Floating} {cv : OpenCV} {pk : Pickle}.

(** X2.  Whenever [calibrate] calls the optimizer, the image points it
    passes are the corner sets of the files of [img_paths], in the order
    of [img_paths]: for each file on which the chessboard is found, the
    refined corners reshaped to [(1, -1, 2)], and nothing for a file on
    which it is not found.  By then every file has been dealt with: for
    each one either detection has said no, or its corner set has been
    computed. *)
Theorem calibrate_image_points self img_paths update_model max_iter eps
    show_imgs w r w' evs objp imgp size Kv Dv rv tv flags crit :
  model_ok w self ->
  calibrate self img_paths update_model max_iter eps show_imgs w = (r, w') ->
  trace w' = trace w ++ evs ->
  Ev_fisheye_calibrate objp imgp size Kv Dv rv tv flags crit ∈ evs ->
  imgp = omap (corner_set self) img_paths
  /\ Forall (fun f => detection self f = Some false
                      \/ is_Some (corner_set self f)) img_paths.
Proof.
  intros Hok Hrun Ht He.
  destruct (calibrate_optimizer_loop _ _ _ _ _ _ _ _ _ _ _ _ _ _ _ _ _ _ _
              Hok Hrun Ht He) as (w0 & vars & w1 & Hloop & ->).
  apply calibrate_loop_corner_sets in Hloop as [Hlist Hall].
  split; [exact Hlist|exact Hall].
Qed.

(** X3.  A file is skipped only when detection says that it shows no
    chessboard.  If [img_paths] holds a file that fails in any other way
    (it cannot be read or converted, the detector raises, or the refiner
    or the reshaping of its result raises), the call of [calibrate]
    raises without having called the optimizer, and leaves the files and
    every array that existed before as they were, also with
    [update_model=True]. *)
Theorem calibrate_stops_at_failing_file self img_paths update_model max_iter
    eps show_imgs w fname :
  model_ok w self ->
  fname ∈ img_paths ->
  detection self fname <> Some false ->
  corner_set self fname = None ->
  exists e w' evs,
    calibrate self img_paths update_model max_iter eps show_imgs w
    = (Raise e, w')
    /\ trace w' = trace w ++ evs
    /\ Forall (fun ev => is_optimizer_call ev = false) evs
    /\ files w' = files w
    /\ (forall l, is_Some (heap w !! l) -> heap w' !! l = heap w !! l).
Proof.
  intros Hok Hin Hdet Hcs.
  destruct (calibrate self img_paths update_model max_iter eps show_imgs w)
    as [r w'] eqn:Hrun.
  pose proof (calibrate_cases _ _ _ _ _ _ _ _ _ Hok Hrun) as [Hearly|Hopt].
  - destruct Hearly as (e & evs & -> & _ & Ht & Hev & Hf & Hlive).
    exists e, w', evs. split; [reflexivity|]. split; [exact Ht|].
    split; [|split; assumption].
    eapply Forall_impl; [exact Hev|]. apply setup_event_not_optimizer.
  - exfalso.
    destruct Hopt
      as (vars & evs & g & size & Kv & Dv & K0 & D0 & rvecs0 & tvecs0
          & _ & _ & _ & _ & _ & _ & _ & Ht & _).
    cbv zeta in Ht.
    assert (He : Ev_fisheye_calibrate
                   (replicate (length (chess_2Dpts_list vars))
                      (chessboard_array (_nx self) (_ny self)))
                   (chess_2Dpts_list vars) size Kv Dv
                   (replicate (length (chess_2Dpts_list vars))
                      (np.zeros [1; 1; 3] np.float64))
                   (replicate (length (chess_2Dpts_list vars))
                      (np.zeros [1; 1; 3] np.float64))
                   calibrate_flags
                   (mkTermCriteria
                      (cv2.TERM_CRITERIA_EPS + cv2.TERM_CRITERIA_MAX_ITER)%Z
                      max_iter eps)
                 ∈ evs ++ [Ev_fisheye_calibrate
                   (replicate (length (chess_2Dpts_list vars))
                      (chessboard_array (_nx self) (_ny self)))
                   (chess_2Dpts_list vars) size Kv Dv
                   (replicate (length (chess_2Dpts_list vars))
                      (np.zeros [1; 1; 3] np.float64))
                   (replicate (length (chess_2Dpts_list vars))
                      (np.zeros [1; 1; 3] np.float64))
                   calibrate_flags
                   (mkTermCriteria
                      (cv2.TERM_CRITERIA_EPS + cv2.TERM_CRITERIA_MAX_ITER)%Z
                      max_iter eps)]).
    { apply elem_of_app. right. apply list_elem_of_singleton. reflexivity. }
    destruct (calibrate_optimizer_loop _ _ _ _ _ _ _ _ _ _ _ _ _ _ _ _ _ _ _
                Hok Hrun Ht He) as (w0 & vars0 & w1 & Hloop & _).
    apply calibrate_loop_corner_sets in Hloop as [_ Hall].
    rewrite Forall_forall in Hall.
    destruct (Hall fname Hin) as [Hno|[c Hc]]; congruence.
Qed.

(** X4.  [calibrate] reads the files of [img_paths] in order, one read
    per entry, and no other file: the files read in a run are an initial
    part of [img_paths].  They are all of [img_paths] when the run
    returns, and whenever it has called the optimizer. *)
Theorem calibrate_reads_in_order self img_paths update_model max_iter eps
    show_imgs w r w' evs :
  model_ok w self ->
  calibrate self img_paths update_model max_iter eps show_imgs w = (r, w') ->
  trace w' = trace w ++ evs ->
  imread_calls evs `prefix_of` img_paths
  /\ (is_Ret r = true \/ (exists e, e ∈ evs /\ is_optimizer_call e = true) ->
      imread_calls evs = img_paths).
Proof.
  intros Hok Hrun Ht.
  destruct (calibrate_run_inv _ _ _ _ _ _ _ _ _ Hok Hrun)
    as (w0 & evs0 & rl & w1 & evs1 & tail & Ht0 & Hev0 & Hrd0 & Hloop & Ht1
        & Hev1 & Ht2 & Hrd2 & Hraise & Htail).
  rewrite Ht2, Ht1, Ht0, <- !app_assoc in Ht. apply app_inv_head in Ht.
  subst evs. rewrite !imread_calls_app, Hrd0, Hrd2, app_nil_r. cbn [app].
  apply calibrate_loop_reads in Hloop as (evs1' & Ht1' & Hpre & Hall).
  rewrite Ht1 in Ht1'. apply app_inv_head in Ht1'. subst evs1'.
  split; [exact Hpre|].
  intros Hend. apply Hall. destruct rl as [vars|e0]; [reflexivity|].
  destruct (Hraise eq_refl) as [-> Hr]. destruct Hend as [Hret|(e & He & Hopt)].
  - congruence.
  - rewrite app_nil_r in He. apply elem_of_app in He as [He|He].
    + rewrite Forall_forall in Hev0. apply Hev0 in He.
      apply setup_event_not_optimizer in He. congruence.
    + rewrite Forall_forall in Hev1. apply Hev1 in He.
      apply setup_event_not_optimizer in He. congruence.
Qed.

End Calibrate_files.

(** ** [calibrate]: what the optimizer is given, and what is left alone *)

Section Calibrate_frame.
Context {fl : Floating} {cv : OpenCV} {pk : Pickle}.

(** X5.  Whatever the mode and however the run ends, the optimizer is
    called at most once, as the last call of the run.  It is started on
    the contents that the object's [_K] and [_D] had before the call, on
    one zero rotation and one zero translation of shape [(1, 1, 3)] per
    corner set, with the three flags [CALIB_RECOMPUTE_EXTRINSIC],
    [CALIB_CHECK_COND] and [CALIB_FIX_SKEW] and no other bit set, and
    with the termination criteria made of the arguments [max_iter] and
    [eps]. *)
Theorem calibrate_optimizer_inputs self img_paths update_model max_iter eps
    show_imgs w r w' evs objp imgp size Kv Dv rv tv flags crit :
  model_ok w self ->
  calibrate self img_paths update_model max_iter eps show_imgs w = (r, w') ->
  trace w' = trace w ++ evs ->
  Ev_fisheye_calibrate objp imgp size Kv Dv rv tv flags crit ∈ evs ->
  heap w !! _K self = Some Kv /\ heap w !! _D self = Some Dv
  /\ rv = replicate (length imgp) zero_pose
  /\ tv = replicate (length imgp) zero_pose
  /\ flags = Z.lor (Z.lor cv2.fisheye.CALIB_RECOMPUTE_EXTRINSIC
                      cv2.fisheye.CALIB_CHECK_COND)
               cv2.fisheye.CALIB_FIX_SKEW
  /\ crit = mkTermCriteria
              (Z.lor cv2.TERM_CRITERIA_EPS cv2.TERM_CRITERIA_MAX_ITER)
              max_iter eps
  /\ exists pre,
      evs = pre ++ [Ev_fisheye_calibrate objp imgp size Kv Dv rv tv flags
                      crit]
      /\ Forall (fun e => is_optimizer_call e = false) pre.
Proof.
  intros Hok Hrun Ht He.
  apply calibrate_cases in Hrun as [Hearly|Hreached]; [| |exact Hok].
  - exfalso. destruct Hearly as (e0 & evs0 & _ & _ & Ht0 & Hev & _).
    rewrite Ht in Ht0. apply app_inv_head in Ht0. subst evs0.
    rewrite Forall_forall in Hev. apply Hev in He. contradiction.
  - destruct Hreached
      as (vars & evs0 & g & size0 & Kv0 & Dv0 & K0 & D0 & rvecs0 & tvecs0
          & _ & _ & _ & _ & HK & HD & Hev & Ht0 & _).
    cbv zeta in Ht0. rewrite Ht in Ht0. apply app_inv_head in Ht0.
    subst evs. apply elem_of_app in He as [He|He].
    { exfalso. rewrite Forall_forall in Hev. apply Hev in He.
      contradiction. }
    apply list_elem_of_singleton in He.
    injection He as -> -> -> -> -> -> -> -> ->.
    split; [exact HK|]. split; [exact HD|].
    split; [reflexivity|]. split; [reflexivity|].
    split; [reflexivity|]. split; [reflexivity|].
    exists evs0. split; [reflexivity|].
    eapply Forall_impl; [exact Hev|]. apply setup_event_not_optimizer.
Qed.

(** X6.  A call of [calibrate] writes no file and frees no array.  The
    only arrays that existed before the call and that it may change are
    the object's own [_K] and [_D]: the arrays of another object, and
    the buffers returned by an earlier call, keep their contents.  As
    long as the optimizer has not been called, [_K] and [_D] are
    unchanged too. *)
Theorem calibrate_frame self img_paths update_model max_iter eps show_imgs
    w r w' evs :
  model_ok w self ->
  calibrate self img_paths update_model max_iter eps show_imgs w = (r, w') ->
  trace w' = trace w ++ evs ->
  files w' = files w
  /\ (forall l, is_Some (heap w !! l) -> is_Some (heap w' !! l))
  /\ (forall l, is_Some (heap w !! l) -> l <> _K self -> l <> _D self ->
        heap w' !! l = heap w !! l)
  /\ (Forall (fun e => is_optimizer_call e = false) evs ->
      forall l, is_Some (heap w !! l) -> heap w' !! l = heap w !! l).
Proof.
  intros Hok Hrun Ht.
  apply calibrate_cases in Hrun as [Hearly|Hreached]; [| |exact Hok].
  - destruct Hearly as (e0 & evs0 & _ & _ & _ & _ & Hf & Hlive).
    split; [exact Hf|]. split.
    { intros l Hl. rewrite Hlive by exact Hl. exact Hl. }
    split; [intros l Hl _ _; apply Hlive; exact Hl|].
    intros _ l Hl. apply Hlive. exact Hl.
  - destruct Hreached
      as (vars & evs0 & g & size0 & Kv0 & Dv0 & K0 & D0 & rvecs0 & tvecs0
          & _ & _ & _ & _ & HK & HD & Hev & Ht0 & Hf & _ & _ & _ & _ & Hnew
          & Hmode & HKout & HDout & _ & _ & Hframe).
    cbv zeta in Ht0, HKout, HDout.
    assert (Hother : forall l, is_Some (heap w !! l) ->
                       l <> _K self -> l <> _D self ->
                       l ∉ K0 :: D0 :: rvecs0 ++ tvecs0).
    { intros l [v Hv] HlK HlD Hmem.
      apply elem_of_cons in Hmem as [->|Hmem].
      { destruct update_model; destruct Hmode; congruence. }
      apply elem_of_cons in Hmem as [->|Hmem].
      { destruct update_model; destruct Hmode; congruence. }
      apply Hnew in Hmem. congruence. }
    split; [exact Hf|]. split.
    { intros l Hl.
      destruct (decide (l = _K self)) as [->|HlK].
      { destruct update_model.
        - destruct Hmode as [<- _]. rewrite HKout. eauto.
        - destruct Hmode as [HK0 HD0].
          rewrite Hframe; [exact Hl|]. intros Hmem.
          apply elem_of_cons in Hmem as [Heq|Hmem]; [congruence|].
          apply elem_of_cons in Hmem as [Heq|Hmem]; [congruence|].
          apply Hnew in Hmem. congruence. }
      destruct (decide (l = _D self)) as [->|HlD].
      { destruct update_model.
        - destruct Hmode as [_ <-]. rewrite HDout. eauto.
        - destruct Hmode as [HK0 HD0].
          rewrite Hframe; [exact Hl|]. intros Hmem.
          apply elem_of_cons in Hmem as [Heq|Hmem]; [congruence|].
          apply elem_of_cons in Hmem as [Heq|Hmem]; [congruence|].
          apply Hnew in Hmem. congruence. }
      rewrite Hframe by (apply Hother; assumption). exact Hl. }
    split.
    { intros l Hl HlK HlD. apply Hframe, Hother; assumption. }
    intros Hnone. exfalso.
    rewrite Ht in Ht0. apply app_inv_head in Ht0. subst evs.
    apply Forall_app in Hnone as [_ Hlast].
    apply Forall_cons in Hlast as [Hlast _]. discriminate Hlast.
Qed.

(** X7.  The buffers that a returning call hands back are pairwise
    distinct arrays: [K], [D], and one rotation and one translation
    buffer per corner set, none of which is shared with another (the
    lists of poses are built by comprehension, not by repetition).  The
    pose buffers did not exist before the call. *)
Theorem calibrate_buffers_distinct self img_paths update_model max_iter eps
    show_imgs w rms K D rvecs tvecs w' :
  model_ok w self ->
  calibrate self img_paths update_model max_iter eps show_imgs w
  = (Ret (rms, K, D, rvecs, tvecs), w') ->
  NoDup (K :: D :: rvecs ++ tvecs)
  /\ (forall l, l ∈ rvecs ++ tvecs -> heap w !! l = None)
  /\ (_K self ∉ rvecs ++ tvecs) /\ (_D self ∉ rvecs ++ tvecs).
Proof.
  intros Hok Hrun. pose proof Hok as ([Kv HK] & [Dv HD] & _).
  apply calibrate_cases in Hrun as [(e & evs & Hr & _)|Hopt];
    [discriminate| |exact Hok].
  destruct Hopt
    as (vars & evs & g & size & Kv0 & Dv0 & K0 & D0 & rvecs0 & tvecs0
        & _ & _ & _ & _ & _ & _ & _ & _ & _ & Hr & _ & _ & Hnd & Hnew & _).
  symmetry in Hr. apply result_map_Ret_inv in Hr as (rms0 & _ & Heq).
  injection Heq as -> -> -> -> ->.
  split; [exact Hnd|]. split; [exact Hnew|].
  split; intros Hmem; apply Hnew in Hmem; congruence.
Qed.

End Calibrate_frame.

(** ** [projectPoints] *)

Section ProjectPoints_properties.
Context {fl : Floating} {cv : OpenCV} {pk : Pickle}.

Lemma zero_pose_reshape :
  np.reshape (np.zeros [3] np.float64) [1; 1; 3]%Z = Ret zero_pose.
Proof. reflexivity. Qed.

(** [projectPoints] on live arrays, step by step. *)
Lemma projectPoints_run self pts skew w Kv Dv :
  heap w !! _K self = Some Kv -> heap w !! _D self = Some Dv ->
  let pts3 :=
    if Nat.eqb (np.ndim pts) 2 then np.expand_dims0 pts else pts in
  projectPoints self pts skew w
  = (result_map (fun out => np.squeeze (fst out))
       (fisheye_projectPoints pts3 zero_pose zero_pose Kv Dv skew),
     add_event (Ev_projectPoints pts3 zero_pose zero_pose Kv Dv skew) w).
Proof.
  intros HK HD pts3. unfold projectPoints. fold pts3.
  rewrite zero_pose_reshape, !mbind_lift_Ret.
  rewrite (mbind_Ret _ _ _ _ _ (deref_run _ _ w HK)).
  rewrite (mbind_Ret _ _ _ _ _ (deref_run _ _ w HD)).
  rewrite mbind_log. unfold mbind, lift, mret.
  destruct (fisheye_projectPoints _ _ _ _ _ _) as [[ip jac]|e]; reflexivity.
Qed.

Lemma quiet_projectPoints self pts skew :
  quiet (fun _ => True) (projectPoints self pts skew).
Proof.
  unfold projectPoints. quiet_steps.
Qed.

Lemma projectPoints_depends self pts skew w w2 :
  heap w2 !! _K self = heap w !! _K self ->
  heap w2 !! _D self = heap w !! _D self ->
  fst (projectPoints self pts skew w2) = fst (projectPoints self pts skew w).
Proof.
  intros HK HD. unfold projectPoints.
  rewrite zero_pose_reshape, !mbind_lift_Ret.
  unfold mbind, deref, lift, log, mret.
  destruct (heap w !! _K self) as [Kv|] eqn:HKw;
    destruct (heap w !! _D self) as [Dv|] eqn:HDw;
    repeat (rewrite ?HK, ?HD, ?HKw, ?HDw; cbn [heap add_event fst]);
    try reflexivity.
  destruct (fisheye_projectPoints _ _ _ _ _ _) as [[ip jac]|e]; reflexivity.
Qed.

(** X8.  [projectPoints] projects in the camera's own frame: the library
    is called once, with the rotation and the translation both zero (of
    shape [(1, 1, 3)]), with the contents of the object's [_K] and [_D],
    and with [skew] as [alpha].  The call changes no array and no file,
    and its result is determined by the contents of [_K] and [_D] and by
    its arguments. *)
Theorem projectPoints_camera_frame self object_points skew w w2 Kv Dv :
  heap w !! _K self = Some Kv -> heap w !! _D self = Some Dv ->
  heap w2 !! _K self = Some Kv -> heap w2 !! _D self = Some Dv ->
  let run := projectPoints self object_points skew in
  (exists pts3,
      trace (snd (run w))
      = trace w ++ [Ev_projectPoints pts3 zero_pose zero_pose Kv Dv skew]
      /\ np.data pts3 = np.data object_points
      /\ np.data zero_pose = [float_lit 0 0; float_lit 0 0; float_lit 0 0])
  /\ heap (snd (run w)) = heap w
  /\ files (snd (run w)) = files w
  /\ fst (run w2) = fst (run w).
Proof.
  intros HK HD HK2 HD2 run. subst run.
  rewrite (projectPoints_run self object_points skew w Kv Dv HK HD).
  cbv zeta. cbn [snd fst add_event trace heap files].
  split.
  { eexists. split; [reflexivity|]. split; [|reflexivity].
    destruct (Nat.eqb _ 2); reflexivity. }
  split; [reflexivity|]. split; [reflexivity|].
  rewrite (projectPoints_run self object_points skew w2 Kv Dv HK2 HD2).
  reflexivity.
Qed.

(** X9.  The points may be given as an array of shape [(n, 3)] or of
    shape [(1, n, 3)]: both forms reach the library as the array of
    shape [(1, n, 3)] and give the same result. *)
Theorem projectPoints_accepts_2d self object_points skew w n :
  np.shape object_points = [n; 3] ->
  let expanded := np.expand_dims0 object_points in
  np.shape expanded = [1; n; 3]
  /\ projectPoints self object_points skew w
     = projectPoints self expanded skew w
  /\ forall pts rvec tvec K D alpha,
      Ev_projectPoints pts rvec tvec K D alpha
      ∈ trace (snd (projectPoints self object_points skew w)) ->
      Ev_projectPoints pts rvec tvec K D alpha ∈ trace w
      \/ pts = expanded.
Proof.
  intros Hs expanded.
  assert (Hshape : np.shape expanded = [1; n; 3]).
  { subst expanded. unfold np.expand_dims0. cbn [np.shape]. rewrite Hs.
    reflexivity. }
  split; [exact Hshape|].
  assert (Hsame : projectPoints self object_points skew w
                  = projectPoints self expanded skew w).
  { unfold projectPoints, np.ndim. rewrite Hshape, Hs. reflexivity. }
  split; [exact Hsame|].
  intros pts rvec tvec K D alpha. unfold projectPoints, np.ndim.
  rewrite Hs. cbn [length Nat.eqb]. fold expanded.
  rewrite zero_pose_reshape, !mbind_lift_Ret.
  unfold mbind, deref, lift, log, mret.
  destruct (heap w !! _K self) as [Kv|]; [|left; assumption].
  destruct (heap w !! _D self) as [Dv|]; [|left; assumption].
  cbn [heap add_event].
  destruct (fisheye_projectPoints _ _ _ _ _ _) as [[ip jac]|e];
    cbn [snd trace]; intros [Hin|Hin]%elem_of_app;
    try (left; exact Hin);
    apply list_elem_of_singleton in Hin; injection Hin as -> _ _ _ _ _;
    right; reflexivity.
Qed.

(** X10.  The result is the library's array of image points with its
    axes of length one removed.  When the library answers [n] points as
    an array of shape [(1, n, 2)], the result has shape [(n, 2)] for
    [n] other than one, and shape [(2,)] for a single point; the numbers
    are those of the library, in the same order. *)
Theorem projectPoints_result_shape self object_points skew w out w' :
  projectPoints self object_points skew w = (Ret out, w') ->
  exists pts3 rvec tvec Kv Dv image_points jacobian,
    fisheye_projectPoints pts3 rvec tvec Kv Dv skew
    = Ret (image_points, jacobian)
    /\ np.data out = np.data image_points
    /\ np.dt out = np.dt image_points
    /\ forall n, np.shape image_points = [1; n; 2] ->
         np.shape out = if Nat.eqb n 1 then [2] else [n; 2].
Proof.
  unfold projectPoints. rewrite zero_pose_reshape, !mbind_lift_Ret.
  unfold mbind, deref, lift, log, mret.
  destruct (heap w !! _K self) as [Kv|]; [|discriminate].
  destruct (heap w !! _D self) as [Dv|]; [|discriminate].
  cbn [heap add_event].
  destruct (fisheye_projectPoints _ _ _ _ _ _) as [[ip jac]|e] eqn:Hcall;
    [|discriminate].
  intros [= <- <-]. do 5 eexists. exists ip, jac.
  split; [exact Hcall|]. split; [reflexivity|]. split; [reflexivity|].
  intros n Hn. unfold np.squeeze. cbn [np.shape]. rewrite Hn.
  rewrite !filter_cons, filter_nil.
  destruct (decide (1 <> 1)) as [Habs|_]; [contradiction|].
  destruct (decide (2 <> 1)) as [_|Habs]; [|exfalso; apply Habs; lia].
  destruct (Nat.eqb_spec n 1) as [->|Hne].
  - destruct (decide (1 <> 1)) as [Habs|_]; [contradiction|reflexivity].
  - destruct (decide (n <> 1)) as [_|Habs]; [reflexivity|contradiction].
Qed.

End ProjectPoints_properties.

(** ** [save] and [load] on their own *)

Section Persistence_frame.
Context {fl : Floating} {cv : OpenCV} {pk : Pickle}.

(** A [load] that finds a pickled object in the file: the object comes
    back in two new arrays. *)
Lemma load_run filename w b obj :
  files w !! filename = Some (Some b) ->
  pickle_load b = Ret obj ->
  exists K' D' h',
    load filename w
    = (Ret (mkFishEye (p_nx obj) (p_ny obj) (p_verbose obj) K' D'),
       mkWorld h' (files w) (trace w ++ [Ev_open filename "rb"]))
    /\ K' <> D'
    /\ heap w !! K' = None /\ heap w !! D' = None
    /\ h' !! K' = Some (p_K obj) /\ h' !! D' = Some (p_D obj)
    /\ (forall l, l <> K' -> l <> D' -> h' !! l = heap w !! l).
Proof.
  intros Hfile Hload.
  set (K' := fresh (dom (heap w))).
  set (h1 := <[K' := p_K obj]> (heap w)).
  set (D' := fresh (dom h1)).
  assert (HK' : heap w !! K' = None) by apply (alloc_fresh (p_K obj) w).
  assert (HD' : h1 !! D' = None) by (apply not_elem_of_dom, is_fresh).
  assert (HKD : K' <> D').
  { intros Heq. rewrite <- Heq in HD'. unfold h1 in HD'.
    rewrite lookup_insert_eq in HD'. discriminate. }
  assert (HDw : heap w !! D' = None).
  { unfold h1 in HD'. rewrite lookup_insert_ne in HD' by exact HKD.
    exact HD'. }
  exists K', D', (<[D' := p_D obj]> h1). split.
  { unfold load. rewrite mbind_log.
    unfold mbind at 1, read_file at 1. cbn [files add_event].
    rewrite Hfile. unfold mbind at 1, lift at 1. rewrite Hload.
    reflexivity. }
  split; [exact HKD|]. split; [exact HK'|]. split; [exact HDw|].
  split.
  { rewrite lookup_insert_ne by congruence. apply lookup_insert_eq. }
  split; [apply lookup_insert_eq|].
  intros l HlK HlD. unfold h1.
  rewrite !lookup_insert_ne by congruence. reflexivity.
Qed.

(** What a [load] that returns has found in the file. *)
Lemma load_inv filename w self' w' :
  load filename w = (Ret self', w') ->
  exists b obj,
    files w !! filename = Some (Some b) /\ pickle_load b = Ret obj.
Proof.
  unfold load. rewrite mbind_log. unfold mbind at 1, read_file at 1.
  cbn [files add_event].
  destruct (files w !! filename) as [[b|]|] eqn:Hfile;
    [|discriminate|discriminate].
  unfold mbind at 1, lift at 1.
  destruct (pickle_load b) as [obj|] eqn:Hobj; [|discriminate].
  intros _. exists b, obj. split; [reflexivity|exact Hobj].
Qed.

(** X11.  [save] touches one file and nothing else: however it ends, no
    array changes, every other file keeps its contents, and the only
    call that leaves the process is the opening of [filename] for
    writing.  When the file cannot be opened for writing, the call
    raises and the files are as before. *)
Theorem save_touches_one_file self filename w r w1 :
  save self filename w = (r, w1) ->
  heap w1 = heap w
  /\ trace w1 = trace w ++ [Ev_open filename "wb"]
  /\ (forall f, f <> filename -> files w1 !! f = files w !! f)
  /\ (writable filename = false -> files w1 = files w /\ is_Ret r = false).
Proof.
  unfold save. rewrite mbind_log.
  destruct (writable filename) eqn:Hw.
  - unfold mbind at 1, write_file at 1.
    unfold snapshot, mbind, deref, lift, write_file, mret.
    cbn [heap set_files add_event files trace].
    repeat (cbn [heap set_files add_event files trace];
            match goal with
            | |- context [match heap w !! ?l with
                          | Some _ => _ | None => _ end] =>
                destruct (heap w !! l)
            | |- context [match pickle_dump ?o with
                          | Ret _ => _ | Raise _ => _ end] =>
                destruct (pickle_dump o)
            end);
      intros [= <- <-]; cbn [heap files trace set_files];
      (split; [reflexivity|]); (split; [reflexivity|]);
      (split; [|discriminate]); intros other Hother;
      rewrite ?lookup_insert_ne by congruence; reflexivity.
  - intros [= <- <-]. cbn [heap files trace add_event].
    split; [reflexivity|]. split; [reflexivity|].
    split; [reflexivity|]. intros _. split; reflexivity.
Qed.

(** X12.  The file is emptied when it is opened, before the object is
    pickled.  So a [save] that fails after opening the file loses what
    the file held: a [load] of it raises, also when an earlier [save]
    to the same name had gone well. *)
Theorem save_failure_loses_file self filename w e w1 :
  writable filename = true ->
  save self filename w = (Raise e, w1) ->
  files w1 !! filename = Some None
  /\ is_Ret (fst (load filename w1)) = false.
Proof.
  intros Hw. unfold save. rewrite mbind_log, Hw.
  unfold mbind at 1, write_file at 1.
  unfold snapshot, mbind, deref, lift, write_file, mret.
  cbn [heap set_files add_event files trace].
  assert (Hload : forall w2 : world,
             files w2 !! filename = Some None ->
             is_Ret (fst (load filename w2)) = false).
  { intros w2 Hf. unfold load. rewrite mbind_log.
    unfold mbind at 1, read_file at 1. cbn [files add_event].
    rewrite Hf. reflexivity. }
  repeat (cbn [heap set_files add_event files trace];
          match goal with
          | |- context [match heap w !! ?l with
                        | Some _ => _ | None => _ end] =>
              destruct (heap w !! l)
          | |- context [match pickle_dump ?o with
                        | Ret _ => _ | Raise _ => _ end] =>
              destruct (pickle_dump o)
          end);
    intros [= <- <-]; cbn [files];
    (split; [apply lookup_insert_eq|]);
    apply Hload; cbn [files]; apply lookup_insert_eq.
Qed.

(** X13.  The file holds the model as it was when [save] was called.
    Let [pickle.load] give back what [pickle.dump] was given.  After a
    [save], a call of [calibrate] on the same object, in either mode and
    however it ends, leaves the file as it is, and a [load] of the file
    then gives a new object whose [_K] and [_D] hold what the saved
    object's held before the calibration; loading does not change the
    arrays of the saved object. *)
Theorem load_after_calibrate self filename img_paths update_model max_iter
    eps show_imgs w w1 r w2 :
  model_ok w self ->
  (forall obj b, pickle_dump obj = Ret b -> pickle_load b = Ret obj) ->
  save self filename w = (Ret tt, w1) ->
  calibrate self img_paths update_model max_iter eps show_imgs w1
  = (r, w2) ->
  exists self' w3,
    load filename w2 = (Ret self', w3)
    /\ files w2 = files w1
    /\ heap w3 !! _K self' = heap w !! _K self
    /\ heap w3 !! _D self' = heap w !! _D self
    /\ heap w3 !! _K self = heap w2 !! _K self
    /\ heap w3 !! _D self = heap w2 !! _D self
    /\ model_ok w3 self' /\ model_ok w3 self.
Proof.
  intros Hok Hlaw Hsave Hcal.
  pose proof Hok as ([Kv HK] & [Dv HD] & Hne).
  destruct (save_inv self filename w w1 Kv Dv HK HD Hsave)
    as (b & Hdump & Hfile & Hheap).
  apply Hlaw in Hdump.
  assert (Hok1 : model_ok w1 self).
  { unfold model_ok. rewrite Hheap. exact Hok. }
  pose proof (calibrate_preserves_model_ok _ _ _ _ _ _ _ _ _ Hok1 Hcal)
    as Hok2.
  assert (Hf2 : files w2 = files w1).
  { apply calibrate_cases in Hcal as [Hearly|Hreached]; [| |exact Hok1].
    - destruct Hearly as (e0 & evs0 & _ & _ & _ & _ & Hf & _). exact Hf.
    - destruct Hreached
        as (vars & evs0 & g & size0 & Kv0 & Dv0 & K0 & D0 & rvecs0 & tvecs0
            & _ & _ & _ & _ & _ & _ & _ & _ & Hf & _).
      exact Hf. }
  assert (Hfile2 : files w2 !! filename = Some (Some b)).
  { rewrite Hf2. exact Hfile. }
  destruct (load_run filename w2 b _ Hfile2 Hdump)
    as (K' & D' & h' & Hload & HKD & HK' & HD' & HKnew & HDnew & Hframe).
  cbn [p_nx p_ny p_verbose p_K p_D] in Hload, HKnew, HDnew.
  destruct Hok2 as ([Kv2 HK2] & [Dv2 HD2] & _).
  assert (HsK : h' !! _K self = heap w2 !! _K self).
  { apply Hframe; intros Heq; congruence. }
  assert (HsD : h' !! _D self = heap w2 !! _D self).
  { apply Hframe; intros Heq; congruence. }
  eexists. eexists. split; [exact Hload|].
  cbn [_K _D heap]. split; [exact Hf2|].
  split; [rewrite HKnew, HK; reflexivity|].
  split; [rewrite HDnew, HD; reflexivity|].
  split; [exact HsK|]. split; [exact HsD|]. split.
  - unfold model_ok. cbn [_K _D heap]. rewrite HKnew, HDnew. eauto.
  - unfold model_ok. cbn [heap]. rewrite HsK, HsD, HK2, HD2. eauto.
Qed.

(** X14.  [load] never hands out an array that is already in use.  A
    [load] that returns gives an object with two new, distinct arrays,
    holding the two arrays that were unpickled from the file, and leaves
    every array that existed before, and every file, as it was.  A
    [load] that raises has created no array. *)
Theorem load_builds_new_object filename w r w' :
  load filename w = (r, w') ->
  files w' = files w
  /\ (forall l, is_Some (heap w !! l) -> heap w' !! l = heap w !! l)
  /\ match r with
     | Ret self' =>
         model_ok w' self'
         /\ heap w !! _K self' = None /\ heap w !! _D self' = None
         /\ exists b obj,
             files w !! filename = Some (Some b)
             /\ pickle_load b = Ret obj
             /\ heap w' !! _K self' = Some (p_K obj)
             /\ heap w' !! _D self' = Some (p_D obj)
             /\ _nx self' = p_nx obj /\ _ny self' = p_ny obj
             /\ _verbose self' = p_verbose obj
     | Raise _ => heap w' = heap w
     end.
Proof.
  intros Hrun. destruct r as [self'|e].
  - destruct (load_inv _ _ _ _ Hrun) as (b & obj & Hfile & Hobj).
    destruct (load_run filename w b obj Hfile Hobj)
      as (K' & D' & h' & Hload & HKD & HK' & HD' & HKnew & HDnew & Hframe).
    rewrite Hload in Hrun. injection Hrun as <- <-.
    cbn [_K _D _nx _ny _verbose heap files].
    split; [reflexivity|]. split.
    { intros l [v Hv]. apply Hframe; intros Heq; congruence. }
    split.
    { unfold model_ok. cbn [_K _D heap]. rewrite HKnew, HDnew. eauto. }
    split; [exact HK'|]. split; [exact HD'|].
    exists b, obj. repeat split; assumption.
  - revert Hrun. unfold load. rewrite mbind_log.
    unfold mbind at 1, read_file at 1. cbn [files add_event].
    destruct (files w !! filename) as [[b|]|].
    + unfold mbind at 1, lift at 1.
      destruct (pickle_load b) as [obj|]; [discriminate|].
      intros [= <- <-]. cbn [heap files]. repeat split; reflexivity.
    + intros [= <- <-]. cbn [heap files]. repeat split; reflexivity.
    + intros [= <- <-]. cbn [heap files]. repeat split; reflexivity.
Qed.

End Persistence_frame.

(** ** Calls one after the other *)

Section Composition.
Context {fl : Floating} {cv : OpenCV} {pk : Pickle}.

(** A trial calibration changes no array that existed before, and the
    buffers it returns are new. *)
Lemma calibrate_trial_heap self paths mi eps show w r w1 :
  model_ok w self ->
  calibrate self paths false mi eps show w = (r, w1) ->
  (forall l, is_Some (heap w !! l) -> heap w1 !! l = heap w !! l)
  /\ forall rms K D rvecs tvecs l,
      r = Ret (rms, K, D, rvecs, tvecs) -> l ∈ K :: D :: rvecs ++ tvecs ->
      heap w !! l = None.
Proof.
  intros Hok Hrun.
  apply calibrate_cases in Hrun as [Hearly|Hopt]; [| |exact Hok].
  - destruct Hearly as (e & evs & -> & _ & _ & _ & _ & Hlive).
    split; [exact Hlive|]. discriminate.
  - destruct Hopt
      as (vars & evs & g & size & Kv & Dv & K0 & D0 & rvecs0 & tvecs0
          & _ & _ & _ & _ & _ & _ & _ & _ & _ & Hr & _ & _ & _ & Hnew
          & [HK0 HD0] & _ & _ & _ & _ & Hframe).
    assert (Hfresh : forall l, l ∈ K0 :: D0 :: rvecs0 ++ tvecs0 ->
                       heap w !! l = None).
    { intros l Hmem.
      apply elem_of_cons in Hmem as [->|Hmem]; [exact HK0|].
      apply elem_of_cons in Hmem as [->|Hmem]; [exact HD0|].
      apply Hnew. exact Hmem. }
    split.
    + intros l [v Hv]. apply Hframe. intros Hmem.
      apply Hfresh in Hmem. congruence.
    + intros rms K D rvecs tvecs l ->.
      symmetry in Hr. apply result_map_Ret_inv in Hr as (rms0 & _ & Heq).
      injection Heq as -> -> -> -> ->. apply Hfresh.
Qed.

Lemma snapshot_depends self w w2 :
  heap w2 !! _K self = heap w !! _K self ->
  heap w2 !! _D self = heap w !! _D self ->
  fst (snapshot self w2) = fst (snapshot self w).
Proof.
  intros HK HD. unfold snapshot, mbind, deref, mret.
  rewrite HK. destruct (heap w !! _K self); [|reflexivity].
  rewrite HD. destruct (heap w !! _D self); reflexivity.
Qed.

(** X15.  A call of [calibrate] with [update_model=False] is a trial:
    however it ends, [undistort] and [projectPoints] give afterwards
    what they gave before, and [save] would pickle the same object.
    This stays so when the caller later writes into any of the arrays
    that the trial returned. *)
Theorem trial_calibrate_keeps_model self img_paths max_iter eps show_imgs
    w r w1 :
  model_ok w self ->
  calibrate self img_paths false max_iter eps show_imgs w = (r, w1) ->
  let same (w2 : world) :=
    (forall img size R K,
        fst (undistort self img size R K w2)
        = fst (undistort self img size R K w))
    /\ (forall pts skew,
           fst (projectPoints self pts skew w2)
           = fst (projectPoints self pts skew w))
    /\ fst (snapshot self w2) = fst (snapshot self w) in
  same w1
  /\ forall rms K D rvecs tvecs l v,
      r = Ret (rms, K, D, rvecs, tvecs) -> l ∈ K :: D :: rvecs ++ tvecs ->
      same (snd (store l v w1)).
Proof.
  intros Hok Hrun same.
  destruct (calibrate_trial_heap _ _ _ _ _ _ _ _ Hok Hrun) as [Hkeep Hnew].
  destruct Hok as (HKlive & HDlive & Hne).
  assert (Hsame : forall w2,
             heap w2 !! _K self = heap w !! _K self ->
             heap w2 !! _D self = heap w !! _D self -> same w2).
  { intros w2 HK HD. split; [|split].
    - intros img size R K. apply undistort_depends; assumption.
    - intros pts skew. apply projectPoints_depends; assumption.
    - apply snapshot_depends; assumption. }
  split.
  - apply Hsame; apply Hkeep; assumption.
  - intros rms K D rvecs tvecs l v Hr Hl.
    pose proof (Hnew _ _ _ _ _ _ Hr Hl) as Hfresh.
    apply Hsame; cbn [store snd set_heap heap].
    + rewrite lookup_insert_ne.
      * apply Hkeep. exact HKlive.
      * intros ->. destruct HKlive as [v0 Hv0]. congruence.
    + rewrite lookup_insert_ne.
      * apply Hkeep. exact HDlive.
      * intros ->. destruct HDlive as [v0 Hv0]. congruence.
Qed.

(** X16.  A call of [calibrate] with [update_model=True] that returns
    feeds the other methods: afterwards [projectPoints] and [undistort]
    hand to the library the [K] and [D] that the optimizer produced
    ([undistort], with its optional arguments omitted, also as the new
    camera matrix), and these are what [save] pickles. *)
Theorem calibrate_feeds_model self img_paths max_iter eps show_imgs w
    rms K D rvecs tvecs w1 :
  model_ok w self ->
  calibrate self img_paths true max_iter eps show_imgs w
  = (Ret (rms, K, D, rvecs, tvecs), w1) ->
  exists objp imgp size Kv Dv rv tv crit,
    last (trace w1)
    = Some (Ev_fisheye_calibrate objp imgp size Kv Dv rv tv calibrate_flags
              crit)
    /\ let out :=
         fisheye_calibrate objp imgp size Kv Dv rv tv calibrate_flags crit in
       (forall pts skew, exists pts3,
           trace (snd (projectPoints self pts skew w1))
           = trace w1 ++ [Ev_projectPoints pts3 zero_pose zero_pose
                            (co_K out) (co_D out) skew])
       /\ (forall img rows cols rest,
              np.shape img = rows :: cols :: rest ->
              exists evs,
                trace (snd (undistort self img None None None w1))
                = trace w1
                  ++ Ev_initUndistortRectifyMap (co_K out) (co_D out)
                       (np.eye 3) (co_K out)
                       (cv2.mkSize (Z.of_nat rows) (Z.of_nat cols))
                       cv2.CV_16SC2 :: evs)
       /\ snapshot self w1
          = (Ret (mkPickled (_nx self) (_ny self) (_verbose self)
                    (co_K out) (co_D out)), w1).
Proof.
  intros Hok Hrun.
  apply calibrate_cases in Hrun as [(e & evs & Hr & _)|Hopt];
    [discriminate| |exact Hok].
  destruct Hopt
    as (vars & evs & g & size & Kv & Dv & K0 & D0 & rvecs0 & tvecs0
        & _ & _ & _ & _ & _ & _ & _ & Ht & _ & _ & _ & _ & _ & _
        & [-> ->] & HKout & HDout & _).
  cbv zeta in Ht, HKout, HDout.
  do 8 eexists. split; [rewrite Ht; apply last_trace|].
  cbv zeta. split; [|split].
  - intros pts skew.
    rewrite (projectPoints_run self pts skew w1 _ _ HKout HDout).
    cbv zeta. cbn [snd add_event trace]. eexists. reflexivity.
  - intros img rows cols rest Hs.
    exact (undistort_defaults self img w1 _ _ rows cols rest HKout HDout Hs).
  - apply snapshot_run; assumption.
Qed.

(** The methods of an object, one by one: the object stays well built,
    no array is freed, and no array other than the object's own is
    changed. *)
Lemma run_op_frame self o w :
  model_ok w self ->
  model_ok (run_op self o w) self
  /\ (forall l, is_Some (heap w !! l) -> is_Some (heap (run_op self o w) !! l))
  /\ (forall l, is_Some (heap w !! l) -> l <> _K self -> l <> _D self ->
        heap (run_op self o w) !! l = heap w !! l).
Proof.
  intros Hok.
  assert (Hsame : forall w1 : world, heap w1 = heap w ->
             model_ok w1 self
             /\ (forall l, is_Some (heap w !! l) -> is_Some (heap w1 !! l))
             /\ (forall l, is_Some (heap w !! l) -> l <> _K self ->
                   l <> _D self -> heap w1 !! l = heap w !! l)).
  { intros w1 Hh. unfold model_ok. rewrite Hh.
    split; [exact Hok|]. split; [auto|]. reflexivity. }
  destruct o as [paths um mi eps show|img size R K|pts skew|filename];
    cbn [run_op].
  - destruct (calibrate self paths um mi eps show w) as [r w1] eqn:Hrun.
    cbn [snd].
    split; [eapply calibrate_preserves_model_ok; eassumption|].
    apply calibrate_cases in Hrun as [Hearly|Hreached]; [| |exact Hok].
    + destruct Hearly as (e0 & evs0 & _ & _ & _ & _ & _ & Hlive).
      split.
      * intros l Hl. rewrite Hlive by exact Hl. exact Hl.
      * intros l Hl _ _. apply Hlive. exact Hl.
    + destruct Hreached
        as (vars & evs0 & g & size0 & Kv0 & Dv0 & K0 & D0 & rvecs0 & tvecs0
            & _ & _ & _ & _ & HK & HD & _ & _ & _ & _ & _ & _ & _ & Hnew
            & Hmode & HKout & HDout & _ & _ & Hframe).
      cbv zeta in HKout, HDout.
      assert (Hfresh : forall l, is_Some (heap w !! l) ->
                         l ∉ rvecs0 ++ tvecs0).
      { intros l [v Hv] Hmem. apply Hnew in Hmem. congruence. }
      assert (Hcases : forall l, is_Some (heap w !! l) ->
                         (um = true /\ (l = _K self \/ l = _D self))
                         \/ l ∉ K0 :: D0 :: rvecs0 ++ tvecs0).
      { intros l Hl. destruct um.
        - destruct Hmode as [-> ->].
          destruct (decide (l = _K self)) as [->|HlK]; [left; auto|].
          destruct (decide (l = _D self)) as [->|HlD]; [left; auto|].
          right. intros Hmem.
          apply elem_of_cons in Hmem as [Heq|Hmem]; [congruence|].
          apply elem_of_cons in Hmem as [Heq|Hmem]; [congruence|].
          eapply Hfresh; eassumption.
        - destruct Hmode as [HK0 HD0]. right. intros Hmem.
          destruct Hl as [v Hv].
          apply elem_of_cons in Hmem as [Heq|Hmem]; [congruence|].
          apply elem_of_cons in Hmem as [Heq|Hmem]; [congruence|].
          eapply Hfresh; eauto. }
      split.
      * intros l Hl. destruct (Hcases l Hl) as [[-> [->| ->]]|Hout].
        -- destruct Hmode as [<- _]. rewrite HKout. eauto.
        -- destruct Hmode as [_ <-]. rewrite HDout. eauto.
        -- rewrite Hframe by exact Hout. exact Hl.
      * intros l Hl HlK HlD. destruct (Hcases l Hl) as [[_ [Heq|Heq]]|Hout];
          [contradiction|contradiction|].
        apply Hframe. exact Hout.
  - destruct (undistort self img size R K w) as [r w1] eqn:Hrun.
    apply quiet_undistort in Hrun as (Hh & _). apply Hsame. exact Hh.
  - destruct (projectPoints self pts skew w) as [r w1] eqn:Hrun.
    apply quiet_projectPoints in Hrun as (Hh & _). apply Hsame. exact Hh.
  - apply Hsame. unfold save. rewrite mbind_log.
    destruct (writable filename); [|reflexivity].
    unfold mbind at 1, write_file at 1.
    unfold snapshot, mbind, deref, lift, write_file, mret.
    repeat (cbn [heap set_files add_event files trace snd];
            match goal with
            | |- context [match heap w !! ?l with
                          | Some _ => _ | None => _ end] =>
                destruct (heap w !! l)
            | |- context [match pickle_dump ?o with
                          | Ret _ => _ | Raise _ => _ end] =>
                destruct (pickle_dump o)
            end);
      reflexivity.
Qed.

(** X17.  Through any sequence of calls of [calibrate], [undistort],
    [projectPoints] and [save] on an object, with any arguments and
    whatever each call returns or raises: the object stays well built
    (its [_K] and [_D] stay two live, distinct arrays), no array is
    freed, and no array other than the object's own [_K] and [_D] is
    ever changed.  Two objects that share no array do not interfere. *)
Theorem methods_keep_objects_apart self ops w :
  model_ok w self ->
  model_ok (run_ops self ops w) self
  /\ (forall l, is_Some (heap w !! l) ->
        is_Some (heap (run_ops self ops w) !! l))
  /\ (forall l, is_Some (heap w !! l) -> l <> _K self -> l <> _D self ->
        heap (run_ops self ops w) !! l = heap w !! l).
Proof.
  revert w. induction ops as [|o ops IH]; intros w Hok; cbn [run_ops].
  - split; [exact Hok|]. split; [auto|]. reflexivity.
  - destruct (run_op_frame self o w Hok) as (Hok1 & Hlive1 & Hkeep1).
    destruct (IH _ Hok1) as (Hok2 & Hlive2 & Hkeep2).
    split; [exact Hok2|]. split.
    + intros l Hl. apply Hlive2, Hlive1. exact Hl.
    + intros l Hl HlK HlD. rewrite Hkeep2 by auto. apply Hkeep1; assumption.
Qed.

(** X18.  The constructor builds a well-built object in any state: it
    keeps [nx], [ny] and the verbosity flag, makes two new arrays, a
    3 by 3 [_K] and a 4 by 1 [_D], both zero and shared with no array
    that existed, changes nothing else, and makes no call that leaves
    the process. *)
Theorem init_builds_fresh_model nx ny verbose w :
  exists self w',
    __init__ nx ny verbose w = (Ret self, w')
    /\ _nx self = nx /\ _ny self = ny /\ _verbose self = verbose
    /\ model_ok w' self
    /\ heap w' !! _K self = Some (np.zeros [3; 3] np.float64)
    /\ heap w' !! _D self = Some (np.zeros [4; 1] np.float64)
    /\ heap w !! _K self = None /\ heap w !! _D self = None
    /\ (forall l, is_Some (heap w !! l) -> heap w' !! l = heap w !! l)
    /\ files w' = files w /\ trace w' = trace w.
Proof.
  set (K := fresh (dom (heap w))).
  set (h1 := <[K := np.zeros [3; 3] np.float64]> (heap w)).
  set (D := fresh (dom h1)).
  assert (HK : heap w !! K = None)
    by apply (alloc_fresh (np.zeros [] np.float64) w).
  assert (HD : h1 !! D = None) by (apply not_elem_of_dom, is_fresh).
  assert (HKD : K <> D).
  { intros Heq. rewrite <- Heq in HD. unfold h1 in HD.
    rewrite lookup_insert_eq in HD. discriminate. }
  assert (HDw : heap w !! D = None).
  { unfold h1 in HD. rewrite lookup_insert_ne in HD by exact HKD. exact HD. }
  exists (mkFishEye nx ny verbose K D).
  exists (mkWorld (<[D := np.zeros [4; 1] np.float64]> h1) (files w) (trace w)).
  split; [reflexivity|]. cbn [_nx _ny _verbose _K _D heap files trace].
  assert (HKnew : <[D := np.zeros [4; 1] np.float64]> h1 !! K
                  = Some (np.zeros [3; 3] np.float64)).
  { rewrite lookup_insert_ne by congruence. apply lookup_insert_eq. }
  assert (HDnew : <[D := np.zeros [4; 1] np.float64]> h1 !! D
                  = Some (np.zeros [4; 1] np.float64))
    by apply lookup_insert_eq.
  do 3 (split; [reflexivity|]).
  split.
  { exact (conj (ex_intro _ _ HKnew) (conj (ex_intro _ _ HDnew) HKD)). }
  split; [exact HKnew|]. split; [exact HDnew|]. split; [exact HK|].
  split; [exact HDw|]. split; [|split; reflexivity].
  intros l [v Hv]. unfold h1.
  rewrite !lookup_insert_ne by congruence. reflexivity.
Qed.

End Composition.

(** ** The flag [show_imgs] *)

Section Display.
Context {fl : Floating} {cv : OpenCV} {pk : Pickle}.

Lemma undisplayed_app (t1 t2 : list event) :
  undisplayed (t1 ++ t2) = undisplayed t1 ++ undisplayed t2.
Proof. unfold undisplayed. apply filter_app. Qed.

Lemma agree_shown_refl (w : world) : agree_shown w w.
Proof. repeat split. Qed.

Lemma agree_shown_event (e : event) (w1 w2 : world) :
  agree_shown w1 w2 -> agree_shown (add_event e w1) (add_event e w2).
Proof.
  intros (Hh & Hf & Ht). unfold agree_shown, add_event.
  cbn [heap files trace]. rewrite !undisplayed_app, Ht. auto.
Qed.

Lemma agree_shown_hidden (e : event) (w1 w2 : world) :
  is_display e = true ->
  agree_shown w1 w2 -> agree_shown (add_event e w1) w2.
Proof.
  intros He (Hh & Hf & Ht). unfold agree_shown, add_event.
  cbn [heap files trace]. rewrite undisplayed_app, Ht.
  split; [exact Hh|]. split; [exact Hf|].
  unfold undisplayed at 2. rewrite filter_cons, filter_nil.
  destruct (decide (is_display e = false)) as [Hd|_]; [congruence|].
  apply app_nil_r.
Qed.

Lemma follows_mret {A} (a : A) : follows (mret a) (mret a).
Proof.
  intros w1 w2 Ha a0 w1' [= <- <-]. exists w2. split; [reflexivity|exact Ha].
Qed.

Lemma follows_mraise {A} (e : exn) (c : M A) : follows (mraise e) c.
Proof. intros w1 w2 Ha a0 w1' Hrun. discriminate Hrun. Qed.

Lemma follows_lift {A} (r : result A) : follows (lift r) (lift r).
Proof.
  intros w1 w2 Ha a0 w1' [= -> <-]. exists w2. split; [reflexivity|exact Ha].
Qed.

Lemma follows_log (e : event) : follows (log e) (log e).
Proof.
  intros w1 w2 Ha a0 w1' [= <- <-]. exists (add_event e w2).
  split; [reflexivity|]. apply agree_shown_event. exact Ha.
Qed.

Lemma follows_hidden (e : event) :
  is_display e = true -> follows (log e) (mret tt).
Proof.
  intros He w1 w2 Ha a0 w1' [= <- <-]. exists w2.
  split; [reflexivity|]. apply agree_shown_hidden; assumption.
Qed.

Lemma follows_mbind {A B} (c1 c2 : M A) (k1 k2 : A -> M B) :
  follows c1 c2 -> (forall a, follows (k1 a) (k2 a)) ->
  follows (mbind c1 k1) (mbind c2 k2).
Proof.
  intros Hc Hk w1 w2 Ha b w1' Hrun.
  apply mbind_inv in Hrun as [(a & w1m & Hrun1 & Hrun2)|(e & _ & He)];
    [|discriminate].
  destruct (Hc w1 w2 Ha a w1m Hrun1) as (w2m & Hrun1' & Ham).
  destruct (Hk a w1m w2m Ham b w1' Hrun2) as (w2' & Hrun2' & Ha').
  exists w2'. split; [|exact Ha'].
  rewrite (mbind_Ret _ _ _ _ _ Hrun1'). exact Hrun2'.
Qed.

Lemma follows_hidden_l {B} (e : event) (c1 : M B) (c2 : M B) :
  is_display e = true -> follows c1 c2 ->
  follows (mbind (log e) (fun _ => c1)) c2.
Proof.
  intros He Hc w1 w2 Ha b w1' Hrun. rewrite mbind_log in Hrun.
  eapply Hc; [|exact Hrun]. apply agree_shown_hidden; assumption.
Qed.

Lemma follows_lift_l {A B} (r : result A) (k : A -> M B) (c2 : M B) :
  (forall a, follows (k a) c2) -> follows (mbind (lift r) k) c2.
Proof.
  intros Hk w1 w2 Ha b w1' Hrun. destruct r as [a|e]; [|discriminate].
  rewrite mbind_lift_Ret in Hrun. eapply Hk; eassumption.
Qed.

Lemma follows_alloc (a : farray) : follows (alloc a) (alloc a).
Proof.
  intros w1 w2 (Hh & Hf & Ht) l w1' [= <- <-]. eexists.
  split; [unfold alloc; rewrite Hh; reflexivity|].
  unfold agree_shown, set_heap. cbn [heap files trace]. rewrite Hh. auto.
Qed.

Lemma follows_deref (l : loc) : follows (deref l) (deref l).
Proof.
  intros w1 w2 Ha a w1'. pose proof Ha as (Hh & _). unfold deref.
  rewrite Hh. destruct (heap w2 !! l); [|discriminate].
  intros [= <- <-]. exists w2. split; [reflexivity|exact Ha].
Qed.

Lemma follows_store (l : loc) (a : farray) : follows (store l a) (store l a).
Proof.
  intros w1 w2 (Hh & Hf & Ht) u w1' [= <- <-]. eexists.
  split; [reflexivity|].
  unfold agree_shown, set_heap. cbn [heap files trace]. rewrite Hh. auto.
Qed.

Lemma follows_alloc_list (n : nat) (a : farray) :
  follows (alloc_list n a) (alloc_list n a).
Proof.
  induction n as [|n IH]; cbn [alloc_list]; [apply follows_mret|].
  apply follows_mbind; [apply follows_alloc|]. intros l.
  apply follows_mbind; [exact IH|]. intros ls. apply follows_mret.
Qed.

Lemma follows_deref_list (ls : list loc) :
  follows (deref_list ls) (deref_list ls).
Proof.
  induction ls as [|l ls IH]; cbn [deref_list]; [apply follows_mret|].
  apply follows_mbind; [apply follows_deref|]. intros a.
  apply follows_mbind; [exact IH|]. intros rest. apply follows_mret.
Qed.

Lemma follows_store_list (ls : list loc) (vs : list farray) :
  follows (store_list ls vs) (store_list ls vs).
Proof.
  revert vs. induction ls as [|l ls IH]; intros [|v vs]; cbn [store_list];
    try apply follows_mret.
  apply follows_mbind; [apply follows_store|]. intros _. apply IH.
Qed.

Lemma follows_for_each {A B} (b1 b2 : A -> B -> M A) (xs : list B) :
  (forall a x, follows (b1 a x) (b2 a x)) ->
  forall a, follows (for_each b1 xs a) (for_each b2 xs a).
Proof.
  intros Hb. induction xs as [|x xs IH]; intros a; cbn [for_each].
  - apply follows_mret.
  - apply follows_mbind; [apply Hb|exact IH].
Qed.

End Display.

(** Relates a computation to the same computation without its display
    calls, step by step. *)
Ltac follows_steps :=
  repeat first
    [ apply follows_mret | apply follows_mraise | apply follows_lift
    | apply follows_log
    | apply follows_alloc | apply follows_deref | apply follows_store
    | apply follows_alloc_list | apply follows_deref_list
    | apply follows_store_list
    | apply follows_hidden; reflexivity
    | apply follows_mbind; [|intros ?]
    | apply follows_hidden_l; [reflexivity|]
    | apply follows_lift_l; intros ?
    | match goal with
      | |- follows (let (_, _) := ?a in _) _ => destruct a
      | |- follows (if ?b then _ else _) _ => destruct b
      | |- follows (match ?k with Some _ => _ | None => _ end) _ => destruct k
      end ].

Section Display_theorem.
Context {fl : Floating} {cv : OpenCV} {pk : Pickle}.

Lemma follows_calibrate_body self vars fname :
  follows (calibrate_body self true vars fname)
          (calibrate_body self false vars fname).
Proof.
  unfold calibrate_body, when. follows_steps.
Qed.

Lemma follows_calibrate self paths um mi eps :
  follows (calibrate self paths um mi eps true)
          (calibrate self paths um mi eps false).
Proof.
  unfold calibrate, calibrate_loop, calibrate_finish, select_buffers,
    calibrate_invoke, call_fisheye_calibrate, when.
  follows_steps.
  apply follows_for_each. intros vars fname. apply follows_calibrate_body.
Qed.

(** X19.  The flag [show_imgs] is for looking on: whenever a call of
    [calibrate] with [show_imgs=True] returns, the same call with
    [show_imgs=False] returns the same values, leaves the same arrays and
    files, and makes the same calls in the same order, the display calls
    ([namedWindow], [drawChessboardCorners], [imshow], [waitKey],
    [destroyAllWindows]) left out. *)
Theorem show_imgs_only_displays self img_paths update_model max_iter eps
    w out w1 :
  calibrate self img_paths update_model max_iter eps true w = (Ret out, w1) ->
  exists w2,
    calibrate self img_paths update_model max_iter eps false w
    = (Ret out, w2)
    /\ heap w2 = heap w1 /\ files w2 = files w1
    /\ undisplayed (trace w2) = undisplayed (trace w1).
Proof.
  intros Hrun.
  destruct (follows_calibrate self img_paths update_model max_iter eps w w
              (agree_shown_refl w) out w1 Hrun)
    as (w2 & Hrun2 & Hh & Hf & Ht).
  exists w2. split; [exact Hrun2|]. repeat split; congruence.
Qed.

End Display_theorem.

(** * The further properties on the concrete environment *)

(** X2 on the run over three images, the second of which shows no
    chessboard: the optimizer gets the corner sets of the first and of
    the third. *)
Lemma calibrate_image_points_witness :
  let paths := ["board.png"; "black.png"; "tall.png"]%string in
  let run := Fixture.run_calibrate paths true in
  model_ok Fixture.world1 Fixture.self0
  /\ Fixture.mixed_call ∈ trace (snd run)
  /\ omap (@corner_set Fixture.decimal Fixture.toy_cv Fixture.self0) paths
     = [Fixture.corners; Fixture.corners].
Proof.
  intros paths run. subst run paths. unfold Fixture.run_calibrate.
  assert (He : Fixture.mixed_call
               ∈ trace (snd (@calibrate Fixture.decimal Fixture.toy_cv
                               Fixture.toy_pickle Fixture.self0
                               ["board.png"; "black.png"; "tall.png"]%string
                               true 30%Z (1, -6)%Z false Fixture.world1))).
  { apply last_Some_elem_of. vm_compute. reflexivity. }
  split; [exact model_ok_fixture|]. split; [exact He|].
  symmetry.
  exact (proj1
           (@calibrate_image_points Fixture.decimal Fixture.toy_cv
              Fixture.toy_pickle Fixture.self0
              ["board.png"; "black.png"; "tall.png"]%string true 30%Z
              (1, -6)%Z false Fixture.world1 _ _ _ _ _ _ _ _ _ _ _ _
              model_ok_fixture (surjective_pairing _)
              (eq_sym (app_nil_l _)) He)).
Defined.

(** X3 on a run over a good image followed by a file that does not
    exist: the call raises. *)
Lemma calibrate_stops_at_failing_file_witness :
  let paths := ["board.png"; "missing.png"]%string in
  model_ok Fixture.world1 Fixture.self0
  /\ "missing.png"%string ∈ paths
  /\ @detection Fixture.decimal Fixture.toy_cv Fixture.self0 "missing.png"
     <> Some false
  /\ @corner_set Fixture.decimal Fixture.toy_cv Fixture.self0 "missing.png"
     = None
  /\ is_Ret (fst (Fixture.run_calibrate paths true)) = false.
Proof.
  intros paths.
  assert (Hin : "missing.png"%string ∈ paths).
  { apply list_elem_of_In. cbn. auto. }
  assert (Hdet : @detection Fixture.decimal Fixture.toy_cv Fixture.self0
                   "missing.png" <> Some false)
    by (vm_compute; discriminate).
  assert (Hcs : @corner_set Fixture.decimal Fixture.toy_cv Fixture.self0
                  "missing.png" = None)
    by (vm_compute; reflexivity).
  split; [exact model_ok_fixture|]. split; [exact Hin|].
  split; [exact Hdet|]. split; [exact Hcs|].
  destruct (@calibrate_stops_at_failing_file Fixture.decimal Fixture.toy_cv
              Fixture.toy_pickle Fixture.self0 paths true 30%Z (1, -6)%Z
              false Fixture.world1 "missing.png" model_ok_fixture Hin Hdet
              Hcs)
    as (e & w' & evs & Hrun & _).
  unfold Fixture.run_calibrate. rewrite Hrun. reflexivity.
Defined.

(** X4 on the run over three images: the three files are read, in
    order. *)
Lemma calibrate_reads_in_order_witness :
  let paths := ["board.png"; "black.png"; "tall.png"]%string in
  let run := Fixture.run_calibrate paths true in
  model_ok Fixture.world1 Fixture.self0
  /\ is_Ret (fst run) = true
  /\ imread_calls (trace (snd run)) = paths.
Proof.
  intros paths run. subst run paths. unfold Fixture.run_calibrate.
  assert (Hret : is_Ret (fst (@calibrate Fixture.decimal Fixture.toy_cv
                                Fixture.toy_pickle Fixture.self0
                                ["board.png"; "black.png"; "tall.png"]%string
                                true 30%Z (1, -6)%Z false Fixture.world1))
                 = true) by (vm_compute; reflexivity).
  split; [exact model_ok_fixture|]. split; [exact Hret|].
  exact (proj2
           (@calibrate_reads_in_order Fixture.decimal Fixture.toy_cv
              Fixture.toy_pickle Fixture.self0
              ["board.png"; "black.png"; "tall.png"]%string true 30%Z
              (1, -6)%Z false Fixture.world1 _ _ _ model_ok_fixture
              (surjective_pairing _) (eq_sym (app_nil_l _)))
           (or_introl Hret)).
Defined.

(** X5 on the same run: the optimizer starts from the zero matrix that
    the constructor put in [_K]. *)
Lemma calibrate_optimizer_inputs_witness :
  let paths := ["board.png"; "black.png"; "tall.png"]%string in
  let run := Fixture.run_calibrate paths true in
  model_ok Fixture.world1 Fixture.self0
  /\ Fixture.mixed_call ∈ trace (snd run)
  /\ heap Fixture.world1 !! _K Fixture.self0
     = Some (@np.zeros Fixture.decimal [3; 3] np.float64).
Proof.
  intros paths run. subst run paths. unfold Fixture.run_calibrate.
  assert (He : Fixture.mixed_call
               ∈ trace (snd (@calibrate Fixture.decimal Fixture.toy_cv
                               Fixture.toy_pickle Fixture.self0
                               ["board.png"; "black.png"; "tall.png"]%string
                               true 30%Z (1, -6)%Z false Fixture.world1))).
  { apply last_Some_elem_of. vm_compute. reflexivity. }
  split; [exact model_ok_fixture|]. split; [exact He|].
  exact (proj1
           (@calibrate_optimizer_inputs Fixture.decimal Fixture.toy_cv
              Fixture.toy_pickle Fixture.self0
              ["board.png"; "black.png"; "tall.png"]%string true 30%Z
              (1, -6)%Z false Fixture.world1 _ _ _ _ _ _ _ _ _ _ _ _
              model_ok_fixture (surjective_pairing _)
              (eq_sym (app_nil_l _)) He)).
Defined.

(** X6 on a run that updates the model: the files are as before. *)
Lemma calibrate_frame_witness :
  let run := Fixture.run_calibrate ["board.png"%string] true in
  model_ok Fixture.world1 Fixture.self0
  /\ files (snd run) = files Fixture.world1.
Proof.
  intros run. split; [exact model_ok_fixture|].
  exact (proj1
           (@calibrate_frame Fixture.decimal Fixture.toy_cv
              Fixture.toy_pickle Fixture.self0 ["board.png"%string] true
              30%Z (1, -6)%Z false Fixture.world1 _ _ (trace (snd run))
              model_ok_fixture (surjective_pairing _) eq_refl)).
Defined.

(** X7 on the run over three images: six distinct buffers come back. *)
Lemma calibrate_buffers_distinct_witness :
  let paths := ["board.png"; "black.png"; "tall.png"]%string in
  let run := Fixture.run_calibrate paths true in
  model_ok Fixture.world1 Fixture.self0
  /\ run = (Ret ((5, -1)%Z, 1%positive, 2%positive,
                 [3%positive; 4%positive], [5%positive; 6%positive]),
            snd run)
  /\ NoDup [1%positive; 2%positive; 3%positive; 4%positive; 5%positive;
            6%positive].
Proof.
  intros paths run. subst run paths. unfold Fixture.run_calibrate.
  assert (Hrun : @calibrate Fixture.decimal Fixture.toy_cv
                   Fixture.toy_pickle Fixture.self0
                   ["board.png"; "black.png"; "tall.png"]%string true 30%Z
                   (1, -6)%Z false Fixture.world1
                 = (Ret ((5, -1)%Z, 1%positive, 2%positive,
                         [3%positive; 4%positive],
                         [5%positive; 6%positive]),
                    snd (@calibrate Fixture.decimal Fixture.toy_cv
                           Fixture.toy_pickle Fixture.self0
                           ["board.png"; "black.png"; "tall.png"]%string
                           true 30%Z (1, -6)%Z false Fixture.world1)))
    by (vm_compute; reflexivity).
  split; [exact model_ok_fixture|]. split; [exact Hrun|].
  exact (proj1
           (@calibrate_buffers_distinct Fixture.decimal Fixture.toy_cv
              Fixture.toy_pickle Fixture.self0
              ["board.png"; "black.png"; "tall.png"]%string true 30%Z
              (1, -6)%Z false Fixture.world1 _ _ _ _ _ _ model_ok_fixture
              Hrun)).
Defined.

(** X8 before and after a trial calibration: [projectPoints] gives the
    same points. *)
Lemma projectPoints_camera_frame_witness :
  let w := Fixture.world1 in
  let w2 := snd (Fixture.run_calibrate ["board.png"%string] false) in
  let run :=
    @projectPoints Fixture.decimal Fixture.toy_cv Fixture.toy_pickle
      Fixture.self0 Fixture.points (0, 0)%Z in
  heap w !! _K Fixture.self0
  = Some (@np.zeros Fixture.decimal [3; 3] np.float64)
  /\ heap w !! _D Fixture.self0
     = Some (@np.zeros Fixture.decimal [4; 1] np.float64)
  /\ heap w2 !! _K Fixture.self0
     = Some (@np.zeros Fixture.decimal [3; 3] np.float64)
  /\ heap w2 !! _D Fixture.self0
     = Some (@np.zeros Fixture.decimal [4; 1] np.float64)
  /\ fst (run w2) = fst (run w).
Proof.
  intros w w2 run.
  assert (HK : heap w !! _K Fixture.self0
               = Some (@np.zeros Fixture.decimal [3; 3] np.float64))
    by (vm_compute; reflexivity).
  assert (HD : heap w !! _D Fixture.self0
               = Some (@np.zeros Fixture.decimal [4; 1] np.float64))
    by (vm_compute; reflexivity).
  assert (HK2 : heap w2 !! _K Fixture.self0
                = Some (@np.zeros Fixture.decimal [3; 3] np.float64))
    by (vm_compute; reflexivity).
  assert (HD2 : heap w2 !! _D Fixture.self0
                = Some (@np.zeros Fixture.decimal [4; 1] np.float64))
    by (vm_compute; reflexivity).
  split; [exact HK|]. split; [exact HD|]. split; [exact HK2|].
  split; [exact HD2|].
  exact (proj2
           (proj2
              (proj2
                 (@projectPoints_camera_frame Fixture.decimal Fixture.toy_cv
                    Fixture.toy_pickle Fixture.self0 Fixture.points
                    (0, 0)%Z w w2 _ _ HK HD HK2 HD2)))).
Defined.

(** X9 on two points given as an array of shape [(2, 3)]. *)
Lemma projectPoints_accepts_2d_witness :
  np.shape Fixture.points = [2; 3]
  /\ @projectPoints Fixture.decimal Fixture.toy_cv Fixture.toy_pickle
       Fixture.self0 Fixture.points (0, 0)%Z Fixture.world1
     = @projectPoints Fixture.decimal Fixture.toy_cv Fixture.toy_pickle
         Fixture.self0 (np.expand_dims0 Fixture.points) (0, 0)%Z
         Fixture.world1.
Proof.
  split; [reflexivity|].
  exact (proj1
           (proj2
              (@projectPoints_accepts_2d Fixture.decimal Fixture.toy_cv
                 Fixture.toy_pickle Fixture.self0 Fixture.points (0, 0)%Z
                 Fixture.world1 2 eq_refl))).
Defined.

(** X10 on the same points: the numbers that come back are the
    library's. *)
Lemma projectPoints_result_shape_witness :
  let run :=
    @projectPoints Fixture.decimal Fixture.toy_cv Fixture.toy_pickle
      Fixture.self0 Fixture.points (0, 0)%Z Fixture.world1 in
  run = (Ret (np.mk np.float64 [2; 3] (np.data Fixture.points)), snd run)
  /\ exists image_points : @farray Fixture.decimal,
      np.data Fixture.points = np.data image_points.
Proof.
  intros run.
  assert (Hrun : run = (Ret (np.mk np.float64 [2; 3]
                               (np.data Fixture.points)), snd run))
    by (vm_compute; reflexivity).
  split; [exact Hrun|].
  destruct (@projectPoints_result_shape Fixture.decimal Fixture.toy_cv
              Fixture.toy_pickle Fixture.self0 Fixture.points (0, 0)%Z
              Fixture.world1 _ _ Hrun)
    as (pts3 & rvec & tvec & Kv & Dv & ip & jac & _ & Hdata & _).
  exists ip. exact Hdata.
Defined.

(** X11 on a save of the new object: no array changes. *)
Lemma save_touches_one_file_witness :
  let saved :=
    @save Fixture.decimal Fixture.toy_pickle Fixture.self0 "model.pkl"
      Fixture.world1 in
  saved = (Ret tt, snd saved)
  /\ heap (snd saved) = heap Fixture.world1.
Proof.
  intros saved.
  assert (Hsave : saved = (Ret tt, snd saved)) by (vm_compute; reflexivity).
  split; [exact Hsave|].
  exact (proj1
           (@save_touches_one_file Fixture.decimal Fixture.toy_pickle
              Fixture.self0 "model.pkl" Fixture.world1 _ _ Hsave)).
Defined.

(** X12 with a pickle that refuses the object: the file is left empty
    and cannot be loaded. *)
Lemma save_failure_loses_file_witness :
  let saved :=
    @save Fixture.decimal Fixture.failing_pickle Fixture.self0 "model.pkl"
      Fixture.world1_failing in
  @writable Fixture.decimal Fixture.failing_pickle "model.pkl" = true
  /\ saved = (Raise (PickleError "cannot pickle object"), snd saved)
  /\ is_Ret (fst (@load Fixture.decimal Fixture.failing_pickle "model.pkl"
                    (snd saved))) = false.
Proof.
  intros saved.
  assert (Hw : @writable Fixture.decimal Fixture.failing_pickle "model.pkl"
               = true) by reflexivity.
  assert (Hsave : saved = (Raise (PickleError "cannot pickle object"),
                           snd saved))
    by (vm_compute; reflexivity).
  split; [exact Hw|]. split; [exact Hsave|].
  exact (proj2
           (@save_failure_loses_file Fixture.decimal Fixture.failing_pickle
              Fixture.self0 "model.pkl" Fixture.world1_failing _ _ Hw Hsave)).
Defined.

(** X13: save the new object, calibrate it, load the file: the loaded
    object holds the zero matrix of before the calibration. *)
Lemma load_after_calibrate_witness :
  let saved :=
    @save Fixture.decimal Fixture.toy_pickle Fixture.self0 "model.pkl"
      Fixture.world1 in
  let calibrated :=
    @calibrate Fixture.decimal Fixture.toy_cv Fixture.toy_pickle
      Fixture.self0 ["board.png"%string] true 30%Z (1, -6)%Z false
      (snd saved) in
  model_ok Fixture.world1 Fixture.self0
  /\ (forall obj b,
         @pickle_dump Fixture.decimal Fixture.toy_pickle obj = Ret b ->
         @pickle_load Fixture.decimal Fixture.toy_pickle b = Ret obj)
  /\ saved = (Ret tt, snd saved)
  /\ exists self' w3,
      @load Fixture.decimal Fixture.toy_pickle "model.pkl" (snd calibrated)
      = (Ret self', w3)
      /\ heap w3 !! _K self' = heap Fixture.world1 !! _K Fixture.self0.
Proof.
  intros saved calibrated.
  assert (Hlaw : forall obj b,
             @pickle_dump Fixture.decimal Fixture.toy_pickle obj = Ret b ->
             @pickle_load Fixture.decimal Fixture.toy_pickle b = Ret obj)
    by (intros obj b [= <-]; reflexivity).
  assert (Hsave : saved = (Ret tt, snd saved)) by (vm_compute; reflexivity).
  split; [exact model_ok_fixture|]. split; [exact Hlaw|].
  split; [exact Hsave|].
  destruct (@load_after_calibrate Fixture.decimal Fixture.toy_cv
              Fixture.toy_pickle Fixture.self0 "model.pkl"
              ["board.png"%string] true 30%Z (1, -6)%Z false Fixture.world1
              (snd saved) (fst calibrated) (snd calibrated)
              model_ok_fixture Hlaw Hsave (surjective_pairing _))
    as (self' & w3 & Hload & _ & HK & _).
  exists self', w3. split; [exact Hload|exact HK].
Defined.

(** X14 on the file that a save wrote: the load leaves the files as
    they are. *)
Lemma load_builds_new_object_witness :
  let saved :=
    @save Fixture.decimal Fixture.toy_pickle Fixture.self0 "model.pkl"
      Fixture.world1 in
  let loaded :=
    @load Fixture.decimal Fixture.toy_pickle "model.pkl" (snd saved) in
  is_Ret (fst loaded) = true
  /\ files (snd loaded) = files (snd saved).
Proof.
  intros saved loaded. split; [vm_compute; reflexivity|].
  exact (proj1
           (@load_builds_new_object Fixture.decimal Fixture.toy_pickle
              "model.pkl" (snd saved) _ _ (surjective_pairing _))).
Defined.

(** X15 on a trial run over one good image. *)
Lemma trial_calibrate_keeps_model_witness :
  let w1 := snd (Fixture.run_calibrate ["board.png"%string] false) in
  model_ok Fixture.world1 Fixture.self0
  /\ fst (@undistort Fixture.decimal Fixture.toy_cv Fixture.toy_pickle
            Fixture.self0 (Fixture.img 2 3 7) None None None w1)
     = fst (@undistort Fixture.decimal Fixture.toy_cv Fixture.toy_pickle
              Fixture.self0 (Fixture.img 2 3 7) None None None
              Fixture.world1).
Proof.
  intros w1. split; [exact model_ok_fixture|].
  exact (proj1
           (proj1
              (@trial_calibrate_keeps_model Fixture.decimal Fixture.toy_cv
                 Fixture.toy_pickle Fixture.self0 ["board.png"%string] 30%Z
                 (1, -6)%Z false Fixture.world1 _ _ model_ok_fixture
                 (surjective_pairing _)))
           (Fixture.img 2 3 7) None None None).
Defined.

(** X16 on an updating run over one good image: what [save] would
    pickle afterwards is the optimizer's model. *)
Lemma calibrate_feeds_model_witness :
  let run := Fixture.run_calibrate ["board.png"%string] true in
  model_ok Fixture.world1 Fixture.self0
  /\ run = (Ret ((5, -1)%Z, 1%positive, 2%positive, [3%positive],
                 [4%positive]), snd run)
  /\ exists Kv Dv,
      @snapshot Fixture.decimal Fixture.toy_pickle Fixture.self0 (snd run)
      = (Ret (mkPickled 3 2 false Kv Dv), snd run).
Proof.
  intros run.
  assert (Hrun : run = (Ret ((5, -1)%Z, 1%positive, 2%positive,
                             [3%positive], [4%positive]), snd run))
    by (vm_compute; reflexivity).
  split; [exact model_ok_fixture|]. split; [exact Hrun|].
  destruct (@calibrate_feeds_model Fixture.decimal Fixture.toy_cv
              Fixture.toy_pickle Fixture.self0 ["board.png"%string] 30%Z
              (1, -6)%Z false Fixture.world1 _ _ _ _ _ _ model_ok_fixture
              Hrun)
    as (objp & imgp & size & Kv & Dv & rv & tv & crit & _ & _ & _ & Hsnap).
  eexists. eexists. exact Hsnap.
Defined.

(** X17 on a session of four calls. *)
Lemma methods_keep_objects_apart_witness :
  model_ok Fixture.world1 Fixture.self0
  /\ model_ok
       (@run_ops Fixture.decimal Fixture.toy_cv Fixture.toy_pickle
          Fixture.self0 Fixture.session Fixture.world1)
       Fixture.self0.
Proof.
  split; [exact model_ok_fixture|].
  exact (proj1
           (@methods_keep_objects_apart Fixture.decimal Fixture.toy_cv
              Fixture.toy_pickle Fixture.self0 Fixture.session
              Fixture.world1 model_ok_fixture)).
Defined.

(** X19 on a run over one good image, with and without the display. *)
Lemma show_imgs_only_displays_witness :
  let out :=
    ((5, -1)%Z, 1%positive, 2%positive, [3%positive], [4%positive]) in
  let shown :=
    @calibrate Fixture.decimal Fixture.toy_cv Fixture.toy_pickle
      Fixture.self0 ["board.png"%string] true 30%Z (1, -6)%Z true
      Fixture.world1 in
  shown = (Ret out, snd shown)
  /\ exists w2, Fixture.run_calibrate ["board.png"%string] true = (Ret out, w2).
Proof.
  intros out shown. subst out shown. unfold Fixture.run_calibrate.
  assert (Hrun : @calibrate Fixture.decimal Fixture.toy_cv
                   Fixture.toy_pickle Fixture.self0 ["board.png"%string]
                   true 30%Z (1, -6)%Z true Fixture.world1
                 = (Ret ((5, -1)%Z, 1%positive, 2%positive, [3%positive],
                         [4%positive]),
                    snd (@calibrate Fixture.decimal Fixture.toy_cv
                           Fixture.toy_pickle Fixture.self0
                           ["board.png"%string] true 30%Z (1, -6)%Z true
                           Fixture.world1)))
    by (vm_compute; reflexivity).
  split; [exact Hrun|].
  destruct (@show_imgs_only_displays Fixture.decimal Fixture.toy_cv
              Fixture.toy_pickle Fixture.self0 ["board.png"%string] true
              30%Z (1, -6)%Z Fixture.world1 _ _ Hrun)
    as (w2 & Hrun2 & _).
  exists w2. exact Hrun2.
Defined.
